(** * LLRP reader client (Zebra FX9600): a shallow embedding of the protocol engine

    The embedded code is the [LLRPReader] class of the full reader script
    (frame codec, response check, capabilities parser, power-index selection,
    ROSpec builder, tag-report parser, message dispatcher) together with the
    framing routine of the earlier minimal script.

    Conventions.
    - A Node [Buffer] is a [list Z] of byte values; offsets and lengths are [Z].
    - A JavaScript number that holds a dBm value is given by its exact
      value, a rational ([Q]); integers are [Z]. Where the code computes
      with such a number in double precision (the distances compared by
      [findClosestPowerIndex]) the model computes on binary64 values
      ([B64.double]) as well.
    - A function that can raise [RangeError] (an out-of-range [readUInt16BE],
      [writeUInt32BE], ...) returns [RangeError]; a [while] loop is run on
      fuel and [Diverge] stands for a loop that has not finished.
    - Console output is not modelled; socket writes, timers and emitted
      events are collected in a trace of [Effect]s. *)

From Stdlib Require Import ZArith QArith Qround Qabs List Lia Bool String Ascii.
From Stdlib Require Import Permutation Sorted.
From Stdlib Require Import Floats.SpecFloat.
From stdpp Require Import base gmap list.

Local Open Scope Z_scope.

(** ** Outcomes of a call *)

Inductive result (A : Type) : Type :=
| Ok (a : A)
| RangeError
| Diverge.

Arguments Ok {A} a.
Arguments RangeError {A}.
Arguments Diverge {A}.

Definition rbind {A B : Type} (r : result A) (k : A -> result B) : result B :=
  match r with
  | Ok a => k a
  | RangeError => RangeError
  | Diverge => Diverge
  end.

Notation "'let!' x ':=' r 'in' k" := (rbind r (fun x => k))
  (at level 10, x name, r at level 100, k at level 200).

(** ** Buffers *)

Module Buf.

Definition Buffer : Type := list Z.

Definition len (b : Buffer) : Z := Z.of_nat (length b).

(** [data[i]]: [undefined] out of range. *)
Definition at_ (b : Buffer) (i : Z) : option Z :=
  if i <? 0 then None else nth_error b (Z.to_nat i).

(** [data[i]] under a bitwise operator, where [undefined] counts as 0. *)
Definition byte (b : Buffer) (i : Z) : Z :=
  match at_ b i with Some v => v | None => 0 end.

(** [data.slice(s, e)] for non-negative [s] and [e] (all call sites):
    both ends are clamped to the buffer. *)
Definition slice (b : Buffer) (s e : Z) : Buffer :=
  firstn (Z.to_nat (e - s)) (skipn (Z.to_nat s) b).

(** [data.slice(s)] *)
Definition sliceFrom (b : Buffer) (s : Z) : Buffer := skipn (Z.to_nat s) b.

Definition inRange (b : Buffer) (off n : Z) : bool :=
  (0 <=? off) && (off + n <=? len b).

(** The readers of the [Buffer] API raise [RangeError] when the field
    does not lie inside the buffer. Where the source reads under a guard
    that keeps the field inside, the model uses the value ([u16], [s16],
    [s8], [u32], [u64]) directly. *)

(** The two bytes at [off] as a big-endian number. *)
Definition u16 (b : Buffer) (off : Z) : Z := byte b off * 256 + byte b (off + 1).

Definition readUInt16BE (b : Buffer) (off : Z) : result Z :=
  if inRange b off 2 then Ok (u16 b off) else RangeError.

Definition s16 (b : Buffer) (off : Z) : Z :=
  let v := u16 b off in if v <? 32768 then v else v - 65536.

Definition readInt16BE (b : Buffer) (off : Z) : result Z :=
  if inRange b off 2 then Ok (s16 b off) else RangeError.

Definition s8 (b : Buffer) (off : Z) : Z :=
  let v := byte b off in if v <? 128 then v else v - 256.

Definition readInt8 (b : Buffer) (off : Z) : result Z :=
  if inRange b off 1 then Ok (s8 b off) else RangeError.

Definition u32 (b : Buffer) (off : Z) : Z :=
  (u16 b off * 256 + byte b (off + 2)) * 256 + byte b (off + 3).

Definition readUInt32BE (b : Buffer) (off : Z) : result Z :=
  if inRange b off 4 then Ok (u32 b off) else RangeError.

Fixpoint beValue (bs : list Z) (acc : Z) : Z :=
  match bs with
  | [] => acc
  | x :: rest => beValue rest (acc * 256 + x)
  end.

Definition u64 (b : Buffer) (off : Z) : Z := beValue (slice b off (off + 8)) 0.

Definition readBigUInt64BE (b : Buffer) (off : Z) : result Z :=
  if inRange b off 8 then Ok (u64 b off) else RangeError.

(** Writers into a freshly allocated buffer of exactly the written width:
    the value must fit, otherwise Node raises [RangeError]. *)
Definition writeUInt8 (v : Z) : result Buffer :=
  if (0 <=? v) && (v <=? 255) then Ok [v] else RangeError.

Definition writeUInt16BE (v : Z) : result Buffer :=
  if (0 <=? v) && (v <=? 65535)
  then Ok [Z.shiftr v 8; Z.land v 255]
  else RangeError.

Definition writeUInt32BE (v : Z) : result Buffer :=
  if (0 <=? v) && (v <=? 4294967295)
  then Ok [Z.shiftr v 24; Z.land (Z.shiftr v 16) 255;
           Z.land (Z.shiftr v 8) 255; Z.land v 255]
  else RangeError.

(** [Buffer.toString('hex').toUpperCase()] *)
Definition hexDigit (n : Z) : ascii :=
  if n <? 10 then ascii_of_nat (Z.to_nat (48 + n))
  else ascii_of_nat (Z.to_nat (55 + n)).

Fixpoint hexUpper (b : Buffer) : string :=
  match b with
  | [] => EmptyString
  | x :: rest => String (hexDigit (Z.shiftr x 4))
                   (String (hexDigit (Z.land x 15)) (hexUpper rest))
  end.

End Buf.

Import Buf.

(** ** Data model *)

(** [Math.round]: the nearest integer, halves rounded up. *)
Definition round (x : Q) : Z := Qfloor (x + (1 # 2))%Q.

(** JavaScript numbers are IEEE 754 binary64 values: 53 bits of mantissa,
    infinities at exponent 1024, every operation rounded to nearest with
    ties to even. *)
Module B64.

Definition prec : Z := 53.
Definition emax : Z := 1024.

Definition double : Type := spec_float.

(** The quotient of two positive integers, rounded once. *)
Definition quotient (s : bool) (n d : positive) : double :=
  let '(mz, ez, lz) := SFdiv_core_binary prec emax (Zpos n) 0 (Zpos d) 0 in
  binary_round_aux prec emax s mz ez lz.

(** The double a rational number stands for, the nearest one: the double
    itself when the rational is one, and for [n / 100] the quotient
    [n / 100.0] as the code computes it. *)
Definition ofQ (q : Q) : double :=
  match Qnum q with
  | Z0 => S754_zero false
  | Zpos n => quotient false n (Qden q)
  | Zneg n => quotient true n (Qden q)
  end.

Definition ofZ (z : Z) : double := binary_normalize prec emax z 0 false.

Definition div : double -> double -> double := SFdiv prec emax.
Definition sub : double -> double -> double := SFsub prec emax.
Definition abs : double -> double := SFabs.
Definition ltb : double -> double -> bool := SFltb.
Definition leb : double -> double -> bool := SFleb.

(** The exact value of a double that is a number. *)
Definition toQ (d : double) : Q :=
  match d with
  | S754_finite s m e =>
    let v := cond_Zopp s (Zpos m) in
    if 0 <=? e then inject_Z (v * 2 ^ e) else v # (2 ^ Z.to_pos (- e))
  | _ => 0
  end.

(** [Math.round] of a double that is not NaN, as an integer; an infinity
    is kept as an integer beyond every double, so that [Math.min] and
    [Math.max] against a number treat it as they treat the infinity.
    ([Math.round(NaN)] is NaN; a NaN is no value of [ofQ].) *)
Definition mathRound (d : double) : Z :=
  match d with
  | S754_infinity s => cond_Zopp s (2 ^ emax)
  | _ => round (toQ d)
  end.

End B64.

(** An entry of the power table. [powerDbm] is given by its exact value
    [powerValue / 100]; the double the code holds for it is [storedDbm]
    below. *)
Record PowerEntry : Type := { index : Z; powerDbm : Q }.

Record Tag : Type := {
  epc : option string;
  antenna : option Z;
  rssi : option Z;
  timestamp : option Z;
  seenCount : option Z
}.

(** [CONFIG]: the fields the protocol engine reads. A power setting is a
    finite number, given by its exact value. *)
Record Config : Type := {
  antennas : list Z;
  antennaPowerDbm : gmap Z Q;
  reconnectInterval : Z;
  enableReconnect : bool
}.

(** The fields of an [LLRPReader] instance; [socket] and [reconnectTimer]
    record whether the reference is set. *)
Record Reader : Type := {
  socket : bool;
  messageId : Z;
  buffer : Buffer;
  connected : bool;
  shouldReconnect : bool;
  reconnectTimer : bool;
  isShuttingDown : bool;
  configStarted : bool;
  rospecStarted : bool;
  powerTable : list PowerEntry;
  antennaPowerIndex : gmap Z Z;
  hopTableIds : list Z;
  hopTableId : Z
}.

Inductive Event : Type :=
| EvConnected
| EvDisconnect
| EvReady
| EvTag (t : Tag).

Inductive Timer : Type :=
| TimerReconnect
| TimerCapabilities
| TimerStuckDetector
| TimerDestroy.

Inductive Effect : Type :=
| SocketWrite (bytes : Buffer)
| SocketDestroy
| Emit (e : Event)
| SetTimeout (t : Timer) (ms : Z)
| ClearTimeout.

(** A call on the reader: the new state and the effects it caused. *)
Definition Step : Type := result (Reader * list Effect).

Definition andThen (r : Step) (k : Reader -> Step) : Step :=
  let! p := r in
  let! q := k (fst p) in
  Ok (fst q, snd p ++ snd q).

Definition newReader (config : Config) : Reader :=
  {| socket := false; messageId := 1; buffer := []; connected := false;
     shouldReconnect := enableReconnect config; reconnectTimer := false;
     isShuttingDown := false; configStarted := false; rospecStarted := false;
     powerTable := []; antennaPowerIndex := ∅; hopTableIds := [];
     hopTableId := 1 |}.

Definition set_messageId (v : Z) (r : Reader) : Reader :=
  {| socket := socket r; messageId := v; buffer := buffer r;
     connected := connected r; shouldReconnect := shouldReconnect r;
     reconnectTimer := reconnectTimer r; isShuttingDown := isShuttingDown r;
     configStarted := configStarted r; rospecStarted := rospecStarted r;
     powerTable := powerTable r; antennaPowerIndex := antennaPowerIndex r;
     hopTableIds := hopTableIds r; hopTableId := hopTableId r |}.

Definition set_buffer (v : Buffer) (r : Reader) : Reader :=
  {| socket := socket r; messageId := messageId r; buffer := v;
     connected := connected r; shouldReconnect := shouldReconnect r;
     reconnectTimer := reconnectTimer r; isShuttingDown := isShuttingDown r;
     configStarted := configStarted r; rospecStarted := rospecStarted r;
     powerTable := powerTable r; antennaPowerIndex := antennaPowerIndex r;
     hopTableIds := hopTableIds r; hopTableId := hopTableId r |}.

Definition set_configStarted (v : bool) (r : Reader) : Reader :=
  {| socket := socket r; messageId := messageId r; buffer := buffer r;
     connected := connected r; shouldReconnect := shouldReconnect r;
     reconnectTimer := reconnectTimer r; isShuttingDown := isShuttingDown r;
     configStarted := v; rospecStarted := rospecStarted r;
     powerTable := powerTable r; antennaPowerIndex := antennaPowerIndex r;
     hopTableIds := hopTableIds r; hopTableId := hopTableId r |}.

Definition set_rospecStarted (v : bool) (r : Reader) : Reader :=
  {| socket := socket r; messageId := messageId r; buffer := buffer r;
     connected := connected r; shouldReconnect := shouldReconnect r;
     reconnectTimer := reconnectTimer r; isShuttingDown := isShuttingDown r;
     configStarted := configStarted r; rospecStarted := v;
     powerTable := powerTable r; antennaPowerIndex := antennaPowerIndex r;
     hopTableIds := hopTableIds r; hopTableId := hopTableId r |}.

Definition set_powerTable (v : list PowerEntry) (r : Reader) : Reader :=
  {| socket := socket r; messageId := messageId r; buffer := buffer r;
     connected := connected r; shouldReconnect := shouldReconnect r;
     reconnectTimer := reconnectTimer r; isShuttingDown := isShuttingDown r;
     configStarted := configStarted r; rospecStarted := rospecStarted r;
     powerTable := v; antennaPowerIndex := antennaPowerIndex r;
     hopTableIds := hopTableIds r; hopTableId := hopTableId r |}.

Definition set_antennaPowerIndex (v : gmap Z Z) (r : Reader) : Reader :=
  {| socket := socket r; messageId := messageId r; buffer := buffer r;
     connected := connected r; shouldReconnect := shouldReconnect r;
     reconnectTimer := reconnectTimer r; isShuttingDown := isShuttingDown r;
     configStarted := configStarted r; rospecStarted := rospecStarted r;
     powerTable := powerTable r; antennaPowerIndex := v;
     hopTableIds := hopTableIds r; hopTableId := hopTableId r |}.

Definition set_hopTableIds (v : list Z) (r : Reader) : Reader :=
  {| socket := socket r; messageId := messageId r; buffer := buffer r;
     connected := connected r; shouldReconnect := shouldReconnect r;
     reconnectTimer := reconnectTimer r; isShuttingDown := isShuttingDown r;
     configStarted := configStarted r; rospecStarted := rospecStarted r;
     powerTable := powerTable r; antennaPowerIndex := antennaPowerIndex r;
     hopTableIds := v; hopTableId := hopTableId r |}.

Definition set_hopTableId (v : Z) (r : Reader) : Reader :=
  {| socket := socket r; messageId := messageId r; buffer := buffer r;
     connected := connected r; shouldReconnect := shouldReconnect r;
     reconnectTimer := reconnectTimer r; isShuttingDown := isShuttingDown r;
     configStarted := configStarted r; rospecStarted := rospecStarted r;
     powerTable := powerTable r; antennaPowerIndex := antennaPowerIndex r;
     hopTableIds := hopTableIds r; hopTableId := v |}.

(** ** Message and parameter type numbers *)

Module MSG.
Definition GET_READER_CAPABILITIES : Z := 1.
Definition GET_READER_CAPABILITIES_RESPONSE : Z := 11.
Definition ENABLE_EVENTS_AND_REPORTS : Z := 64.
Definition ENABLE_EVENTS_AND_REPORTS_RESPONSE : Z := 12.
Definition ADD_ROSPEC : Z := 20.
Definition ADD_ROSPEC_RESPONSE : Z := 30.
Definition DELETE_ROSPEC : Z := 21.
Definition DELETE_ROSPEC_RESPONSE : Z := 31.
Definition START_ROSPEC : Z := 22.
Definition START_ROSPEC_RESPONSE : Z := 32.
Definition ENABLE_ROSPEC : Z := 24.
Definition ENABLE_ROSPEC_RESPONSE : Z := 34.
Definition SET_READER_CONFIG_RESPONSE : Z := 13.
Definition READER_EVENT_NOTIFICATION : Z := 63.
Definition RO_ACCESS_REPORT : Z := 61.
Definition KEEPALIVE : Z := 62.
Definition KEEPALIVE_ACK : Z := 72.
Definition CLOSE_CONNECTION : Z := 14.
Definition ERROR_MESSAGE : Z := 100.
End MSG.

Module PARAM.
Definition REGULATORY_CAPABILITIES : Z := 143.
Definition TRANSMIT_POWER_LEVEL_TABLE_ENTRY : Z := 145.
Definition FREQUENCY_HOP_TABLE : Z := 147.
End PARAM.

(** ** Frame codec *)

(** The bytes [sendMessage] hands to [socket.write]: the 10-byte header
    followed by the payload. *)
Definition frame (type msgId : Z) (payload : Buffer) : result Buffer :=
  let msgLen := 10 + len payload in
  let! b0 := writeUInt8 (Z.lor 4 (Z.land (Z.shiftr type 8) 3)) in
  let! b1 := writeUInt8 (Z.land type 255) in
  let! l := writeUInt32BE msgLen in
  let! i := writeUInt32BE msgId in
  Ok (b0 ++ b1 ++ l ++ i ++ payload).

Definition sendMessage (type : Z) (payload : Buffer) (r : Reader) : Step :=
  if negb (socket r) || negb (connected r) then Ok (r, [])
  else
    let! bytes := frame type (messageId r) payload in
    Ok (set_messageId (messageId r + 1) r, [SocketWrite bytes]).

(** The framing routine of the minimal script, which writes header byte 0
    as [(0x01 << 2) | ((type >> 8) & 0x03)]. *)
Module Minimal.
Definition frame (type msgId : Z) (payload : Buffer) : result Buffer :=
  let! b0 := writeUInt8 (Z.lor (Z.shiftl 1 2) (Z.land (Z.shiftr type 8) 3)) in
  let! b1 := writeUInt8 (Z.land type 255) in
  let! l := writeUInt32BE (10 + len payload) in
  let! i := writeUInt32BE msgId in
  Ok (b0 ++ b1 ++ l ++ i ++ payload).
End Minimal.

(** The head of the receive loop in [handleData]: the next complete
    message and the bytes left in the buffer, or [None] when the loop
    stops. *)
Definition nextFrame (buf : Buffer) : option (Buffer * Buffer) :=
  if len buf >=? 10 then
    let msgLength := u32 buf 2 in
    if len buf <? msgLength then None
    else Some (slice buf 0 msgLength, sliceFrom buf msgLength)
  else None.

(** [((data[0] & 0x03) << 8) | data[1]] *)
Definition msgType (data : Buffer) : Z :=
  Z.lor (Z.shiftl (Z.land (byte data 0) 3) 8) (byte data 1).

(** ** Parameter walks *)

(** The head of every top-level TLV loop:
    [while (offset + 4 <= data.length)], the masked type, the length, and
    the [break] on a zero or overrunning length. The two reads are in
    range by the loop guard. *)
Definition tlvHeader (data : Buffer) (offset : Z) : option (Z * Z) :=
  if offset + 4 <=? len data then
    let paramType := Z.land (u16 data offset) 1023 in
    let paramLen := u16 data (offset + 2) in
    if (paramLen =? 0) || (paramLen >? len data - offset) then None
    else Some (paramType, paramLen)
  else None.

(** The loop itself, which the source writes out in [checkResponse],
    [parseCapabilities], [parseRegulatoryCapabilities],
    [parseUHFBandCapabilities] and [parseTagReport]: the body sees the
    parameter type, its length and its offset, and the loop then advances
    by [paramLen]. *)
Fixpoint tlvLoop {S : Type} (fuel : nat) (body : Z -> Z -> Z -> S -> result S)
    (data : Buffer) (offset : Z) (s : S) : result S :=
  match fuel with
  | O => Diverge
  | S f =>
    match tlvHeader data offset with
    | None => Ok s
    | Some (paramType, paramLen) =>
      let! s' := body paramType paramLen offset s in
      tlvLoop f body data (offset + paramLen) s'
    end
  end.

(** ** Response check *)

(** The inner loop of [checkResponse] over FieldError (288) and
    ParameterError (289): it only logs, but its reads can be out of range. *)
Fixpoint nestedErrors (fuel : nat) (data : Buffer)
    (nestedOffset limit paramLen : Z) : result unit :=
  match fuel with
  | O => Diverge
  | S f =>
    if nestedOffset + 4 <=? limit then
      let! t := readUInt16BE data nestedOffset in
      let nestedType := Z.land t 1023 in
      let! nestedLen := readUInt16BE data (nestedOffset + 2) in
      if (nestedLen =? 0) || (nestedLen >? paramLen) then Ok tt
      else
        let! _ := (if (nestedType =? 288) && (nestedLen >=? 8)
                   then let! _ := readUInt16BE data (nestedOffset + 4) in
                        let! _ := readUInt16BE data (nestedOffset + 6) in
                        Ok tt
                   else Ok tt) in
        let! _ := (if (nestedType =? 289) && (nestedLen >=? 8)
                   then let! _ := readUInt16BE data (nestedOffset + 4) in
                        let! _ := readUInt16BE data (nestedOffset + 6) in
                        Ok tt
                   else Ok tt) in
        nestedErrors f data (nestedOffset + nestedLen) limit paramLen
    else Ok tt
  end.

(** The body of the [paramType === 287] branch: the new value of
    [success]. *)
Definition checkStatusParam (data : Buffer) (offset paramLen : Z)
    (success : bool) : result bool :=
  let! statusCode := readUInt16BE data (offset + 4) in
  if statusCode =? 0 then Ok success
  else
    if paramLen >? 6 then
      let! descLen := readUInt16BE data (offset + 6) in
      let nestedOffset := offset + 8 + descLen in
      let! _ := nestedErrors (S (length data)) data nestedOffset
                  (offset + paramLen) paramLen in
      Ok false
    else Ok false.

Definition checkResponseBody (data : Buffer) (paramType paramLen offset : Z)
    (success : bool) : result bool :=
  if paramType =? 287 then checkStatusParam data offset paramLen success
  else Ok success.

Definition checkResponse (data : Buffer) : result bool :=
  tlvLoop (S (length data)) (checkResponseBody data) data 10 true.

(** [handleErrorMessage] only logs; what remains is whether its reads are
    in range. Its loop guard is [offset < data.length - 4]. *)
Fixpoint handleErrorLoop (fuel : nat) (data : Buffer) (offset : Z)
    : result unit :=
  match fuel with
  | O => Diverge
  | S f =>
    if offset <? len data - 4 then
      let paramType := Z.land (u16 data offset) 1023 in
      let paramLen := u16 data (offset + 2) in
      if (paramLen =? 0) || (paramLen >? len data - offset) then Ok tt
      else
        let! _ := (if paramType =? 287
                   then let! _ := readUInt16BE data (offset + 4) in
                        let! _ := readUInt16BE data (offset + 6) in
                        Ok tt
                   else Ok tt) in
        let! _ := (if (paramType =? 288) || (paramType =? 289)
                   then let! _ := readUInt16BE data (offset + 4) in
                        let! _ := readUInt16BE data (offset + 6) in
                        Ok tt
                   else Ok tt) in
        handleErrorLoop f data (offset + paramLen)
    else Ok tt
  end.

Definition handleErrorMessage (data : Buffer) : result unit :=
  handleErrorLoop (S (length data)) data 10.

(** ** Capabilities parser *)

(** [Array.prototype.sort((a, b) => a.powerDbm - b.powerDbm)]: a stable
    sort, ascending by [powerDbm]. *)
Fixpoint insertByPower (e : PowerEntry) (l : list PowerEntry) : list PowerEntry :=
  match l with
  | [] => [e]
  | h :: t => if Qle_bool (powerDbm e) (powerDbm h) then e :: h :: t
              else h :: insertByPower e t
  end.

Fixpoint sortByPower (l : list PowerEntry) : list PowerEntry :=
  match l with
  | [] => []
  | h :: t => insertByPower h (sortByPower t)
  end.

(** The loop body of [parseUHFBandCapabilities]; the reads at [offset + 4]
    and [offset + 6] lie inside the parameter by the length guards. *)
Definition uhfBody (data : Buffer) (paramType paramLen offset : Z)
    (r : Reader) : result Reader :=
  if paramType =? PARAM.TRANSMIT_POWER_LEVEL_TABLE_ENTRY then
    if paramLen >=? 8 then
      let index := u16 data (offset + 4) in
      let powerValue := s16 data (offset + 6) in
      let powerDbm := (inject_Z powerValue / 100)%Q in
      Ok (set_powerTable
            (powerTable r ++ [{| index := index; powerDbm := powerDbm |}]) r)
    else Ok r
  else if paramType =? PARAM.FREQUENCY_HOP_TABLE then
    if paramLen >=? 6 then
      let hopTableId := u16 data (offset + 4) in
      if hopTableId >? 0
      then Ok (set_hopTableIds (hopTableIds r ++ [hopTableId]) r)
      else Ok r
    else Ok r
  else Ok r.

Definition parseUHFBandCapabilities (data : Buffer) (r : Reader)
    : result Reader :=
  let! r1 := tlvLoop (S (length data)) (uhfBody data) data 4 r in
  Ok (set_powerTable (sortByPower (powerTable r1)) r1).

Definition regulatoryBody (data : Buffer) (paramType paramLen offset : Z)
    (r : Reader) : result Reader :=
  if paramType =? 144
  then parseUHFBandCapabilities (slice data offset (offset + paramLen)) r
  else Ok r.

Definition parseRegulatoryCapabilities (data : Buffer) (r : Reader)
    : result Reader :=
  if 4 + 4 >? len data then Ok r
  else tlvLoop (S (length data)) (regulatoryBody data) data 8 r.

Definition capabilitiesBody (data : Buffer) (paramType paramLen offset : Z)
    (r : Reader) : result Reader :=
  if paramType =? PARAM.REGULATORY_CAPABILITIES
  then parseRegulatoryCapabilities (slice data offset (offset + paramLen)) r
  else Ok r.

(** The leading LLRPStatus of a capabilities response: [None] for a
    non-zero status code, otherwise the offset at which the walk starts. *)
Definition capabilitiesStatus (data : Buffer) : result (option Z) :=
  if 10 + 4 <=? len data then
    let statusType := Z.land (u16 data 10) 1023 in
    if statusType =? 287 then
      let statusLen := u16 data (10 + 2) in
      let! statusCode := readUInt16BE data (10 + 4) in
      if statusCode =? 0 then Ok (Some (10 + statusLen)) else Ok None
    else Ok (Some 10)
  else Ok (Some 10).

(** The end of [parseCapabilities]: the first hop-table id found, or 1. *)
Definition selectHopTableId (r : Reader) : Reader :=
  match hopTableIds r with
  | first :: _ => set_hopTableId first r
  | [] => set_hopTableId 1 r
  end.

Definition parseCapabilities (data : Buffer) (r : Reader)
    : result (bool * Reader) :=
  let! start := capabilitiesStatus data in
  match start with
  | None => Ok (false, r)
  | Some offset =>
    let! r1 := tlvLoop (S (length data)) (capabilitiesBody data) data offset r in
    Ok (true, selectHopTableId r1)
  end.

(** ** Power-index selection *)

(** The double stored in [entry.powerDbm]: [powerValue / 100.0]. *)
Definition storedDbm (entry : PowerEntry) : B64.double :=
  B64.ofQ (powerDbm entry).

(** One turn of the [for] loop of [findClosestPowerIndex]:
    [const diff = Math.abs(entry.powerDbm - desiredDbm);
     if (diff < minDiff) { minDiff = diff; closest = entry; }],
    a subtraction and a comparison of doubles. *)
Definition closer (desiredDbm : B64.double) (acc : PowerEntry * B64.double)
    (entry : PowerEntry) : PowerEntry * B64.double :=
  let diff := B64.abs (B64.sub (storedDbm entry) desiredDbm) in
  if B64.ltb diff (snd acc) then (entry, diff) else acc.

Definition findClosestPowerIndex (table : list PowerEntry) (desiredDbm : Q) : Z :=
  let desired := B64.ofQ desiredDbm in
  match table with
  | [] => Z.min (Z.max 1 (B64.mathRound desired)) 100
  | first :: _ =>
    let minDiff := B64.abs (B64.sub (storedDbm first) desired) in
    index (fst (fold_left (closer desired) table (first, minDiff)))
  end.

(** [this.config.antennaPowerDbm[ant] || 30] *)
Definition desiredDbmOf (config : Config) (ant : Z) : Q :=
  match antennaPowerDbm config !! ant with
  | Some d => if Qeq_bool d 0 then 30%Q else d
  | None => 30%Q
  end.

Definition computePowerIndices (config : Config) (r : Reader) : Reader :=
  fold_left
    (fun r' ant =>
       let index := findClosestPowerIndex (powerTable r') (desiredDbmOf config ant) in
       set_antennaPowerIndex (<[ant := index]> (antennaPowerIndex r')) r')
    (antennas config) r.

(** ** ROSpec builder *)

(** [tlv(type, valueBuf)]: type and length as two big-endian 16-bit
    fields, then the value. *)
Definition tlv (type : Z) (valueBuf : Buffer) : result Buffer :=
  let! t := writeUInt16BE type in
  let! l := writeUInt16BE (4 + len valueBuf) in
  Ok (t ++ l ++ valueBuf).

(** [stopTriggerTLV]: always one byte of trigger type and four of duration. *)
Definition stopTriggerTLV (typeNum triggerType durationMs : Z) : result Buffer :=
  let! t := writeUInt8 (Z.land triggerType 255) in
  let! d := writeUInt32BE (durationMs mod 4294967296) in
  tlv typeNum (t ++ d).

Definition rfTransmitter (hopTableId powerIndex : Z) : result Buffer :=
  let! h := writeUInt16BE hopTableId in
  let! c := writeUInt16BE 0 in
  let! p := writeUInt16BE powerIndex in
  tlv 224 (h ++ c ++ p).

(** [this.antennaPowerIndex[antennaId] ?? (last table index, or 1)] *)
Definition powerIndexFor (r : Reader) (antennaId : Z) : Z :=
  match antennaPowerIndex r !! antennaId with
  | Some i => i
  | None => match last (powerTable r) with
            | Some e => index e
            | None => 1
            end
  end.

(** AntennaConfiguration (222): the antenna id and an RFTransmitter, and
    nothing else (the source's [c1g2InventoryCommand] helper is never
    called). *)
Definition antennaConfiguration (r : Reader) (antennaId : Z) : result Buffer :=
  let! antId := writeUInt16BE antennaId in
  let! rfTx := rfTransmitter (hopTableId r) (powerIndexFor r antennaId) in
  tlv 222 (antId ++ rfTx).

(** [Buffer.concat(xs.map(f))] for an [f] that can raise. *)
Fixpoint concatMap (f : Z -> result Buffer) (xs : list Z) : result Buffer :=
  match xs with
  | [] => Ok []
  | x :: rest =>
    let! b := f x in
    let! bs := concatMap f rest in
    Ok (b ++ bs)
  end.

Definition inventoryParameterSpecWithAntennas (r : Reader) (antennaIds : list Z)
    : result Buffer :=
  let! specId := writeUInt16BE 1 in
  let! proto := writeUInt8 1 in
  let! antConfs := concatMap (antennaConfiguration r) antennaIds in
  tlv 186 (specId ++ proto ++ antConfs).

Definition buildROSpec (config : Config) (r : Reader) : result Buffer :=
  let! rospecId := writeUInt32BE 1 in
  let! priority := writeUInt8 0 in
  let! state := writeUInt8 0 in
  let rospecHeaderFields := rospecId ++ priority ++ state in
  let! roStartTrigger := tlv 179 [0] in
  let! roStopTrigger := stopTriggerTLV 182 0 0 in
  let! roBoundary := tlv 178 (roStartTrigger ++ roStopTrigger) in
  let! antennaCount := writeUInt16BE (len (antennas config)) in
  let! antennaIdList := concatMap writeUInt16BE (antennas config) in
  let fullAntennaList := antennaCount ++ antennaIdList in
  let! aiStopTrigger := stopTriggerTLV 184 0 0 in
  let! invParamSpec := inventoryParameterSpecWithAntennas r (antennas config) in
  let! aiSpec := tlv 183 (fullAntennaList ++ aiStopTrigger ++ invParamSpec) in
  let trcsMask := [0; 0] in
  let! tagReportContentSelector := tlv 238 trcsMask in
  let! trigger := writeUInt8 1 in
  let! n := writeUInt16BE 1 in
  let roReportFields := trigger ++ n in
  let! roReportSpec := tlv 237 (roReportFields ++ tagReportContentSelector) in
  tlv 177 (rospecHeaderFields ++ roBoundary ++ aiSpec ++ roReportSpec).

(** ** Outbound messages *)

Definition sendGetReaderCapabilities (r : Reader) : Step :=
  sendMessage MSG.GET_READER_CAPABILITIES [0] r.

Definition sendDeleteROSpec (r : Reader) : Step :=
  let! payload := writeUInt32BE 0 in
  sendMessage MSG.DELETE_ROSPEC payload r.

Definition sendAddROSpec (config : Config) (r : Reader) : Step :=
  let! rospec := buildROSpec config r in
  sendMessage MSG.ADD_ROSPEC rospec r.

Definition sendEnableROSpec (r : Reader) : Step :=
  let! payload := writeUInt32BE 1 in
  sendMessage MSG.ENABLE_ROSPEC payload r.

Definition sendStartROSpec (r : Reader) : Step :=
  let! payload := writeUInt32BE 1 in
  sendMessage MSG.START_ROSPEC payload r.

Definition sendKeepaliveAck (r : Reader) : Step :=
  sendMessage MSG.KEEPALIVE_ACK [] r.

Definition sendCloseConnection (r : Reader) : Step :=
  sendMessage MSG.CLOSE_CONNECTION [] r.

(** ** Tag-report parser *)

Definition emptyTag : Tag :=
  {| epc := None; antenna := None; rssi := None; timestamp := None;
     seenCount := None |}.

Definition set_epc (v : option string) (t : Tag) : Tag :=
  {| epc := v; antenna := antenna t; rssi := rssi t;
     timestamp := timestamp t; seenCount := seenCount t |}.

Definition set_antenna (v : option Z) (t : Tag) : Tag :=
  {| epc := epc t; antenna := v; rssi := rssi t;
     timestamp := timestamp t; seenCount := seenCount t |}.

Definition set_rssi (v : option Z) (t : Tag) : Tag :=
  {| epc := epc t; antenna := antenna t; rssi := v;
     timestamp := timestamp t; seenCount := seenCount t |}.

Definition set_timestamp (v : option Z) (t : Tag) : Tag :=
  {| epc := epc t; antenna := antenna t; rssi := rssi t;
     timestamp := v; seenCount := seenCount t |}.

Definition set_seenCount (v : option Z) (t : Tag) : Tag :=
  {| epc := epc t; antenna := antenna t; rssi := rssi t;
     timestamp := timestamp t; seenCount := v |}.

Definition msbSet (data : Buffer) (i : Z) : bool :=
  negb (Z.land (byte data i) 128 =? 0).

(** [for (let j = from; j <= bound && offset + j < data.length; j++)
      if (data[offset + j] & 0x80) ...]: the first such [j], with [n]
    values of [j] left to try. *)
Fixpoint scanMsb (n : nat) (data : Buffer) (offset j : Z) : option Z :=
  match n with
  | O => None
  | S n' =>
    if offset + j <? len data then
      if msbSet data (offset + j) then Some j
      else scanMsb n' data offset (j + 1)
    else None
  end.

(** One turn of the [while] loop of [parseTagReportData]: either the loop
    goes on with a new tag and offset, or it is left ([break] and
    [return tag] both end in [return tag]). *)
Inductive TagStep : Type :=
| Next (tag : Tag) (offset : Z)
| Stop (tag : Tag).

Definition tvStep (data : Buffer) (tag : Tag) (offset : Z) : TagStep :=
  let tvType := Z.land (byte data offset) 127 in
  if tvType =? 1 then
    Next (if offset + 3 <=? len data
          then set_antenna (Some (u16 data (offset + 1))) tag else tag)
         (offset + 3)
  else if tvType =? 6 then
    Next (if offset + 2 <=? len data
          then set_rssi (Some (s8 data (offset + 1))) tag else tag)
         (offset + 2)
  else if tvType =? 7 then Next tag (offset + 3)
  else if tvType =? 8 then Next tag (offset + 9)
  else if tvType =? 9 then
    Next (if offset + 9 <=? len data
          then set_timestamp (Some (u64 data (offset + 1))) tag
          else tag)
         (offset + 9)
  else if tvType =? 10 then
    Next (if offset + 3 <=? len data
          then set_seenCount (Some (u16 data (offset + 1))) tag else tag)
         (offset + 3)
  else if tvType =? 13 then
    Next (if offset + 13 <=? len data
          then set_epc (Some (hexUpper (slice data (offset + 1) (offset + 13)))) tag
          else tag)
         (offset + 13)
  else if tvType =? 14 then Next tag (offset + 5)
  else if tvType =? 15 then Next tag (offset + 3)
  else if tvType =? 16 then Next tag (offset + 3)
  else
    match scanMsb 16 data offset 1 with
    | Some j => Next tag (offset + j)
    | None => Stop tag
    end.

Definition tlvStep (data : Buffer) (tag : Tag) (offset : Z) : TagStep :=
  if offset + 3 >=? len data then Stop tag
  else
    let tlvType := Z.land (u16 data offset) 1023 in
    let tlvLen := u16 data (offset + 2) in
    if (tlvLen =? 0) || (offset + tlvLen >? len data) then
      match scanMsb 4 data offset 1 with
      | Some skip => Next tag (offset + skip)
      | None => Stop tag
      end
    else
      let tag' :=
        if tlvType =? 241 then
          if offset + 5 <? len data then
            let epcBitLen := u16 data (offset + 4) in
            let epcLen := epcBitLen / 8 in
            if offset + 6 + epcLen <=? len data
            then set_epc (Some (hexUpper
                   (slice data (offset + 6) (offset + 6 + epcLen)))) tag
            else tag
          else tag
        else if tlvType =? 13 then
          if offset + 4 + 12 <=? len data
          then set_epc (Some (hexUpper
                 (slice data (offset + 4) (offset + 4 + 12)))) tag
          else tag
        else tag in
      Next tag' (offset + tlvLen).

Definition tagStep (data : Buffer) (tag : Tag) (offset : Z) : TagStep :=
  if msbSet data offset then tvStep data tag offset
  else tlvStep data tag offset.

Fixpoint tagLoop (fuel : nat) (data : Buffer) (tag : Tag) (offset : Z)
    : result Tag :=
  match fuel with
  | O => Diverge
  | S f =>
    if offset <? len data then
      match tagStep data tag offset with
      | Next tag' offset' => tagLoop f data tag' offset'
      | Stop tag' => Ok tag'
      end
    else Ok tag
  end.

Definition parseTagReportData (data : Buffer) : result Tag :=
  tagLoop (S (length data)) data emptyTag 0.

(** [!tag.epc]: [null] and the empty string are both falsy. *)
Definition epcMissing (t : Tag) : bool :=
  match epc t with
  | None => true
  | Some EmptyString => true
  | Some _ => false
  end.

(** [!tag.antenna]: [null] and 0 are both falsy. *)
Definition antennaMissing (t : Tag) : bool :=
  match antenna t with
  | None => true
  | Some a => a =? 0
  end.

(** What [parseTagReport] does with one decoded record: nothing for a
    record without EPC, else the emitted tag, with the sole configured
    antenna filled in when the record has none. *)
Definition reportTag (config : Config) (tag : Tag) : list Effect :=
  if epcMissing tag then []
  else
    let tag' := if antennaMissing tag && (len (antennas config) =? 1)
                then set_antenna (head (antennas config)) tag
                else tag in
    [Emit (EvTag tag')].

Definition tagReportBody (config : Config) (data : Buffer)
    (paramType paramLen offset : Z) (out : list Effect) : result (list Effect) :=
  if paramType =? 240 then
    let tagData := slice data (offset + 4) (offset + paramLen) in
    let! tag := parseTagReportData tagData in
    Ok (out ++ reportTag config tag)
  else Ok out.

Definition parseTagReport (config : Config) (data : Buffer) (r : Reader) : Step :=
  if negb (rospecStarted r) then Ok (r, [])
  else
    let! out := tlvLoop (S (length data)) (tagReportBody config data) data 10 [] in
    Ok (r, out).

(** ** Message dispatcher and receive loop *)

Definition processMessage (config : Config) (data : Buffer) (r : Reader) : Step :=
  let t := msgType data in
  if t =? MSG.ENABLE_EVENTS_AND_REPORTS_RESPONSE then Ok (r, [])
  else if t =? MSG.READER_EVENT_NOTIFICATION then
    Ok (if configStarted r then r else set_configStarted true r, [])
  else if t =? MSG.GET_READER_CAPABILITIES_RESPONSE then
    let! p := parseCapabilities data r in
    if fst p then sendDeleteROSpec (computePowerIndices config (snd p))
    else Ok (snd p, [])
  else if t =? MSG.ERROR_MESSAGE then
    let! _ := handleErrorMessage data in Ok (r, [])
  else if t =? MSG.SET_READER_CONFIG_RESPONSE then
    let! _ := checkResponse data in sendDeleteROSpec r
  else if t =? MSG.DELETE_ROSPEC_RESPONSE then
    let! _ := checkResponse data in sendAddROSpec config r
  else if t =? MSG.ADD_ROSPEC_RESPONSE then
    let! _ := checkResponse data in sendEnableROSpec r
  else if t =? MSG.ENABLE_ROSPEC_RESPONSE then
    let! _ := checkResponse data in sendStartROSpec r
  else if t =? MSG.START_ROSPEC_RESPONSE then
    let! ok := checkResponse data in
    if ok then Ok (set_rospecStarted true r, [Emit EvReady]) else Ok (r, [])
  else if t =? MSG.RO_ACCESS_REPORT then parseTagReport config data r
  else if t =? MSG.KEEPALIVE then sendKeepaliveAck r
  else Ok (r, []).

(** The [while (this.buffer.length >= 10)] loop of [handleData]. *)
Fixpoint receiveLoop (fuel : nat) (config : Config) (r : Reader) : Step :=
  match fuel with
  | O => Diverge
  | S f =>
    match nextFrame (buffer r) with
    | None => Ok (r, [])
    | Some (message, rest) =>
      andThen (processMessage config message (set_buffer rest r))
              (receiveLoop f config)
    end
  end.

Definition handleData (fuel : nat) (config : Config) (data : Buffer)
    (r : Reader) : Step :=
  receiveLoop fuel config (set_buffer (buffer r ++ data) r).

(** A sequence of complete messages handed to the dispatcher one after
    the other. *)
Fixpoint processAll (config : Config) (msgs : list Buffer) (r : Reader) : Step :=
  match msgs with
  | [] => Ok (r, [])
  | m :: rest => andThen (processMessage config m r) (processAll config rest)
  end.

(** ** Connection lifecycle *)

Definition set_socket (v : bool) (r : Reader) : Reader :=
  {| socket := v; messageId := messageId r; buffer := buffer r;
     connected := connected r; shouldReconnect := shouldReconnect r;
     reconnectTimer := reconnectTimer r; isShuttingDown := isShuttingDown r;
     configStarted := configStarted r; rospecStarted := rospecStarted r;
     powerTable := powerTable r; antennaPowerIndex := antennaPowerIndex r;
     hopTableIds := hopTableIds r; hopTableId := hopTableId r |}.

Definition set_connected (v : bool) (r : Reader) : Reader :=
  {| socket := socket r; messageId := messageId r; buffer := buffer r;
     connected := v; shouldReconnect := shouldReconnect r;
     reconnectTimer := reconnectTimer r; isShuttingDown := isShuttingDown r;
     configStarted := configStarted r; rospecStarted := rospecStarted r;
     powerTable := powerTable r; antennaPowerIndex := antennaPowerIndex r;
     hopTableIds := hopTableIds r; hopTableId := hopTableId r |}.

Definition set_reconnectTimer (v : bool) (r : Reader) : Reader :=
  {| socket := socket r; messageId := messageId r; buffer := buffer r;
     connected := connected r; shouldReconnect := shouldReconnect r;
     reconnectTimer := v; isShuttingDown := isShuttingDown r;
     configStarted := configStarted r; rospecStarted := rospecStarted r;
     powerTable := powerTable r; antennaPowerIndex := antennaPowerIndex r;
     hopTableIds := hopTableIds r; hopTableId := hopTableId r |}.

Definition set_shouldReconnect (v : bool) (r : Reader) : Reader :=
  {| socket := socket r; messageId := messageId r; buffer := buffer r;
     connected := connected r; shouldReconnect := v;
     reconnectTimer := reconnectTimer r; isShuttingDown := isShuttingDown r;
     configStarted := configStarted r; rospecStarted := rospecStarted r;
     powerTable := powerTable r; antennaPowerIndex := antennaPowerIndex r;
     hopTableIds := hopTableIds r; hopTableId := hopTableId r |}.

Definition set_isShuttingDown (v : bool) (r : Reader) : Reader :=
  {| socket := socket r; messageId := messageId r; buffer := buffer r;
     connected := connected r; shouldReconnect := shouldReconnect r;
     reconnectTimer := reconnectTimer r; isShuttingDown := v;
     configStarted := configStarted r; rospecStarted := rospecStarted r;
     powerTable := powerTable r; antennaPowerIndex := antennaPowerIndex r;
     hopTableIds := hopTableIds r; hopTableId := hopTableId r |}.

(** [connect]: a new socket, unless shutting down. *)
Definition connect (r : Reader) : Reader :=
  if isShuttingDown r then r else set_socket true r.

(** The callback of [socket.connect]: the reader is connected,
    ENABLE_EVENTS_AND_REPORTS is sent, and two timers are armed, the one
    that asks for the capabilities after 100 ms and the stuck detector
    that only logs a warning after 2000 ms. (The idle timeout of the
    socket, [socket.setTimeout], is a setting of the socket and no entry
    of the trace.) *)
Definition onConnect (r : Reader) : Step :=
  andThen (Ok (set_connected true r, [Emit EvConnected]))
    (fun r1 => andThen (sendMessage MSG.ENABLE_EVENTS_AND_REPORTS [] r1)
       (fun r2 => Ok (r2, [SetTimeout TimerCapabilities 100;
                           SetTimeout TimerStuckDetector 2000]))).

Definition scheduleReconnect (config : Config) (r : Reader)
    : Reader * list Effect :=
  if negb (shouldReconnect r) || isShuttingDown r then (r, [])
  else (set_reconnectTimer true r,
        (if reconnectTimer r then [ClearTimeout] else [])
        ++ [SetTimeout TimerReconnect (reconnectInterval config)]).

(** The callback of the reconnect timer: the session state is reset and
    [connect] is called again. *)
Definition onReconnectTimer (r : Reader) : Reader :=
  connect (set_hopTableId 1 (set_hopTableIds [] (set_antennaPowerIndex ∅
    (set_powerTable [] (set_buffer [] (set_messageId 1
      (set_rospecStarted false (set_configStarted false r)))))))).

(** The socket's [close] handler: the only place from which a reconnect
    is scheduled. *)
Definition onClose (config : Config) (r : Reader) : Reader * list Effect :=
  let r1 := set_connected false r in
  if isShuttingDown r1 then (r1, [])
  else let p := scheduleReconnect config r1 in
       (fst p, Emit EvDisconnect :: snd p).

(** The socket's [timeout] handler destroys the socket, which in turn
    raises [close]. *)
Definition onTimeout (r : Reader) : Reader * list Effect := (r, [SocketDestroy]).

(** [disconnect]: no reconnect any more, CLOSE_CONNECTION if connected,
    and the socket destroyed 500 ms later. *)
Definition disconnect (r : Reader) : Step :=
  let r1 := set_shouldReconnect false (set_isShuttingDown true r) in
  let r2 := if reconnectTimer r1 then set_reconnectTimer false r1 else r1 in
  let cleared := if reconnectTimer r1 then [ClearTimeout] else [] in
  if socket r2 then
    andThen (Ok (r2, cleared))
      (fun r3 => andThen (if connected r3 then sendCloseConnection r3
                          else Ok (r3, []))
         (fun r4 => Ok (r4, [SetTimeout TimerDestroy 500])))
  else Ok (r2, cleared).

(** ** Notions used to state the properties *)

(** A list of numbers is a buffer when every element is a byte. *)
Definition isBuffer (b : list Z) : bool :=
  forallb (fun x => (0 <=? x) && (x <? 256)) b.

(** The parameters a top-level walk visits from [offset] on, as
    (type, length, offset), in the order of the walk. *)
Fixpoint tlvParams (fuel : nat) (data : Buffer) (offset : Z)
    : list (Z * Z * Z) :=
  match fuel with
  | O => []
  | S f =>
    match tlvHeader data offset with
    | None => []
    | Some (paramType, paramLen) =>
      (paramType, paramLen, offset) :: tlvParams f data (offset + paramLen)
    end
  end.

Definition paramsFrom (data : Buffer) (offset : Z) : list (Z * Z * Z) :=
  tlvParams (S (length data)) data offset.

(** The parameters of a message, after its 10-byte header. *)
Definition topLevelParams (data : Buffer) : list (Z * Z * Z) :=
  paramsFrom data 10.

Fixpoint foldParams {S : Type} (body : Z -> Z -> Z -> S -> result S)
    (ps : list (Z * Z * Z)) (s : S) : result S :=
  match ps with
  | [] => Ok s
  | (t, l, o) :: rest => let! s' := body t l o s in foldParams body rest s'
  end.

(** The type of a parameter and its value, the bytes after its 4-byte
    header. *)
Definition valueOf (data : Buffer) (p : Z * Z * Z) : Z * Buffer :=
  (fst (fst p), slice data (snd p + 4) (snd p + snd (fst p))).

(** Types and values of the parameters found from [offset] on. *)
Definition paramValues (data : Buffer) (offset : Z) : list (Z * Buffer) :=
  map (valueOf data) (paramsFrom data offset).

(** A message carries a non-zero LLRPStatus when one of its top-level
    parameters has type 287 and a non-zero status code. *)
Definition carriesNonZeroStatus (data : Buffer) : Prop :=
  exists l o, In (287, l, o) (topLevelParams data) /\ u16 data (o + 4) <> 0.

(** The bodies of the TagReportData (240) parameters among [ps]. *)
Definition recordsOf (data : Buffer) (ps : list (Z * Z * Z)) : list Buffer :=
  map (fun p => slice data (snd p + 4) (snd p + snd (fst p)))
      (List.filter (fun p => fst (fst p) =? 240) ps).

(** The TagReportData records of a report. *)
Definition tagRecords (data : Buffer) : list Buffer :=
  recordsOf data (topLevelParams data).

Definition recordEffects (config : Config) (body : Buffer) : list Effect :=
  match parseTagReportData body with
  | Ok tag => reportTag config tag
  | _ => []
  end.

(** The TV types of the decoder's table. *)
Definition knownTV (t : Z) : bool :=
  existsb (Z.eqb t) [1; 6; 7; 8; 9; 10; 13; 14; 15; 16].

(** Effects that belong to a teardown or a reconnect. *)
Definition teardownEffect (e : Effect) : bool :=
  match e with
  | SocketDestroy => true
  | SetTimeout _ _ => true
  | ClearTimeout => true
  | Emit EvDisconnect => true
  | _ => false
  end.

(** The dispatcher left the connection as it was. *)
Definition sameConnection (r r' : Reader) : Prop :=
  socket r' = socket r /\ connected r' = connected r
  /\ shouldReconnect r' = shouldReconnect r
  /\ reconnectTimer r' = reconnectTimer r
  /\ isShuttingDown r' = isShuttingDown r.

(** The distance [Math.abs(entry.powerDbm - desiredDbm)] the selection
    minimises: the double that the subtraction of the two doubles gives,
    which is the exact distance rounded. *)
Definition distance (desiredDbm : Q) (entry : PowerEntry) : B64.double :=
  B64.abs (B64.sub (B64.ofQ (powerDbm entry)) (B64.ofQ desiredDbm)).

(** [r'] holds the tables of [r] with the power entries [E] added (in
    some order) and the hop-table ids [I] appended. *)
Definition appended (E : list PowerEntry) (I : list Z) (r r' : Reader) : Prop :=
  Permutation (powerTable r') (powerTable r ++ E)
  /\ hopTableIds r' = hopTableIds r ++ I.

(** A parsing step whose outcome does not depend on the tables it starts
    from: it always adds the same entries, or always fails the same way. *)
Definition uniform (f : Reader -> result Reader) : Prop :=
  (exists E I, forall r, exists r', f r = Ok r' /\ appended E I r r')
  \/ (forall r, f r = RangeError)
  \/ (forall r, f r = Diverge).

(** A 16-bit value as two big-endian bytes, a TLV parameter as its bytes,
    and a sequence of TLV parameters one after the other. *)
Definition be16 (v : Z) : Buffer := [Z.shiftr v 8; Z.land v 255].

Definition tlvBytes (t : Z) (v : Buffer) : Buffer :=
  be16 t ++ be16 (4 + len v) ++ v.

Fixpoint tlvSeq (items : list (Z * Buffer)) : Buffer :=
  match items with
  | [] => []
  | (t, v) :: rest => tlvBytes t v ++ tlvSeq rest
  end.

(** The layout of the ROSpec, parameter by parameter: the value of
    RFTransmitter (224), AntennaConfiguration (222),
    InventoryParameterSpec (186), AISpec (183), ROBoundarySpec (178),
    ROReportSpec (237) and of the ROSpec (177) itself. *)
Definition txValue (r : Reader) (a : Z) : Buffer :=
  be16 (hopTableId r) ++ [0; 0] ++ be16 (powerIndexFor r a).

Definition confValue (r : Reader) (a : Z) : Buffer :=
  be16 a ++ tlvSeq [(224, txValue r a)].

Definition invValue (r : Reader) (ants : list Z) : Buffer :=
  [0; 1; 1] ++ tlvSeq (map (fun a => (222, confValue r a)) ants).

Definition aiValue (r : Reader) (ants : list Z) : Buffer :=
  (be16 (len ants) ++ flat_map be16 ants)
  ++ tlvSeq [(184, [0; 0; 0; 0; 0]); (186, invValue r ants)].

Definition boundaryValue : Buffer :=
  tlvSeq [(179, [0]); (182, [0; 0; 0; 0; 0])].

Definition reportValue : Buffer := [1; 0; 1] ++ tlvSeq [(238, [0; 0])].

Definition rospecValue (r : Reader) (ants : list Z) : Buffer :=
  [0; 0; 0; 1; 0; 0]
  ++ tlvSeq [(178, boundaryValue); (183, aiValue r ants); (237, reportValue)].

(** A call that neither touches the connection nor takes back a started
    ROSpec, and causes no teardown effect. *)
Definition keeps (r r' : Reader) : Prop :=
  sameConnection r r' /\ (rospecStarted r = true -> rospecStarted r' = true).

Definition quiet (out : list Effect) : Prop :=
  forallb (fun e => negb (teardownEffect e)) out = true.

(** The least [j] in [from, from + n) with [offset + j] inside the record
    and the MSB of that byte set. *)
Definition firstMsbAt (n : Z) (data : Buffer) (offset j : Z) : Prop :=
  1 <= j <= n /\ offset + j < len data /\ msbSet data (offset + j) = true
  /\ forall i, 1 <= i < j -> msbSet data (offset + i) = false.

Definition noMsbWithin (n : Z) (data : Buffer) (offset : Z) : Prop :=
  forall j, 1 <= j <= n -> offset + j < len data ->
            msbSet data (offset + j) = false.

(** ** Notions for the further properties *)

(** A change of the reader applied to the outcome of a call. *)
Definition mapStep (g : Reader -> Reader) (s : Step) : Step :=
  match s with
  | Ok (r, out) => Ok (g r, out)
  | RangeError => RangeError
  | Diverge => Diverge
  end.

(** A complete frame: at least a header, and as long as it declares. *)
Definition completeFrame (m : Buffer) : Prop :=
  10 <= len m /\ u32 m 2 = len m.

(** No effect of the trace is a socket write. *)
Definition noWrite (out : list Effect) : Prop :=
  forallb (fun e => match e with SocketWrite _ => false | _ => true end) out
  = true.

(** The order in which the power table is kept. *)
Definition byPower (a b : PowerEntry) : Prop := (powerDbm a <= powerDbm b)%Q.

(** The tables hold values that fit the 16-bit fields they came from and
    go to: power indices, and hop-table ids other than 0. *)
Definition tablesFit (r : Reader) : Prop :=
  Forall (fun e => 0 <= index e <= 65535) (powerTable r)
  /\ Forall (fun h => 1 <= h <= 65535) (hopTableIds r).

(** The payload length of each TV parameter the tag decoder knows. *)
Definition tvPayloadLen (t : Z) : Z :=
  if t =? 6 then 1
  else if (t =? 8) || (t =? 9) then 8
  else if t =? 13 then 12
  else if t =? 14 then 4
  else 2.

(** A TV parameter on the wire: the type with the top bit set, then the
    payload. *)
Definition tvParam (t : Z) (payload : Buffer) : Buffer :=
  Z.lor 128 t :: payload.

Definition tvRecord (fields : list (Z * Buffer)) : Buffer :=
  flat_map (fun f => tvParam (fst f) (snd f)) fields.

(** The tag field a TV parameter stands for, read from its payload. *)
Definition tvField (tag : Tag) (f : Z * Buffer) : Tag :=
  let (t, payload) := f in
  if t =? 1 then set_antenna (Some (u16 payload 0)) tag
  else if t =? 6 then set_rssi (Some (s8 payload 0)) tag
  else if t =? 9 then set_timestamp (Some (u64 payload 0)) tag
  else if t =? 10 then set_seenCount (Some (u16 payload 0)) tag
  else if t =? 13 then set_epc (Some (hexUpper payload)) tag
  else tag.

Definition wellFormedTV (f : Z * Buffer) : Prop :=
  knownTV (fst f) = true /\ len (snd f) = tvPayloadLen (fst f).

(** ** The capability scan of the minimal test script *)

(** [if (maxIdx === null || idx > maxIdx) maxIdx = idx] *)
Definition raiseMax (maxIdx : option Z) (idx : Z) : option Z :=
  match maxIdx with
  | None => Some idx
  | Some m => if idx >? m then Some idx else maxIdx
  end.

(** The [while] loop of [parseMaxTxPowerIndex]: a walk over the top-level
    parameters that stops at a length below 4 or past the end, and looks
    at TransmitPowerLevelTableEntry (145) parameters only. *)
Fixpoint parseMaxLoop (fuel : nat) (llrpMsg : Buffer) (off : Z)
    (maxIdx : option Z) : result (option Z) :=
  match fuel with
  | O => Diverge
  | S f =>
    if off + 4 <=? len llrpMsg then
      let! t0 := readUInt16BE llrpMsg off in
      let t := Z.land t0 1023 in
      let! l := readUInt16BE llrpMsg (off + 2) in
      if (l <? 4) || (off + l >? len llrpMsg) then Ok maxIdx
      else
        let! maxIdx' :=
          (if (t =? 145) && (l >=? 8)
           then let! idx := readUInt16BE llrpMsg (off + 4) in
                Ok (raiseMax maxIdx idx)
           else Ok maxIdx) in
        parseMaxLoop f llrpMsg (off + l) maxIdx'
    else Ok maxIdx
  end.

Definition parseMaxTxPowerIndex (llrpMsg : Buffer) : result (option Z) :=
  parseMaxLoop (S (length llrpMsg)) llrpMsg 10 None.

(** The index fields of the top-level parameters of type 145 with at
    least 8 bytes, in the order of that walk. *)
Fixpoint entryIndicesFrom (fuel : nat) (data : Buffer) (off : Z) : list Z :=
  match fuel with
  | O => []
  | S f =>
    if off + 4 <=? len data then
      let t := Z.land (u16 data off) 1023 in
      let l := u16 data (off + 2) in
      if (l <? 4) || (off + l >? len data) then []
      else (if (t =? 145) && (l >=? 8) then [u16 data (off + 4)] else [])
           ++ entryIndicesFrom f data (off + l)
    else []
  end.

Definition entryIndices (data : Buffer) : list Z :=
  entryIndicesFrom (S (length data)) data 10.

(** ** Well-formed tag records *)

(** A parameter of a TagReportData record as the sender writes it: a TV
    parameter with its payload, or a TLV parameter with its value. *)
Inductive Field : Type :=
| FieldTV (t : Z) (payload : Buffer)
| FieldTLV (t : Z) (value : Buffer).

Definition fieldBytes (f : Field) : Buffer :=
  match f with
  | FieldTV t payload => tvParam t payload
  | FieldTLV t value => tlvBytes t value
  end.

Definition recordBytes (fields : list Field) : Buffer :=
  flat_map fieldBytes fields.


(** The EPC a parameter carries, in whole bytes: the payload of an EPC-96,
    or the bytes of an EPCData that its bit length covers. *)
Definition epcOf (f : Field) : option Buffer :=
  match f with
  | FieldTV t payload => if t =? 13 then Some payload else None
  | FieldTLV t value =>
    if t =? 241 then Some (slice value 2 (2 + u16 value 0 / 8)) else None
  end.

(** The EPC of a record is that of its last parameter that carries one;
    the record contains an EPC when that one has at least one byte. *)
Definition laterEpc (acc : option Buffer) (f : Field) : option Buffer :=
  match epcOf f with
  | Some b => Some b
  | None => acc
  end.

Definition recordEpc (fields : list Field) : option Buffer :=
  fold_left laterEpc fields None.

Definition containsEpc (fields : list Field) : bool :=
  match recordEpc fields with
  | Some (_ :: _) => true
  | _ => false
  end.

(** The tag a record describes, parameter by parameter. *)
Definition fieldTag (tag : Tag) (f : Field) : Tag :=
  match f with
  | FieldTV t payload => tvField tag (t, payload)
  | FieldTLV _ _ =>
    match epcOf f with
    | Some b => set_epc (Some (hexUpper b)) tag
    | None => tag
    end
  end.

Definition recordTag (fields : list Field) : Tag :=
  fold_left fieldTag fields emptyTag.

(** The observation the consumer gets for a record: none without an EPC,
    else the tag, with the antenna taken from the configuration when the
    record names none (or 0) and exactly one antenna is configured. *)
Definition observation (config : Config) (fields : list Field) : list Effect :=
  if containsEpc fields then
    let tag := recordTag fields in
    let unnamed := match antenna tag with
                   | None => true
                   | Some a => a =? 0
                   end in
    [Emit (EvTag (match antennas config with
                  | [a] => if unnamed then set_antenna (Some a) tag else tag
                  | _ => tag
                  end))]
  else [].



(** ** Sample sessions and messages *)

Module Sample.

Definition config : Config :=
  {| antennas := [1]; antennaPowerDbm := <[1 := 30%Q]> ∅;
     reconnectInterval := 5000; enableReconnect := true |}.

(** A reader whose socket is connected. *)
Definition live : Reader := set_connected true (set_socket true (newReader config)).

(** LLRPStatus (287) with status code 100 and the description
    [Bad ROSpec]. *)
Definition badStatus : Buffer :=
  [1; 31; 0; 18; 0; 100; 0; 10; 66; 97; 100; 32; 82; 79; 83; 112; 101; 99].

(** LLRPStatus (287) with status code 0 and no description. *)
Definition okStatus : Buffer := [1; 31; 0; 8; 0; 0; 0; 0].

Definition addRejected : Buffer := [4; 30; 0; 0; 0; 28; 0; 0; 0; 7] ++ badStatus.
Definition startRejected : Buffer := [4; 32; 0; 0; 0; 28; 0; 0; 0; 9] ++ badStatus.
Definition startAccepted : Buffer := [4; 32; 0; 0; 0; 18; 0; 0; 0; 9] ++ okStatus.

(** A capabilities response with status 0 and no further parameter. *)
Definition bareCapabilities : Buffer :=
  [4; 11; 0; 0; 0; 18; 0; 0; 0; 1] ++ okStatus.

(** A KEEPALIVE without payload. *)
Definition keepalive : Buffer := [4; 62; 0; 0; 0; 10; 0; 0; 0; 5].

(** A GET_READER_CAPABILITIES_RESPONSE with status 0 and one
    RegulatoryCapabilities holding one UHFBandCapabilities: power entries
    (index 200, 30.00 dBm) and (index 1, 10.00 dBm) and hop table 1. *)
Definition capabilities : Buffer :=
  [4; 11; 0; 0; 0; 52; 0; 0; 0; 1] ++ okStatus
  ++ [0; 143; 0; 34; 0; 0; 0; 0]
  ++ [0; 144; 0; 26]
  ++ [0; 145; 0; 8; 0; 200; 11; 184]
  ++ [0; 145; 0; 8; 0; 1; 3; 232]
  ++ [0; 147; 0; 6; 0; 1].

(** An RO_ACCESS_REPORT with two TagReportData records: the first holds an
    EPC-96, an AntennaID and a PeakRSSI, the second an AntennaID only. *)
Definition report : Buffer :=
  [4; 61; 0; 0; 0; 39; 0; 0; 0; 12]
  ++ [0; 240; 0; 22; 141; 48; 10; 0; 1; 2; 3; 4; 5; 6; 7; 8; 9;
      129; 0; 3; 134; 216]
  ++ [0; 240; 0; 7; 129; 0; 3].

End Sample.

(* ===================================================================== *)
(** * Properties *)
(* ===================================================================== *)

(** ** Bytes and buffers *)

Lemma len_nonneg (b : Buffer) : 0 <= len b.
Proof. unfold len. lia. Qed.

Lemma len_app (a b : Buffer) : len (a ++ b) = len a + len b.
Proof. unfold len. rewrite List.length_app. lia. Qed.

Lemma isBuffer_Forall (b : list Z) :
  isBuffer b = true <-> Forall (fun x => 0 <= x < 256) b.
Proof.
  unfold isBuffer. rewrite forallb_forall, List.Forall_forall.
  split; intros H x Hx; specialize (H x Hx); lia.
Qed.

Lemma byte_range (b : Buffer) (i : Z) :
  isBuffer b = true -> 0 <= byte b i < 256.
Proof.
  intros Hb. unfold byte, at_.
  destruct (i <? 0); [lia|].
  destruct (nth_error b (Z.to_nat i)) as [v|] eqn:E; [|lia].
  apply isBuffer_Forall in Hb. rewrite List.Forall_forall in Hb.
  apply Hb. eapply nth_error_In; eauto.
Qed.

Lemma u16_range (b : Buffer) (i : Z) :
  isBuffer b = true -> 0 <= u16 b i < 65536.
Proof.
  intros Hb. unfold u16.
  pose proof (byte_range b i Hb). pose proof (byte_range b (i + 1) Hb). lia.
Qed.

Lemma isBuffer_app (a b : list Z) :
  isBuffer (a ++ b) = isBuffer a && isBuffer b.
Proof. unfold isBuffer. apply forallb_app. Qed.

Lemma isBuffer_slice (b : Buffer) (s e : Z) :
  isBuffer b = true -> isBuffer (slice b s e) = true.
Proof.
  intros Hb. apply isBuffer_Forall. apply isBuffer_Forall in Hb.
  unfold slice. apply Forall_take, Forall_drop, Hb.
Qed.

Lemma be32_value (n : Z) :
  0 <= n < 4294967296 ->
  ((Z.shiftr n 24 * 256 + Z.land (Z.shiftr n 16) 255) * 256
   + Z.land (Z.shiftr n 8) 255) * 256 + Z.land n 255 = n.
Proof.
  intros Hn.
  change 255 with (Z.ones 8).
  rewrite !Z.land_ones by lia. rewrite !Z.shiftr_div_pow2 by lia.
  change (2 ^ 24) with 16777216. change (2 ^ 16) with 65536.
  change (2 ^ 8) with 256.
  Z.div_mod_to_equations. lia.
Qed.

Lemma be16_value (n : Z) :
  0 <= n < 65536 -> Z.shiftr n 8 * 256 + Z.land n 255 = n.
Proof.
  intros Hn. change 255 with (Z.ones 8).
  rewrite Z.land_ones by lia. rewrite Z.shiftr_div_pow2 by lia.
  change (2 ^ 8) with 256. Z.div_mod_to_equations. lia.
Qed.

Lemma msgType_header (type : Z) :
  0 <= type <= 1023 ->
  Z.lor (Z.shiftl (Z.land (Z.lor 4 (Z.land (Z.shiftr type 8) 3)) 3) 8)
        (Z.land type 255) = type.
Proof.
  intros Ht.
  apply Z.bits_inj'. intros n Hn.
  rewrite Z.lor_spec.
  change 255 with (Z.ones 8). 
  destruct (Z.ltb_spec n 8).
  - rewrite Z.shiftl_spec_low by lia. rewrite Z.land_spec, Z.ones_spec_low by lia.
    simpl. apply andb_true_r.
  - rewrite Z.shiftl_spec by lia. rewrite !Z.land_spec, Z.lor_spec, Z.land_spec.
    rewrite Z.shiftr_spec by lia. replace (n - 8 + 8) with n by lia.
    rewrite Z.ones_spec_high by lia. rewrite andb_false_r, orb_false_r.
    change 3 with (Z.ones 2). change 4 with (2 ^ 2).
    destruct (Z.ltb_spec (n - 8) 2).
    + rewrite Z.ones_spec_low by lia. rewrite Z.pow2_bits_false by lia.
      simpl. rewrite !andb_true_r. reflexivity.
    + rewrite Z.ones_spec_high by lia. rewrite !andb_false_r.
      symmetry. apply Z.bits_above_log2; [lia|].
      destruct (Z.eq_dec type 0) as [->|]; [simpl; lia|].
      apply Z.log2_lt_pow2; [lia|].
      apply Z.lt_le_trans with (2 ^ 10); [simpl; lia|].
      apply Z.pow_le_mono_r; lia.
Qed.

Lemma len_nil : len [] = 0.
Proof. reflexivity. Qed.

Lemma len_cons (x : Z) (b : Buffer) : len (x :: b) = 1 + len b.
Proof. unfold len. cbn [length]. lia. Qed.

Ltac len_simpl := rewrite ?len_app, ?len_cons, ?len_nil in *.

(** ** C7: the frame round trip *)

Lemma header_byte0_range (type : Z) :
  4 <= Z.lor 4 (Z.land (Z.shiftr type 8) 3) <= 7.
Proof.
  change 3 with (Z.ones 2). rewrite Z.land_ones by lia.
  assert (H : 0 <= Z.shiftr type 8 mod 2 ^ 2 < 4)
    by (apply Z.mod_pos_bound; reflexivity).
  remember (Z.shiftr type 8 mod 2 ^ 2) as q.
  assert (Hq : q = 0 \/ q = 1 \/ q = 2 \/ q = 3) by lia.
  destruct Hq as [-> | [-> | [-> | ->]]]; split; apply Z.leb_le; reflexivity.
Qed.

Lemma land_255_range (v : Z) : 0 <= Z.land v 255 <= 255.
Proof.
  change (Z.land v 255) with (Z.land v (Z.ones 8)). rewrite Z.land_ones by lia.
  pose proof (Z.mod_pos_bound v (2 ^ 8) eq_refl). change (2 ^ 8) with 256 in *. lia.
Qed.

Lemma writeUInt8_ok (v : Z) : 0 <= v <= 255 -> writeUInt8 v = Ok [v].
Proof.
  intros H. unfold writeUInt8.
  destruct (Z.leb_spec 0 v), (Z.leb_spec v 255); simpl; try lia; reflexivity.
Qed.

Lemma writeUInt16BE_ok (v : Z) :
  0 <= v <= 65535 -> writeUInt16BE v = Ok [Z.shiftr v 8; Z.land v 255].
Proof.
  intros H. unfold writeUInt16BE.
  destruct (Z.leb_spec 0 v), (Z.leb_spec v 65535); simpl; try lia; reflexivity.
Qed.

Lemma writeUInt32BE_ok (v : Z) :
  0 <= v <= 4294967295 ->
  writeUInt32BE v = Ok [Z.shiftr v 24; Z.land (Z.shiftr v 16) 255;
                        Z.land (Z.shiftr v 8) 255; Z.land v 255].
Proof.
  intros H. unfold writeUInt32BE.
  destruct (Z.leb_spec 0 v), (Z.leb_spec v 4294967295); simpl; try lia; reflexivity.
Qed.

Lemma frame_bytes (type msgId : Z) (p : Buffer) :
  len p < 4294967296 - 10 -> 0 <= msgId < 4294967296 ->
  frame type msgId p =
    Ok ([Z.lor 4 (Z.land (Z.shiftr type 8) 3); Z.land type 255]
        ++ [Z.shiftr (10 + len p) 24; Z.land (Z.shiftr (10 + len p) 16) 255;
            Z.land (Z.shiftr (10 + len p) 8) 255; Z.land (10 + len p) 255]
        ++ [Z.shiftr msgId 24; Z.land (Z.shiftr msgId 16) 255;
            Z.land (Z.shiftr msgId 8) 255; Z.land msgId 255]
        ++ p).
Proof.
  intros Hp Hid. unfold frame.
  pose proof (len_nonneg p).
  rewrite writeUInt8_ok by (pose proof (header_byte0_range type); lia).
  rewrite writeUInt8_ok by apply land_255_range.
  rewrite !writeUInt32BE_ok by lia.
  reflexivity.
Qed.

Lemma minimal_frame_same (type msgId : Z) (p : Buffer) :
  Minimal.frame type msgId p = frame type msgId p.
Proof. reflexivity. Qed.

Lemma slice_app_exact (a b : Buffer) : slice (a ++ b) 0 (len a) = a.
Proof.
  unfold slice, len. simpl. rewrite Z.sub_0_r, Nat2Z.id.
  change (skipn 0 (a ++ b)) with (a ++ b). apply take_app_length.
Qed.

Lemma sliceFrom_app_exact (a b : Buffer) : sliceFrom (a ++ b) (len a) = b.
Proof. unfold sliceFrom, len. rewrite Nat2Z.id. apply drop_app_length. Qed.

(** C7. The two scripts write the same frame for every type. For a type
    in [0, 1023], a payload shorter than [2^32 - 10] bytes and a 32-bit
    message id, [sendMessage] produces a frame whose byte 0 is
    [0x04 | ((type >> 8) & 0x03)]; the receive loop cuts exactly that
    frame out of the buffer, whatever follows it, the dispatcher reads
    the type back from it, and the bytes after the 10-byte header are the
    payload. *)
Theorem frame_roundtrip (type msgId : Z) (p rest : Buffer) :
  Minimal.frame type msgId p = frame type msgId p
  /\ (0 <= type <= 1023 -> len p < 2 ^ 32 - 10 -> 0 <= msgId < 2 ^ 32 ->
      exists f,
        frame type msgId p = Ok f
        /\ nth_error f 0 = Some (Z.lor 4 (Z.land (Z.shiftr type 8) 3))
        /\ nextFrame (f ++ rest) = Some (f, rest)
        /\ msgType f = type
        /\ sliceFrom f 10 = p).
Proof.
  split; [apply minimal_frame_same|].
  change (2 ^ 32) with 4294967296. intros Ht Hp Hid.
  eexists. split; [apply frame_bytes; assumption|].
  pose proof (len_nonneg p) as Hl.
  split; [reflexivity|]. split; [|split].
  - unfold nextFrame.
    set (f := _ ++ _ ++ _ ++ p).
    assert (Hf : len f = 10 + len p).
    { unfold f. len_simpl. lia. }
    assert (Hu : u32 (f ++ rest) 2 = 10 + len p).
    { unfold f. cbn [app]. unfold u32, u16, byte, at_. cbn.
      apply be32_value. lia. }
    rewrite Hu. rewrite len_app, Hf.
    pose proof (len_nonneg rest).
    destruct (Z.geb_spec (10 + len p + len rest) 10); [|lia].
    destruct (Z.ltb_spec (10 + len p + len rest) (10 + len p)); [lia|].
    rewrite <- Hf. rewrite slice_app_exact, sliceFrom_app_exact. reflexivity.
  - unfold msgType, byte, at_. cbn. apply msgType_header. assumption.
  - reflexivity.
Qed.

Lemma frame_roundtrip_witness :
  exists f,
    frame 62 1 [] = Ok f
    /\ nth_error f 0 = Some (Z.lor 4 (Z.land (Z.shiftr 62 8) 3))
    /\ nextFrame (f ++ [4; 61]) = Some (f, [4; 61])
    /\ msgType f = 62
    /\ sliceFrom f 10 = [].
Proof.
  apply (proj2 (frame_roundtrip 62 1 [] [4; 61])); vm_compute; intuition congruence.
Defined.

(** ** Parameter walks *)

Lemma readUInt16BE_cases (d : Buffer) (o : Z) :
  readUInt16BE d o = Ok (u16 d o) \/ readUInt16BE d o = RangeError.
Proof. unfold readUInt16BE. destruct (inRange d o 2); auto. Qed.

Lemma inRange_true (d : Buffer) (o n : Z) :
  0 <= o -> o + n <= len d -> inRange d o n = true.
Proof.
  intros H1 H2. unfold inRange.
  destruct (Z.leb_spec 0 o), (Z.leb_spec (o + n) (len d)); simpl; lia.
Qed.

(** A read whose field lies inside the buffer returns the field: this is
    what the guards of the source establish before the reads that the
    model takes as plain values. *)
Lemma guarded_reads (d : Buffer) (o : Z) :
  0 <= o ->
  (o + 1 <= len d -> readInt8 d o = Ok (s8 d o))
  /\ (o + 2 <= len d ->
      readUInt16BE d o = Ok (u16 d o) /\ readInt16BE d o = Ok (s16 d o))
  /\ (o + 4 <= len d -> readUInt32BE d o = Ok (u32 d o))
  /\ (o + 8 <= len d -> readBigUInt64BE d o = Ok (u64 d o)).
Proof.
  intros Ho. unfold readInt8, readUInt16BE, readInt16BE, readUInt32BE,
    readBigUInt64BE.
  split; [|split; [|split]]; intros H; rewrite ?inRange_true by assumption;
    auto.
Qed.

Lemma tlvHeader_Some (data : Buffer) (offset t l : Z) :
  isBuffer data = true ->
  tlvHeader data offset = Some (t, l) ->
  offset + 4 <= len data /\ 1 <= l <= len data - offset
  /\ t = Z.land (u16 data offset) 1023 /\ l = u16 data (offset + 2).
Proof.
  intros Hb. unfold tlvHeader.
  destruct (Z.leb_spec (offset + 4) (len data)); [|discriminate].
  pose proof (u16_range data (offset + 2) Hb).
  destruct (Z.eqb_spec (u16 data (offset + 2)) 0); simpl; [discriminate|].
  destruct (Z.gtb_spec (u16 data (offset + 2)) (len data - offset));
    [discriminate|].
  intros [= <- <-]. repeat split; lia.
Qed.

Lemma tlvLoop_params {S : Type} (body : Z -> Z -> Z -> S -> result S)
    (data : Buffer) :
  isBuffer data = true ->
  forall (fuel : nat) (offset : Z) (s : S),
    (0 < fuel)%nat -> len data - offset < Z.of_nat fuel ->
    tlvLoop fuel body data offset s
    = foldParams body (tlvParams fuel data offset) s.
Proof.
  intros Hb. induction fuel as [|f IH]; intros offset s Hpos Hfuel; [lia|].
  cbn [tlvLoop tlvParams].
  destruct (tlvHeader data offset) as [[t l]|] eqn:Hh; [|reflexivity].
  apply tlvHeader_Some in Hh as (H4 & Hl & _ & _); [|assumption].
  cbn [foldParams]. destruct (body t l offset s) as [s'| |]; cbn [rbind];
    try reflexivity.
  apply IH; lia.
Qed.

Lemma tlvParams_In (data : Buffer) :
  isBuffer data = true ->
  forall (fuel : nat) (offset t l o : Z),
    In (t, l, o) (tlvParams fuel data offset) ->
    offset <= o /\ o + 4 <= len data /\ 1 <= l <= len data - o
    /\ t = Z.land (u16 data o) 1023 /\ l = u16 data (o + 2).
Proof.
  intros Hb. induction fuel as [|f IH]; intros offset t l o Hin; [destruct Hin|].
  cbn [tlvParams] in Hin.
  destruct (tlvHeader data offset) as [[t0 l0]|] eqn:Hh; [|destruct Hin].
  pose proof (tlvHeader_Some _ _ _ _ Hb Hh) as (H4 & Hl & Ht & Hl').
  destruct Hin as [[= <- <- <-]|Hin].
  - repeat split; try lia; assumption.
  - apply IH in Hin. intuition lia.
Qed.

(** ** The response check *)

Lemma nestedErrors_returns (data : Buffer) :
  isBuffer data = true ->
  forall (fuel : nat) (nestedOffset limit paramLen : Z),
    (0 < fuel)%nat -> limit - nestedOffset < Z.of_nat fuel ->
    nestedErrors fuel data nestedOffset limit paramLen <> Diverge.
Proof.
  intros Hb. induction fuel as [|f IH]; intros no limit pl Hpos Hfuel; [lia|].
  cbn [nestedErrors].
  destruct (Z.leb_spec (no + 4) limit); [|discriminate].
  destruct (readUInt16BE_cases data no) as [-> | ->]; cbn [rbind];
    [|discriminate].
  destruct (readUInt16BE_cases data (no + 2)) as [-> | ->]; cbn [rbind];
    [|discriminate].
  pose proof (u16_range data (no + 2) Hb).
  destruct (Z.eqb_spec (u16 data (no + 2)) 0); simpl; [discriminate|].
  destruct (u16 data (no + 2) >? pl); [discriminate|].
  repeat match goal with
  | |- context [if ?c then _ else _] => destruct c
  | |- context [readUInt16BE ?d ?o] =>
      destruct (readUInt16BE_cases d o) as [-> | ->]; cbn [rbind]
  end; try discriminate; apply IH; lia.
Qed.

Lemma checkStatusParam_cases (data : Buffer) (o l : Z) (b : bool) :
  isBuffer data = true -> 0 <= o -> l <= len data - o ->
  checkStatusParam data o l b = RangeError
  \/ checkStatusParam data o l b
     = Ok (if u16 data (o + 4) =? 0 then b else false).
Proof.
  intros Hb Ho Hl. unfold checkStatusParam.
  destruct (readUInt16BE_cases data (o + 4)) as [-> | ->]; cbn [rbind]; auto.
  destruct (u16 data (o + 4) =? 0); auto.
  destruct (l >? 6); auto.
  destruct (readUInt16BE_cases data (o + 6)) as [-> | ->]; cbn [rbind]; auto.
  pose proof (u16_range data (o + 6) Hb).
  pose proof (nestedErrors_returns data Hb (S (length data))
                (o + 8 + u16 data (o + 6)) (o + l) l) as Hn.
  destruct (nestedErrors _ _ _ _ _) as [[]| |]; cbn [rbind]; auto.
  exfalso. apply Hn; [lia| |reflexivity]. unfold len in *. lia.
Qed.

Lemma checkResponse_fold (data : Buffer) :
  isBuffer data = true ->
  checkResponse data
  = foldParams (checkResponseBody data) (topLevelParams data) true.
Proof.
  intros Hb. unfold checkResponse, topLevelParams, paramsFrom.
  apply tlvLoop_params; [assumption|lia|unfold len; lia].
Qed.

Lemma checkResponse_fold_false (data : Buffer) (ps : list (Z * Z * Z)) :
  isBuffer data = true ->
  (forall t l o, In (t, l, o) ps -> 0 <= o /\ l <= len data - o) ->
  foldParams (checkResponseBody data) ps false = RangeError
  \/ foldParams (checkResponseBody data) ps false = Ok false.
Proof.
  intros Hb. induction ps as [|[[t l] o] ps IH]; intros Hps; cbn [foldParams];
    [auto|].
  destruct (Hps t l o (or_introl eq_refl)) as [Ho Hl].
  unfold checkResponseBody at 1 3.
  destruct (t =? 287).
  - destruct (checkStatusParam_cases data o l false Hb Ho Hl) as [-> | ->];
      cbn [rbind]; auto.
    replace (if u16 data (o + 4) =? 0 then false else false) with false
      by (destruct (_ =? _); reflexivity).
    apply IH. intros t' l' o' Hin'. apply (Hps t' l' o'). right; assumption.
  - cbn [rbind]. apply IH. intros t' l' o' Hin'. apply (Hps t' l' o').
    right; assumption.
Qed.

Lemma checkResponse_fold_nonzero (data : Buffer) (ps : list (Z * Z * Z))
    (b : bool) (l o : Z) :
  isBuffer data = true ->
  (forall t l o, In (t, l, o) ps -> 0 <= o /\ l <= len data - o) ->
  In (287, l, o) ps -> u16 data (o + 4) <> 0 ->
  foldParams (checkResponseBody data) ps b = RangeError
  \/ foldParams (checkResponseBody data) ps b = Ok false.
Proof.
  intros Hb. revert b.
  induction ps as [|[[t0 l0] o0] ps IH]; intros b Hps Hin Hne; [destruct Hin|].
  cbn [foldParams].
  destruct (Hps t0 l0 o0 (or_introl eq_refl)) as [Ho Hl].
  assert (Hps' : forall t l o, In (t, l, o) ps -> 0 <= o /\ l <= len data - o)
    by (intros t' l' o' Hin'; apply (Hps t' l' o'); right; assumption).
  destruct Hin as [[= -> -> ->]|Hin].
  - unfold checkResponseBody at 1 3. cbn [Z.eqb Pos.eqb].
    destruct (checkStatusParam_cases data o l b Hb Ho Hl) as [-> | ->];
      cbn [rbind]; auto.
    destruct (Z.eqb_spec (u16 data (o + 4)) 0); [contradiction|].
    apply checkResponse_fold_false; assumption.
  - unfold checkResponseBody at 1 3.
    destruct (t0 =? 287).
    + destruct (checkStatusParam_cases data o0 l0 b Hb Ho Hl) as [-> | ->];
        cbn [rbind]; auto.
    + cbn [rbind]. auto.
Qed.


Lemma topLevelParams_bounds (data : Buffer) (t l o : Z) :
  isBuffer data = true ->
  In (t, l, o) (topLevelParams data) -> 0 <= o /\ l <= len data - o.
Proof.
  intros Hb Hin. apply (tlvParams_In data Hb) in Hin. lia.
Qed.



(** ** The dispatcher leaves the connection alone *)

Lemma keeps_refl (r : Reader) : keeps r r.
Proof. unfold keeps, sameConnection. tauto. Qed.

Lemma keeps_trans (r1 r2 r3 : Reader) : keeps r1 r2 -> keeps r2 r3 -> keeps r1 r3.
Proof. unfold keeps, sameConnection. intuition congruence. Qed.

Lemma quiet_app (a b : list Effect) : quiet a -> quiet b -> quiet (a ++ b).
Proof. unfold quiet. rewrite forallb_app. intros -> ->. reflexivity. Qed.

Lemma tlvLoop_keeps (body : Z -> Z -> Z -> Reader -> result Reader) :
  (forall t l o r r', body t l o r = Ok r' -> keeps r r') ->
  forall (fuel : nat) (data : Buffer) (offset : Z) (r r' : Reader),
    tlvLoop fuel body data offset r = Ok r' -> keeps r r'.
Proof.
  intros Hbody. induction fuel as [|f IH]; intros data offset r r' H;
    [discriminate|].
  cbn [tlvLoop] in H.
  destruct (tlvHeader data offset) as [[t l]|].
  - destruct (body t l offset r) as [r1| |] eqn:Hb; cbn [rbind] in H;
      try discriminate.
    eapply keeps_trans; [eapply Hbody; eassumption|eapply IH; eassumption].
  - injection H as <-. apply keeps_refl.
Qed.

Lemma parseUHFBandCapabilities_keeps (data : Buffer) (r r' : Reader) :
  parseUHFBandCapabilities data r = Ok r' -> keeps r r'.
Proof.
  unfold parseUHFBandCapabilities. intros H.
  destruct (tlvLoop _ _ _ _ _) as [r1| |] eqn:Hl; cbn [rbind] in H;
    try discriminate.
  injection H as <-.
  apply keeps_trans with r1; [|unfold keeps, sameConnection; cbn; tauto].
  eapply tlvLoop_keeps; [|eassumption].
  intros t l o s s'. unfold uhfBody.
  repeat match goal with |- context [if ?c then _ else _] => destruct c end;
    intros [= <-]; unfold keeps, sameConnection; cbn; tauto.
Qed.

Lemma parseRegulatoryCapabilities_keeps (data : Buffer) (r r' : Reader) :
  parseRegulatoryCapabilities data r = Ok r' -> keeps r r'.
Proof.
  unfold parseRegulatoryCapabilities.
  destruct (4 + 4 >? len data); [intros [= <-]; apply keeps_refl|].
  apply tlvLoop_keeps. intros t l o s s'. unfold regulatoryBody.
  destruct (t =? 144); [apply parseUHFBandCapabilities_keeps|].
  intros [= <-]; apply keeps_refl.
Qed.

Lemma parseCapabilities_keeps (data : Buffer) (r r' : Reader) (b : bool) :
  parseCapabilities data r = Ok (b, r') -> keeps r r'.
Proof.
  unfold parseCapabilities. intros H.
  destruct (capabilitiesStatus data) as [[off|]| |]; cbn [rbind] in H;
    try discriminate.
  - destruct (tlvLoop _ _ _ _ _) as [r1| |] eqn:Hl; cbn [rbind] in H;
      try discriminate.
    injection H as _ <-.
    apply keeps_trans with r1.
    + eapply tlvLoop_keeps; [|eassumption].
      intros t l o s s'. unfold capabilitiesBody.
      destruct (t =? _); [apply parseRegulatoryCapabilities_keeps|].
      intros [= <-]; apply keeps_refl.
    + unfold selectHopTableId.
      destruct (hopTableIds r1); unfold keeps, sameConnection; cbn; tauto.
  - injection H as _ <-. apply keeps_refl.
Qed.

Lemma computePowerIndices_keeps (config : Config) (r : Reader) :
  keeps r (computePowerIndices config r).
Proof.
  unfold computePowerIndices. revert r.
  induction (antennas config) as [|a l IH]; intros r; cbn [fold_left];
    [apply keeps_refl|].
  eapply keeps_trans; [|apply IH]. unfold keeps, sameConnection; cbn; tauto.
Qed.

Lemma sendMessage_keeps (type : Z) (payload : Buffer) (r r' : Reader)
    (out : list Effect) :
  sendMessage type payload r = Ok (r', out) -> keeps r r' /\ quiet out.
Proof.
  unfold sendMessage.
  destruct (negb (socket r) || negb (connected r)).
  - intros [= <- <-]. split; [apply keeps_refl|reflexivity].
  - destruct (frame _ _ _); cbn [rbind]; try discriminate.
    intros [= <- <-]. split; [|reflexivity].
    unfold keeps, sameConnection; cbn; tauto.
Qed.

Lemma tlvLoop_invariant {S : Type} (P : S -> Prop)
    (body : Z -> Z -> Z -> S -> result S) :
  (forall t l o s s', P s -> body t l o s = Ok s' -> P s') ->
  forall (fuel : nat) (data : Buffer) (offset : Z) (s s' : S),
    P s -> tlvLoop fuel body data offset s = Ok s' -> P s'.
Proof.
  intros Hbody. induction fuel as [|f IH]; intros data offset s s' Hs H;
    [discriminate|].
  cbn [tlvLoop] in H.
  destruct (tlvHeader data offset) as [[t l]|].
  - destruct (body t l offset s) as [s1| |] eqn:Hb; cbn [rbind] in H;
      try discriminate.
    eapply IH; [|eassumption]. eapply Hbody; eassumption.
  - injection H as <-. assumption.
Qed.

Lemma reportTag_quiet (config : Config) (tag : Tag) : quiet (reportTag config tag).
Proof. unfold reportTag. destruct (epcMissing tag); reflexivity. Qed.

Lemma processMessage_keeps (config : Config) (data : Buffer) (r r' : Reader)
    (out : list Effect) :
  processMessage config data r = Ok (r', out) -> keeps r r' /\ quiet out.
Proof.
  unfold processMessage.
  repeat match goal with
  | |- context [if msgType data =? ?c then _ else _] =>
      destruct (msgType data =? c)
  end.
  - intros [= <- <-]. split; [apply keeps_refl|reflexivity].
  - intros [= <- <-]. split; [|reflexivity].
    destruct (configStarted r); [apply keeps_refl|].
    unfold keeps, sameConnection; cbn; tauto.
  - destruct (parseCapabilities data r) as [[b r1]| |] eqn:Hp; cbn [rbind];
      try discriminate.
    apply parseCapabilities_keeps in Hp. cbn [fst snd].
    destruct b.
    + unfold sendDeleteROSpec.
      destruct (writeUInt32BE 0); cbn [rbind]; try discriminate.
      intros H. apply sendMessage_keeps in H as [H1 H2]. split; [|assumption].
      eapply keeps_trans; [eassumption|].
      eapply keeps_trans; [apply computePowerIndices_keeps|eassumption].
    + intros [= <- <-]. split; [assumption|reflexivity].
  - destruct (handleErrorMessage data); cbn [rbind]; try discriminate.
    intros [= <- <-]. split; [apply keeps_refl|reflexivity].
  - destruct (checkResponse data); cbn [rbind]; try discriminate.
    unfold sendDeleteROSpec.
    destruct (writeUInt32BE 0); cbn [rbind]; try discriminate.
    apply sendMessage_keeps.
  - destruct (checkResponse data); cbn [rbind]; try discriminate.
    unfold sendAddROSpec.
    destruct (buildROSpec config r); cbn [rbind]; try discriminate.
    apply sendMessage_keeps.
  - destruct (checkResponse data); cbn [rbind]; try discriminate.
    unfold sendEnableROSpec.
    destruct (writeUInt32BE 1); cbn [rbind]; try discriminate.
    apply sendMessage_keeps.
  - destruct (checkResponse data); cbn [rbind]; try discriminate.
    unfold sendStartROSpec.
    destruct (writeUInt32BE 1); cbn [rbind]; try discriminate.
    apply sendMessage_keeps.
  - destruct (checkResponse data) as [[|]| |]; cbn [rbind]; try discriminate;
      intros [= <- <-]; (split; [|reflexivity]).
    + unfold keeps, sameConnection; cbn; tauto.
    + apply keeps_refl.
  - unfold parseTagReport.
    destruct (negb (rospecStarted r)).
    + intros [= <- <-]. split; [apply keeps_refl|reflexivity].
    + destruct (tlvLoop _ _ _ _ _) as [o| |] eqn:Hl; cbn [rbind];
        try discriminate.
      intros [= <- <-]. split; [apply keeps_refl|].
      eapply (tlvLoop_invariant quiet); [|exact (eq_refl : quiet [])|eassumption].
      intros t l o' s s' Hs. unfold tagReportBody.
      destruct (t =? 240); [|intros [= <-]; assumption].
      destruct (parseTagReportData _); cbn [rbind]; try discriminate.
      intros [= <-]. apply quiet_app; [assumption|apply reportTag_quiet].
  - apply sendMessage_keeps.
  - intros [= <- <-]. split; [apply keeps_refl|reflexivity].
Qed.

(** ** C1: a non-zero LLRPStatus in the startup chain *)

(** C1, as stated, fails: an ADD_ROSPEC_RESPONSE that carries LLRPStatus
    code 100 is answered with the next message of the chain
    (ENABLE_ROSPEC, type 24), and the session stays connected with no
    reconnect timer armed. *)
Lemma rejected_add_is_followed_by_enable :
  msgType Sample.addRejected = MSG.ADD_ROSPEC_RESPONSE
  /\ carriesNonZeroStatus Sample.addRejected
  /\ processMessage Sample.config Sample.addRejected Sample.live
     = Ok (set_messageId 2 Sample.live,
           [SocketWrite [4; 24; 0; 0; 0; 14; 0; 0; 0; 1; 0; 0; 0; 1]]).
Proof.
  split; [reflexivity|]. split; [|reflexivity].
  exists 18, 10. split; [left; reflexivity|]. vm_compute. discriminate.
Qed.

(** C1, amended. A response that carries a non-zero LLRPStatus fails the
    response check (which returns [false] unless a diagnostic read runs
    out of the message). On START_ROSPEC_RESPONSE the controller then
    leaves the session as it is: the ROSpec is not marked started, nothing
    is emitted and nothing is sent. No response makes the dispatcher tear
    the session down or schedule a reconnect: the socket, the connection
    flags and the reconnect timer are unchanged and no teardown effect
    occurs. *)
Theorem nonzero_status_fails_check (config : Config) (data : Buffer) (r : Reader) :
  isBuffer data = true ->
  carriesNonZeroStatus data ->
  checkResponse data <> RangeError ->
  checkResponse data = Ok false
  /\ (msgType data = MSG.START_ROSPEC_RESPONSE ->
      processMessage config data r = Ok (r, []))
  /\ (forall r' out, processMessage config data r = Ok (r', out) ->
      sameConnection r r' /\ quiet out).
Proof.
  intros Hb (l & o & Hin & Hne) Hno.
  assert (Hc : checkResponse data = Ok false).
  { rewrite checkResponse_fold in * by assumption.
    destruct (checkResponse_fold_nonzero data (topLevelParams data) true l o)
      as [H|H]; try assumption.
    - intros t' l' o'. apply topLevelParams_bounds. assumption.
    - contradiction. }
  split; [assumption|]. split.
  - intros Ht. unfold processMessage. rewrite Ht, Hc. reflexivity.
  - intros r' out H. apply processMessage_keeps in H as [[H _] Hq]. auto.
Qed.

Lemma nonzero_status_fails_check_witness :
  checkResponse Sample.startRejected = Ok false
  /\ (msgType Sample.startRejected = MSG.START_ROSPEC_RESPONSE ->
      processMessage Sample.config Sample.startRejected Sample.live
      = Ok (Sample.live, []))
  /\ (forall r' out,
        processMessage Sample.config Sample.startRejected Sample.live
        = Ok (r', out) ->
        sameConnection Sample.live r' /\ quiet out).
Proof.
  apply (nonzero_status_fails_check Sample.config Sample.startRejected Sample.live).
  - reflexivity.
  - exists 18, 10. split; [left; reflexivity|]. vm_compute. discriminate.
  - vm_compute. discriminate.
Defined.

(** ** C4: frames that declare fewer than 10 bytes *)

Lemma andThen_keeps (s : Step) (k : Reader -> Step) (r0 r' : Reader)
    (out : list Effect) :
  (forall r1 o1, s = Ok (r1, o1) -> keeps r0 r1 /\ quiet o1) ->
  (forall r1 r2 o2, k r1 = Ok (r2, o2) -> keeps r1 r2 /\ quiet o2) ->
  andThen s k = Ok (r', out) -> keeps r0 r' /\ quiet out.
Proof.
  intros Hs Hk. unfold andThen.
  destruct s as [[r1 o1]| |]; cbn [rbind fst snd]; try discriminate.
  destruct (k r1) as [[r2 o2]| |] eqn:Hk1; cbn [rbind fst snd]; try discriminate.
  intros [= <- <-].
  destruct (Hs r1 o1 eq_refl) as [H1 H2].
  destruct (Hk r1 r2 o2 Hk1) as [H3 H4].
  split; [eapply keeps_trans; eassumption|apply quiet_app; assumption].
Qed.

Lemma receiveLoop_keeps (config : Config) :
  forall (fuel : nat) (r r' : Reader) (out : list Effect),
    receiveLoop fuel config r = Ok (r', out) -> keeps r r' /\ quiet out.
Proof.
  induction fuel as [|f IH]; intros r r' out H; [discriminate|].
  cbn [receiveLoop] in H.
  destruct (nextFrame (buffer r)) as [[message rest]|].
  - eapply andThen_keeps; [| |exact H].
    + intros r1 o1 H1. apply processMessage_keeps in H1 as [H1 H2].
      split; [|assumption].
      eapply keeps_trans; [|eassumption].
      unfold keeps, sameConnection; cbn; tauto.
    + intros r1 r2 o2. apply IH.
  - injection H as <- <-. split; [apply keeps_refl|reflexivity].
Qed.

(** C4, as stated, fails: a header that declares a total length of 5 is
    not rejected. Its first 5 bytes are delivered as a KEEPALIVE (type 62)
    message and answered with KEEPALIVE_ACK, and the session stays
    connected with the other 5 bytes left in the buffer. *)
Lemma short_frame_is_answered :
  u32 [4; 62; 0; 0; 0; 5; 0; 0; 0; 1] 2 = 5
  /\ handleData 2 Sample.config [4; 62; 0; 0; 0; 5; 0; 0; 0; 1] Sample.live
     = Ok (set_buffer [5; 0; 0; 0; 1] (set_messageId 2 Sample.live),
           [SocketWrite [4; 72; 0; 0; 0; 10; 0; 0; 0; 1]]).
Proof. split; reflexivity. Qed.

(** The same loop never finishes on a header that declares length 0: the
    empty message is dispatched and the buffer is left as it was. *)
Lemma zero_length_frame_never_returns (config : Config) (r : Reader) :
  10 <= len (buffer r) -> u32 (buffer r) 2 = 0 ->
  forall fuel, receiveLoop fuel config r = Diverge.
Proof.
  intros Hlen H0 fuel. revert r Hlen H0.
  induction fuel as [|f IH]; intros r Hlen H0; [reflexivity|].
  cbn [receiveLoop]. unfold nextFrame. rewrite H0.
  destruct (Z.geb_spec (len (buffer r)) 10); [|lia].
  destruct (Z.ltb_spec (len (buffer r)) 0); [lia|].
  change (slice (buffer r) 0 0) with (@nil Z).
  change (sliceFrom (buffer r) 0) with (buffer r).
  change (processMessage config [] (set_buffer (buffer r) r))
    with (Ok (set_buffer (buffer r) r, @nil Effect) : Step).
  unfold andThen. cbn [rbind fst snd].
  rewrite IH; [reflexivity|assumption|assumption].
Qed.

(** C4, amended. When a 10-byte header is available and declares a total
    length [L] with [1 <= L <= 9], the receive loop raises no error: it
    hands the first [L] bytes to the dispatcher as a message, removes
    exactly those [L] bytes from the buffer and goes on with the rest; and
    whatever the loop then does, it leaves the connection as it was and
    causes no teardown effect. *)
Theorem short_frame_is_delivered (config : Config) (r : Reader) (fuel : nat) :
  10 <= len (buffer r) ->
  1 <= u32 (buffer r) 2 <= 9 ->
  let L := u32 (buffer r) 2 in
  let message := slice (buffer r) 0 L in
  let rest := sliceFrom (buffer r) L in
  nextFrame (buffer r) = Some (message, rest)
  /\ len message = L
  /\ len rest = len (buffer r) - L
  /\ receiveLoop (S fuel) config r
     = andThen (processMessage config message (set_buffer rest r))
               (receiveLoop fuel config)
  /\ (forall r' out, receiveLoop (S fuel) config r = Ok (r', out) ->
      sameConnection r r' /\ quiet out).
Proof.
  intros Hlen HL L message rest.
  assert (Hn : nextFrame (buffer r) = Some (message, rest)).
  { unfold nextFrame. fold L.
    destruct (Z.geb_spec (len (buffer r)) 10); [|lia].
    destruct (Z.ltb_spec (len (buffer r)) L); [unfold L in *; lia|].
    reflexivity. }
  split; [assumption|].
  unfold message, rest, slice, sliceFrom, len in *. fold L in HL |- *.
  split; [|split; [|split]].
  - rewrite length_take, length_drop. lia.
  - rewrite length_drop. lia.
  - cbn [receiveLoop]. unfold len. fold L. rewrite Hn. reflexivity.
  - intros r' out H. apply receiveLoop_keeps in H as [[H _] Hq]. auto.
Qed.

Lemma short_frame_is_delivered_witness :
  let r := set_buffer [4; 62; 0; 0; 0; 5; 0; 0; 0; 1] Sample.live in
  nextFrame (buffer r) = Some ([4; 62; 0; 0; 0], [5; 0; 0; 0; 1])
  /\ len [4; 62; 0; 0; 0] = 5
  /\ len [5; 0; 0; 0; 1] = len (buffer r) - 5
  /\ receiveLoop 2 Sample.config r
     = andThen (processMessage Sample.config [4; 62; 0; 0; 0]
                  (set_buffer [5; 0; 0; 0; 1] r))
               (receiveLoop 1 Sample.config)
  /\ (forall r' out, receiveLoop 2 Sample.config r = Ok (r', out) ->
      sameConnection r r' /\ quiet out).
Proof.
  apply (short_frame_is_delivered Sample.config
           (set_buffer [4; 62; 0; 0; 0; 5; 0; 0; 0; 1] Sample.live) 1);
    vm_compute; intuition congruence.
Defined.

(** ** C3: the power-index selection *)

(** The order of doubles: [<] is irreflexive, and [<=] followed by [<]
    gives [<]. A NaN is in no relation to anything. *)
Lemma ltb_irrefl (x : B64.double) : B64.ltb x x = false.
Proof.
  unfold B64.ltb, SFltb, SFcompare.
  destruct x as [[]|[]| |[] m e]; try reflexivity;
    rewrite Z.compare_refl;
    change (Pos.compare_cont Eq m m) with (Pos.compare m m);
    rewrite Pos.compare_refl; reflexivity.
Qed.

Lemma SFcompare_trans (x y z : spec_float) (c : comparison) :
  c <> Gt ->
  SFcompare x y = Some c -> SFcompare y z = Some Lt -> SFcompare x z = Some Lt.
Proof.
  intros Hc.
  unfold SFcompare.
  destruct x as [[]|[]| |[] mx ex], y as [[]|[]| |[] my ey],
           z as [[]|[]| |[] mz ez];
    try discriminate; try reflexivity; try (intros [= <-]; congruence);
    change (Pos.compare_cont Eq ?a ?b) with (Pos.compare a b).
  all: destruct (Z.compare_spec ex ey) as [->| |];
       destruct (Z.compare_spec ey ez) as [->| |];
       try discriminate; try (intros [= <-]; congruence);
       try (destruct (Z.compare_spec ex ez); try lia; reflexivity);
       try (rewrite Z.compare_refl).
  all: try (destruct (Z.compare_spec ex ez); try lia; intros; reflexivity).
  all: try (destruct (Z.compare_spec ey ez); try lia; intros; reflexivity).
  all: destruct (Pos.compare_spec mx my) as [->| |];
       destruct (Pos.compare_spec my mz) as [->| |];
       cbn; try discriminate; try (intros [= <-]; congruence);
       intros _ _; destruct (Pos.compare_spec mx mz); try lia; try reflexivity.
Qed.

Lemma ltb_trans (x y z : B64.double) :
  B64.ltb x y = true -> B64.ltb y z = true -> B64.ltb x z = true.
Proof.
  unfold B64.ltb, SFltb. intros Hxy Hyz.
  destruct (SFcompare x y) as [[]|] eqn:Exy; try discriminate.
  destruct (SFcompare y z) as [[]|] eqn:Eyz; try discriminate.
  rewrite (SFcompare_trans x y z Lt); [reflexivity|discriminate|assumption..].
Qed.

Lemma leb_ltb_trans (x y z : B64.double) :
  B64.leb x y = true -> B64.ltb y z = true -> B64.ltb x z = true.
Proof.
  unfold B64.leb, B64.ltb, SFleb, SFltb. intros Hxy Hyz.
  destruct (SFcompare y z) as [[]|] eqn:Eyz; try discriminate.
  destruct (SFcompare x y) as [[]|] eqn:Exy; try discriminate.
  - rewrite (SFcompare_trans x y z Eq); [reflexivity|discriminate|assumption..].
  - rewrite (SFcompare_trans x y z Lt); [reflexivity|discriminate|assumption..].
Qed.

Lemma not_ltb_before (x y z : B64.double) :
  B64.ltb y z = true -> B64.ltb x z = false -> B64.ltb x y = false.
Proof.
  intros Hyz Hxz. destruct (B64.ltb x y) eqn:Hxy; [|reflexivity].
  rewrite (ltb_trans x y z Hxy Hyz) in Hxz. discriminate.
Qed.

Lemma not_leb_before (x y z : B64.double) :
  B64.ltb y z = true -> B64.ltb x z = false -> B64.leb x y = false.
Proof.
  intros Hyz Hxz. destruct (B64.leb x y) eqn:Hxy; [|reflexivity].
  rewrite (leb_ltb_trans x y z Hxy Hyz) in Hxz. discriminate.
Qed.

Section Closest.

Variable t : Q.

(** The loop of [findClosestPowerIndex], entered with the best entry [c]
    of the part [pre] of the table already seen: it ends with the first
    entry of the whole table among those at the least distance. *)
Lemma closer_fold :
  forall (l pre : list PowerEntry) (c : PowerEntry) (i : nat),
    pre !! i = Some c ->
    (forall e', In e' pre -> B64.ltb (distance t e') (distance t c) = false) ->
    (forall j e', (j < i)%nat -> pre !! j = Some e' ->
                  B64.leb (distance t e') (distance t c) = false) ->
    exists i' c',
      fold_left (closer (B64.ofQ t)) l (c, distance t c) = (c', distance t c')
      /\ (pre ++ l) !! i' = Some c'
      /\ (forall e', In e' (pre ++ l) ->
                     B64.ltb (distance t e') (distance t c') = false)
      /\ (forall j e', (j < i')%nat -> (pre ++ l) !! j = Some e' ->
                       B64.leb (distance t e') (distance t c') = false).
Proof using Type.
  induction l as [|e l IH]; intros pre c i Hi Hmin Hfirst.
  - exists i, c. rewrite app_nil_r. auto.
  - cbn [fold_left]. unfold closer at 2. cbn [snd].
    change (B64.abs (B64.sub (storedDbm e) (B64.ofQ t))) with (distance t e).
    replace (pre ++ e :: l) with ((pre ++ [e]) ++ l)
      by (rewrite <- app_assoc; reflexivity).
    destruct (B64.ltb (distance t e) (distance t c)) eqn:Hlt.
    + apply (IH (pre ++ [e]) e (length pre)).
      * rewrite lookup_app_r by lia. rewrite Nat.sub_diag. reflexivity.
      * intros e' Hin. apply in_app_or in Hin as [Hin|[<-|[]]].
        -- eapply not_ltb_before; [exact Hlt|auto].
        -- apply ltb_irrefl.
      * intros j e' Hj Hl. rewrite lookup_app_l in Hl by assumption.
        eapply not_leb_before; [exact Hlt|]. apply Hmin.
        apply list_elem_of_In. eapply list_elem_of_lookup_2; eassumption.
    + apply (IH (pre ++ [e]) c i).
      * apply lookup_app_l_Some. assumption.
      * intros e' Hin. apply in_app_or in Hin as [Hin|[<-|[]]]; auto.
      * intros j e' Hj Hl. apply lookup_lt_Some in Hi.
        rewrite lookup_app_l in Hl by lia. eauto.
Qed.

End Closest.

Lemma findClosestPowerIndex_first (first : PowerEntry)
    (rest : list PowerEntry) (t : Q) :
  findClosestPowerIndex (first :: rest) t
  = index (fst (fold_left (closer (B64.ofQ t)) rest (first, distance t first))).
Proof.
  unfold findClosestPowerIndex. cbn [fold_left]. unfold closer at 2.
  cbn [snd].
  change (B64.abs (B64.sub (storedDbm first) (B64.ofQ t)))
    with (distance t first).
  rewrite ltb_irrefl. reflexivity.
Qed.

(** C3, as stated, fails on ties: with entries at 10 dBm (index 5) and
    30 dBm (index 2) a target of 20 dBm is equally far from both, and the
    selection returns index 5, not the lower index 2. *)
Lemma tie_is_not_won_by_lower_index :
  let table := [ {| index := 5; powerDbm := 10 |};
                 {| index := 2; powerDbm := 30 |} ] in
  (Qabs (10 - 20) == Qabs (30 - 20))%Q
  /\ findClosestPowerIndex table 20 = 5.
Proof. split; vm_compute; reflexivity. Qed.

(** The distances are compared as the doubles the subtraction gives.
    With entries at 15.94 and 16.06 dBm (power values 1594 and 1606) and
    a target of 16 dBm both are 0.06 away, but the computed distances
    differ in the last places and the second entry is selected; with
    entries at 10 and 30 dBm and a target of 2^60 both computed distances
    are 2^60, and the first entry is selected although the second is
    nearer. *)
Example rounding_decides_between_near_ties :
  findClosestPowerIndex [ {| index := 1; powerDbm := inject_Z 1594 / 100 |};
                          {| index := 2; powerDbm := inject_Z 1606 / 100 |} ] 16
  = 2
  /\ findClosestPowerIndex [ {| index := 1; powerDbm := inject_Z 21 / 100 |};
                             {| index := 2; powerDbm := inject_Z 29 / 100 |} ]
       (1 # 4)
     = 2
  /\ findClosestPowerIndex [ {| index := 1; powerDbm := 10 |};
                             {| index := 2; powerDbm := 30 |} ] (2 ^ 60)
     = 1.
Proof. repeat split; vm_compute; reflexivity. Qed.

(** The double of a stored entry is the quotient [powerValue / 100.0] of
    the two doubles, and the double of a number that is a double is that
    number. *)
Example stored_double_is_the_quotient :
  B64.ofQ (inject_Z 1594 / 100) = B64.div (B64.ofZ 1594) (B64.ofZ 100)
  /\ B64.ofQ (inject_Z (-2550) / 100) = B64.div (B64.ofZ (-2550)) (B64.ofZ 100)
  /\ B64.ofQ (inject_Z 3000 / 100) = B64.ofZ 30
  /\ (B64.toQ (B64.ofQ (1 # 4)) == 1 # 4)%Q
  /\ B64.ofQ (2 ^ 60) = B64.ofZ (2 ^ 60).
Proof. repeat split; vm_compute; reflexivity. Qed.

(** C3, amended. With an empty power table the index is
    [clamp(round(t), 1, 100)]. With a non-empty table it is the index of
    an entry at the least distance [|power_dbm - t|], the distance being
    the double that the code computes: no entry of the table has a
    smaller computed distance, and among the entries at the least
    computed distance the one that comes first in the stored table wins,
    no entry before it being as close. *)
Theorem closest_power_index (table : list PowerEntry) (t : Q) :
  findClosestPowerIndex [] t = Z.min (Z.max 1 (B64.mathRound (B64.ofQ t))) 100
  /\ (table <> [] ->
      exists (i : nat) (e : PowerEntry),
        table !! i = Some e
        /\ findClosestPowerIndex table t = index e
        /\ (forall e', In e' table ->
                       B64.ltb (distance t e') (distance t e) = false)
        /\ (forall j e', (j < i)%nat -> table !! j = Some e' ->
                         B64.leb (distance t e') (distance t e) = false)).
Proof.
  split; [reflexivity|].
  destruct table as [|first rest]; [congruence|]. intros _.
  rewrite findClosestPowerIndex_first.
  destruct (closer_fold t rest [first] first 0%nat) as (i & c & Hf & Hi & Hmin & Hfst).
  - reflexivity.
  - intros e' [<-|[]]. apply ltb_irrefl.
  - intros j e' Hj. lia.
  - exists i, c. rewrite Hf. cbn [fst]. auto.
Qed.

Lemma closest_power_index_witness :
  let table := [ {| index := 5; powerDbm := 10 |};
                 {| index := 2; powerDbm := 30 |} ] in
  exists (i : nat) (e : PowerEntry),
    table !! i = Some e
    /\ findClosestPowerIndex table 20 = index e
    /\ (forall e', In e' table ->
                   B64.ltb (distance 20 e') (distance 20 e) = false)
    /\ (forall j e', (j < i)%nat -> table !! j = Some e' ->
                     B64.leb (distance 20 e') (distance 20 e) = false).
Proof.
  apply (proj2 (closest_power_index
                  [ {| index := 5; powerDbm := 10 |};
                    {| index := 2; powerDbm := 30 |} ] 20)).
  discriminate.
Defined.

(** ** C5 and C6: one step of the tag-record decoder *)

Lemma scanMsb_first (data : Buffer) (offset : Z) :
  forall (n : nat) (k j : Z),
    k <= j < k + Z.of_nat n ->
    offset + j < len data ->
    msbSet data (offset + j) = true ->
    (forall i, k <= i < j -> msbSet data (offset + i) = false) ->
    scanMsb n data offset k = Some j.
Proof.
  induction n as [|n IH]; intros k j Hj Hlen Hset Hclear; [lia|].
  cbn [scanMsb].
  destruct (Z.ltb_spec (offset + k) (len data)); [|lia].
  destruct (msbSet data (offset + k)) eqn:Hk.
  - destruct (Z.eq_dec k j) as [->|Hne]; [reflexivity|].
    rewrite Hclear in Hk by lia. discriminate.
  - destruct (Z.eq_dec k j) as [->|Hne]; [congruence|].
    apply IH; try assumption; [lia|]. intros i Hi. apply Hclear. lia.
Qed.

Lemma scanMsb_none (data : Buffer) (offset : Z) :
  forall (n : nat) (k : Z),
    (forall j, k <= j < k + Z.of_nat n -> offset + j < len data ->
               msbSet data (offset + j) = false) ->
    scanMsb n data offset k = None.
Proof.
  induction n as [|n IH]; intros k Hclear; [reflexivity|].
  cbn [scanMsb].
  destruct (Z.ltb_spec (offset + k) (len data)); [|reflexivity].
  rewrite Hclear by lia. apply IH. intros j Hj. apply Hclear. lia.
Qed.

Lemma tvStep_unknown (data : Buffer) (tag : Tag) (offset : Z) :
  knownTV (Z.land (byte data offset) 127) = false ->
  tvStep data tag offset
  = match scanMsb 16 data offset 1 with
    | Some j => Next tag (offset + j)
    | None => Stop tag
    end.
Proof.
  unfold knownTV, tvStep. cbn [existsb].
  rewrite !orb_false_iff. intros H.
  decompose [and] H. clear H.
  repeat match goal with
  | H : (?a =? ?b) = false |- context [?a =? ?b] => rewrite H
  end.
  reflexivity.
Qed.

(** C5, as stated, fails for a malformed TLV: here the TLV at offset 0
    declares length 0 and the next byte with its MSB set lies 5 bytes
    ahead, within 16 bytes, followed by a complete EPC-96; the decoder
    does not resume there but leaves the record, without EPC. *)
Lemma malformed_tlv_is_not_scanned_16_bytes :
  let data := [0; 0; 0; 0; 0; 141; 48; 10; 0; 1; 2; 3; 4; 5; 6; 7; 8; 9] in
  msbSet data 0 = false
  /\ u16 data 2 = 0
  /\ scanMsb 16 data 0 1 = Some 5
  /\ tagStep data emptyTag 0 = Stop emptyTag
  /\ parseTagReportData data = Ok emptyTag.
Proof. repeat split. Qed.

(** C5, amended. At a TV parameter whose type is not in the table the
    decoder scans the next 16 bytes of the record for a byte with the MSB
    set, resumes at the first one, and abandons the record when there is
    none. At a TLV whose declared length is 0 or overruns the record it
    does the same over the next 4 bytes only. A TLV that declares a length
    of 1 to 3 is not treated as malformed: decoding goes on that many
    bytes further. *)
Theorem resync_windows (data : Buffer) (tag : Tag) (offset : Z) :
  (msbSet data offset = true ->
   knownTV (Z.land (byte data offset) 127) = false ->
   (forall j, firstMsbAt 16 data offset j ->
              tagStep data tag offset = Next tag (offset + j))
   /\ (noMsbWithin 16 data offset -> tagStep data tag offset = Stop tag))
  /\ (msbSet data offset = false ->
      offset + 3 < len data ->
      u16 data (offset + 2) = 0 \/ offset + u16 data (offset + 2) > len data ->
      (forall j, firstMsbAt 4 data offset j ->
                 tagStep data tag offset = Next tag (offset + j))
      /\ (noMsbWithin 4 data offset -> tagStep data tag offset = Stop tag))
  /\ (msbSet data offset = false ->
      offset + 3 < len data ->
      1 <= u16 data (offset + 2) <= 3 ->
      exists tag',
        tagStep data tag offset = Next tag' (offset + u16 data (offset + 2))).
Proof.
  split; [|split].
  - intros Hm Hk. unfold tagStep. rewrite Hm, tvStep_unknown by assumption.
    split.
    + intros j (Hj & Hlen & Hset & Hclear).
      rewrite (scanMsb_first data offset 16 1 j); auto. lia.
    + intros Hnone. rewrite scanMsb_none; [reflexivity|].
      intros j Hj. apply Hnone. lia.
  - intros Hm H3 Hbad. unfold tagStep, tlvStep. rewrite Hm.
    destruct (Z.geb_spec (offset + 3) (len data)); [lia|].
    assert (Hc : (u16 data (offset + 2) =? 0)
                 || (offset + u16 data (offset + 2) >? len data) = true).
    { apply orb_true_iff. destruct Hbad as [->|Hbad]; [left; reflexivity|].
      right. destruct (Z.gtb_spec (offset + u16 data (offset + 2)) (len data));
        [reflexivity|lia]. }
    rewrite Hc. split.
    + intros j (Hj & Hlen & Hset & Hclear).
      rewrite (scanMsb_first data offset 4 1 j); auto. lia.
    + intros Hnone. rewrite scanMsb_none; [reflexivity|].
      intros j Hj. apply Hnone. lia.
  - intros Hm H3 Hl. unfold tagStep, tlvStep. rewrite Hm.
    destruct (Z.geb_spec (offset + 3) (len data)); [lia|].
    destruct (Z.eqb_spec (u16 data (offset + 2)) 0); [lia|].
    destruct (Z.gtb_spec (offset + u16 data (offset + 2)) (len data)); [lia|].
    cbn [orb]. eexists. reflexivity.
Qed.

Lemma resync_windows_witness :
  tagStep [130; 0; 141] emptyTag 0 = Next emptyTag (0 + 2)
  /\ tagStep [0; 0; 0; 0; 0; 0; 141] emptyTag 0 = Stop emptyTag
  /\ exists tag',
       tagStep [0; 5; 0; 2; 141] emptyTag 0
       = Next tag' (0 + u16 [0; 5; 0; 2; 141] (0 + 2)).
Proof.
  split; [|split].
  - apply (proj1 (resync_windows [130; 0; 141] emptyTag 0)); try reflexivity.
    repeat split; try lia.
    intros i Hi. assert (i = 1) as -> by lia. reflexivity.
  - apply (proj1 (proj2 (resync_windows [0; 0; 0; 0; 0; 0; 141] emptyTag 0)));
      try reflexivity; [left; reflexivity|].
    intros j Hj Hlen.
    assert (j = 1 \/ j = 2 \/ j = 3 \/ j = 4) as [->|[->|[->| ->]]] by lia;
      reflexivity.
  - apply (proj2 (proj2 (resync_windows [0; 5; 0; 2; 141] emptyTag 0)));
      try reflexivity. vm_compute. intuition congruence.
Defined.

(** C6, as stated, fails: an EPCData parameter that declares 12 bits
    carries its EPC in [ceil(12/8) = 2] bytes, [AB C0]; the decoder keeps
    [floor(12/8) = 1] byte only. *)
Lemma epc_partial_byte_is_dropped :
  let data := [0; 241; 0; 8; 0; 12; 171; 192] in
  u16 data 4 = 12
  /\ hexUpper (slice data 6 (6 + (12 + 7) / 8)) = "ABC0"%string
  /\ parseTagReportData data = Ok (set_epc (Some "AB"%string) emptyTag).
Proof. repeat split. Qed.

(** C6, amended. For an EPCData parameter (TLV 241) with EPC bit length
    [b] (the 16-bit field at offset 4 of the parameter) the decoder sets
    the EPC to the [floor(b/8)] bytes that follow the bit length, provided
    they lie inside the record. This is the whole EPC when [b] is a
    multiple of 8; otherwise the last, partial byte is left out. *)
Theorem epc_data_whole_bytes (data : Buffer) (tag : Tag) (offset : Z) :
  msbSet data offset = false ->
  offset + 3 < len data ->
  Z.land (u16 data offset) 1023 = 241 ->
  u16 data (offset + 2) <> 0 ->
  offset + u16 data (offset + 2) <= len data ->
  offset + 5 < len data ->
  offset + 6 + u16 data (offset + 4) / 8 <= len data ->
  let b := u16 data (offset + 4) in
  tagStep data tag offset
  = Next (set_epc (Some (hexUpper (slice data (offset + 6)
                                     (offset + 6 + b / 8)))) tag)
         (offset + u16 data (offset + 2))
  /\ (b mod 8 = 0 -> b / 8 = (b + 7) / 8)
  /\ (b mod 8 <> 0 -> b / 8 = (b + 7) / 8 - 1).
Proof.
  intros Hm H3 Ht Hl0 Hfit H5 Hepc b. split; [|split].
  - unfold tagStep, tlvStep. rewrite Hm, Ht.
    destruct (Z.geb_spec (offset + 3) (len data)); [lia|].
    destruct (Z.eqb_spec (u16 data (offset + 2)) 0); [contradiction|].
    destruct (Z.gtb_spec (offset + u16 data (offset + 2)) (len data)); [lia|].
    cbn [orb]. change (241 =? 241) with true. cbv iota.
    destruct (Z.ltb_spec (offset + 5) (len data)); [|lia].
    destruct (Z.leb_spec (offset + 6 + u16 data (offset + 4) / 8) (len data));
      [|lia].
    reflexivity.
  - intros Hb. Z.div_mod_to_equations. lia.
  - intros Hb. Z.div_mod_to_equations. lia.
Qed.

Lemma epc_data_whole_bytes_witness :
  let data := [0; 241; 0; 8; 0; 12; 171; 192] in
  tagStep data emptyTag 0
  = Next (set_epc (Some (hexUpper (slice data (0 + 6)
                                     (0 + 6 + u16 data (0 + 4) / 8)))) emptyTag)
         (0 + u16 data (0 + 2))
  /\ (u16 data (0 + 4) mod 8 = 0 -> u16 data (0 + 4) / 8 = (u16 data (0 + 4) + 7) / 8)
  /\ (u16 data (0 + 4) mod 8 <> 0 ->
      u16 data (0 + 4) / 8 = (u16 data (0 + 4) + 7) / 8 - 1).
Proof.
  apply (epc_data_whole_bytes [0; 241; 0; 8; 0; 12; 171; 192] emptyTag 0);
    vm_compute; congruence.
Defined.

(** ** The walk over the records of a tag report *)

Lemma scanMsb_ge (data : Buffer) (offset : Z) :
  forall (n : nat) (k j : Z), scanMsb n data offset k = Some j -> k <= j.
Proof.
  induction n as [|n IH]; intros k j H; [discriminate|].
  cbn [scanMsb] in H.
  destruct (offset + k <? len data); [|discriminate].
  destruct (msbSet data (offset + k)).
  - injection H as <-. lia.
  - apply IH in H. lia.
Qed.

Lemma tagStep_progress (data : Buffer) (tag tag' : Tag) (offset offset' : Z) :
  isBuffer data = true ->
  tagStep data tag offset = Next tag' offset' -> offset < offset'.
Proof.
  intros Hb. unfold tagStep, tvStep, tlvStep.
  pose proof (u16_range data (offset + 2) Hb).
  repeat match goal with
  | |- context [scanMsb ?n data offset 1] =>
      let E := fresh "E" in
      destruct (scanMsb n data offset 1) eqn:E; [apply scanMsb_ge in E|]
  | |- context [if ?c then _ else _] =>
      let E := fresh "E" in destruct c eqn:E
  end; intros [= <- <-] || discriminate; try lia.
  all: apply orb_false_iff in E1 as [E1 _]; apply Z.eqb_neq in E1; lia.
Qed.

Lemma tagLoop_returns (data : Buffer) :
  isBuffer data = true ->
  forall (fuel : nat) (tag : Tag) (offset : Z),
    (0 < fuel)%nat -> len data - offset < Z.of_nat fuel ->
    exists t, tagLoop fuel data tag offset = Ok t.
Proof.
  intros Hb. induction fuel as [|f IH]; intros tag offset Hpos Hfuel; [lia|].
  cbn [tagLoop].
  destruct (Z.ltb_spec offset (len data)); [|eauto].
  destruct (tagStep data tag offset) as [tag' offset'|tag'] eqn:Hs; [|eauto].
  apply tagStep_progress in Hs; [|assumption].
  apply IH; lia.
Qed.

(** The record decoder always returns. *)
Lemma parseTagReportData_returns (data : Buffer) :
  isBuffer data = true -> exists t, parseTagReportData data = Ok t.
Proof.
  intros Hb. apply tagLoop_returns; [assumption|lia|unfold len; lia].
Qed.




(** The sample report holds two records, of which the first contains an
    EPC: one observation is emitted for it. *)
Example sample_report_observations :
  length (tagRecords Sample.report) = 2%nat
  /\ flat_map (recordEffects Sample.config) (tagRecords Sample.report)
     = [Emit (EvTag {| epc := Some "300A00010203040506070809"%string;
                       antenna := Some 3; rssi := Some (-40);
                       timestamp := None; seenCount := None |})].
Proof. split; reflexivity. Qed.

(** ** C8: parsing a capabilities message twice *)

Lemma insertByPower_perm (e : PowerEntry) (l : list PowerEntry) :
  Permutation (insertByPower e l) (e :: l).
Proof.
  induction l as [|h t IH]; cbn [insertByPower]; [reflexivity|].
  destruct (Qle_bool (powerDbm e) (powerDbm h)); [reflexivity|].
  rewrite IH. apply perm_swap.
Qed.

Lemma sortByPower_perm (l : list PowerEntry) : Permutation (sortByPower l) l.
Proof.
  induction l as [|h t IH]; cbn [sortByPower]; [reflexivity|].
  rewrite insertByPower_perm, IH. reflexivity.
Qed.

Lemma appended_nil (r : Reader) : appended [] [] r r.
Proof. unfold appended. rewrite !app_nil_r. split; reflexivity. Qed.

Lemma appended_trans (E1 E2 : list PowerEntry) (I1 I2 : list Z)
    (r1 r2 r3 : Reader) :
  appended E1 I1 r1 r2 -> appended E2 I2 r2 r3 ->
  appended (E1 ++ E2) (I1 ++ I2) r1 r3.
Proof.
  unfold appended. intros [P1 H1] [P2 H2]. split.
  - rewrite P2, P1, <- app_assoc. reflexivity.
  - rewrite H2, H1, <- app_assoc. reflexivity.
Qed.

Lemma uniform_ret : uniform Ok.
Proof. left. exists [], []. intros r. exists r. split; [reflexivity|apply appended_nil]. Qed.

Lemma uniform_bind (f g : Reader -> result Reader) :
  uniform f -> uniform g -> uniform (fun r => let! r1 := f r in g r1).
Proof.
  intros [(E1 & I1 & Hf)|[Hf|Hf]] Hg.
  - destruct Hg as [(E2 & I2 & Hg)|[Hg|Hg]].
    + left. exists (E1 ++ E2), (I1 ++ I2). intros r.
      destruct (Hf r) as (r1 & -> & A1). destruct (Hg r1) as (r2 & Hr2 & A2).
      exists r2. cbn [rbind]. split; [assumption|].
      eapply appended_trans; eassumption.
    + right; left. intros r. destruct (Hf r) as (r1 & -> & _). apply Hg.
    + right; right. intros r. destruct (Hf r) as (r1 & -> & _). apply Hg.
  - right; left. intros r. rewrite Hf. reflexivity.
  - right; right. intros r. rewrite Hf. reflexivity.
Qed.

Lemma tlvLoop_uniform (body : Z -> Z -> Z -> Reader -> result Reader) :
  (forall t l o, uniform (body t l o)) ->
  forall (fuel : nat) (data : Buffer) (offset : Z),
    uniform (tlvLoop fuel body data offset).
Proof.
  intros Hbody. induction fuel as [|f IH]; intros data offset.
  - right; right. reflexivity.
  - cbn [tlvLoop]. destruct (tlvHeader data offset) as [[t l]|].
    + apply (uniform_bind (body t l offset) (tlvLoop f body data (offset + l)));
        auto.
    + apply uniform_ret.
Qed.

Lemma uhfBody_uniform (data : Buffer) (t l o : Z) : uniform (uhfBody data t l o).
Proof.
  unfold uhfBody.
  repeat match goal with |- context [if ?c then _ else _] => destruct c end;
    try apply uniform_ret.
  - left. eexists [_], []. intros r. eexists. split; [reflexivity|].
    unfold appended. cbn. rewrite app_nil_r. split; reflexivity.
  - left. eexists [], [_]. intros r. eexists. split; [reflexivity|].
    unfold appended. cbn. rewrite app_nil_r. split; reflexivity.
Qed.

Lemma parseUHFBandCapabilities_uniform (data : Buffer) :
  uniform (parseUHFBandCapabilities data).
Proof.
  unfold parseUHFBandCapabilities.
  apply (uniform_bind (tlvLoop (S (length data)) (uhfBody data) data 4)
           (fun r1 => Ok (set_powerTable (sortByPower (powerTable r1)) r1))).
  - apply tlvLoop_uniform, uhfBody_uniform.
  - left. exists [], []. intros r. eexists. split; [reflexivity|].
    unfold appended. cbn. rewrite !app_nil_r.
    split; [apply sortByPower_perm|reflexivity].
Qed.

Lemma parseRegulatoryCapabilities_uniform (data : Buffer) :
  uniform (parseRegulatoryCapabilities data).
Proof.
  unfold parseRegulatoryCapabilities.
  destruct (4 + 4 >? len data); [apply uniform_ret|].
  apply tlvLoop_uniform. intros t l o. unfold regulatoryBody.
  destruct (t =? 144);
    [apply parseUHFBandCapabilities_uniform|apply uniform_ret].
Qed.

Lemma capabilitiesBody_uniform (data : Buffer) (t l o : Z) :
  uniform (capabilitiesBody data t l o).
Proof.
  unfold capabilitiesBody.
  destruct (t =? _);
    [apply parseRegulatoryCapabilities_uniform|apply uniform_ret].
Qed.

(** C8, as stated, fails: the second parse of the sample capabilities
    message, run on the state the first parse left, ends with every power
    entry and the hop-table id twice. *)
Lemma second_parse_doubles_tables :
  exists r1 r2,
    parseCapabilities Sample.capabilities Sample.live = Ok (true, r1)
    /\ parseCapabilities Sample.capabilities r1 = Ok (true, r2)
    /\ powerTable r1 = [ {| index := 1; powerDbm := 1000 # 100 |};
                         {| index := 200; powerDbm := 3000 # 100 |} ]
    /\ powerTable r2 = [ {| index := 1; powerDbm := 1000 # 100 |};
                         {| index := 1; powerDbm := 1000 # 100 |};
                         {| index := 200; powerDbm := 3000 # 100 |};
                         {| index := 200; powerDbm := 3000 # 100 |} ]
    /\ hopTableIds r1 = [1]
    /\ hopTableIds r2 = [1; 1].
Proof. do 2 eexists. repeat split; vm_compute; reflexivity. Qed.

(** C8, amended. The parser appends to the tables it finds (they are
    emptied on reconnect only). A second parse of the same message on the
    state left by the first succeeds like the first and adds the message's
    entries once more: the hop-table ids of the message are appended
    again, the power table is a rearrangement of the first result and the
    message's power entries, and the selected hop-table id is the same. *)
Theorem second_parse_appends_again (data : Buffer) (r r1 : Reader) :
  parseCapabilities data r = Ok (true, r1) ->
  exists (r2 : Reader) (E : list PowerEntry) (I : list Z),
    parseCapabilities data r1 = Ok (true, r2)
    /\ Permutation (powerTable r1) (powerTable r ++ E)
    /\ Permutation (powerTable r2) (powerTable r1 ++ E)
    /\ hopTableIds r1 = hopTableIds r ++ I
    /\ hopTableIds r2 = hopTableIds r1 ++ I
    /\ hopTableId r2 = hopTableId r1.
Proof.
  unfold parseCapabilities.
  destruct (capabilitiesStatus data) as [[off|]| |]; cbn [rbind];
    try discriminate.
  destruct (tlvLoop_uniform (capabilitiesBody data)
              (capabilitiesBody_uniform data) (S (length data)) data off)
    as [(E & I & Hu)|[Hu|Hu]].
  - destruct (Hu r) as (ra & Ha & Pa & Ia). rewrite Ha. cbn [rbind].
    intros [= <-].
    assert (Hsel : forall x, powerTable (selectHopTableId x) = powerTable x
                             /\ hopTableIds (selectHopTableId x) = hopTableIds x)
      by (intros x; unfold selectHopTableId;
          destruct (hopTableIds x) eqn:Hx; cbn; rewrite ?Hx; split; reflexivity).
    destruct (Hsel ra) as [Hp1 Hh1].
    destruct (Hu (selectHopTableId ra)) as (rb & Hb & Pb & Ib).
    rewrite Hb. cbn [rbind].
    destruct (Hsel rb) as [Hp2 Hh2].
    eexists _, E, I. split; [reflexivity|].
    rewrite Hp1, Hh1 in *. rewrite Hp2, Hh2.
    repeat split; try assumption.
    unfold selectHopTableId. rewrite Ib.
    destruct (hopTableIds ra) as [|h t] eqn:Hra; cbn [app]; [|reflexivity].
    symmetry in Ia. apply app_eq_nil in Ia as [_ ->]. reflexivity.
  - rewrite Hu. discriminate.
  - rewrite Hu. discriminate.
Qed.

Lemma second_parse_appends_again_witness :
  exists (r2 : Reader) (E : list PowerEntry) (I : list Z),
    parseCapabilities Sample.capabilities
      (set_hopTableIds [1]
         (set_powerTable [ {| index := 1; powerDbm := 1000 # 100 |};
                           {| index := 200; powerDbm := 3000 # 100 |} ]
            Sample.live))
    = Ok (true, r2)
    /\ Permutation [ {| index := 1; powerDbm := 1000 # 100 |};
                     {| index := 200; powerDbm := 3000 # 100 |} ]
                   (powerTable Sample.live ++ E)
    /\ Permutation (powerTable r2)
         ([ {| index := 1; powerDbm := 1000 # 100 |};
            {| index := 200; powerDbm := 3000 # 100 |} ] ++ E)
    /\ [1] = hopTableIds Sample.live ++ I
    /\ hopTableIds r2 = [1] ++ I
    /\ hopTableId r2 = 1.
Proof.
  apply (second_parse_appends_again Sample.capabilities Sample.live
           (set_hopTableIds [1]
              (set_powerTable [ {| index := 1; powerDbm := 1000 # 100 |};
                                {| index := 200; powerDbm := 3000 # 100 |} ]
                 Sample.live))).
  vm_compute. reflexivity.
Defined.

(** ** C9: the structure of the ROSpec *)

Lemma byte_app_r (pre x : Buffer) (i : Z) :
  0 <= i -> byte (pre ++ x) (len pre + i) = byte x i.
Proof.
  intros Hi. unfold byte, at_, len.
  destruct (Z.ltb_spec (Z.of_nat (length pre) + i) 0); [lia|].
  destruct (Z.ltb_spec i 0); [lia|].
  replace (Z.to_nat (Z.of_nat (length pre) + i))
    with (length pre + Z.to_nat i)%nat by lia.
  rewrite nth_error_app2 by lia.
  replace (length pre + Z.to_nat i - length pre)%nat with (Z.to_nat i) by lia.
  reflexivity.
Qed.

Lemma u16_app_r (pre x : Buffer) (i : Z) :
  0 <= i -> u16 (pre ++ x) (len pre + i) = u16 x i.
Proof.
  intros Hi. unfold u16. rewrite <- Z.add_assoc.
  rewrite !byte_app_r by lia. reflexivity.
Qed.

Lemma slice_app_mid (pre v post : Buffer) :
  slice (pre ++ v ++ post) (len pre) (len pre + len v) = v.
Proof.
  unfold slice, len.
  replace (Z.to_nat (Z.of_nat (length pre) + Z.of_nat (length v)
                     - Z.of_nat (length pre))) with (length v) by lia.
  rewrite Nat2Z.id, drop_app_length. apply take_app_length.
Qed.

Lemma tlv_ok (t : Z) (v : Buffer) :
  0 <= t <= 65535 -> 4 + len v <= 65535 -> tlv t v = Ok (tlvBytes t v).
Proof.
  intros Ht Hl. unfold tlv. pose proof (len_nonneg v).
  rewrite !writeUInt16BE_ok by lia. reflexivity.
Qed.

Lemma len_tlvBytes (t : Z) (v : Buffer) : len (tlvBytes t v) = 4 + len v.
Proof. unfold tlvBytes, be16. len_simpl. lia. Qed.

Lemma tlvHeader_tlvBytes (pre v post : Buffer) (t : Z) :
  0 <= t < 1024 -> 4 + len v <= 65535 ->
  tlvHeader (pre ++ tlvBytes t v ++ post) (len pre) = Some (t, 4 + len v).
Proof.
  intros Ht Hl. pose proof (len_nonneg v). pose proof (len_nonneg post).
  unfold tlvHeader.
  rewrite !len_app, len_tlvBytes.
  destruct (Z.leb_spec (len pre + 4) (len pre + (4 + len v + len post)));
    [|lia].
  assert (H16 : u16 (pre ++ tlvBytes t v ++ post) (len pre) = t).
  { replace (len pre) with (len pre + 0) by lia.
    rewrite u16_app_r by lia.
    unfold tlvBytes, be16, u16, byte, at_. cbn.
    apply be16_value. lia. }
  assert (HL : u16 (pre ++ tlvBytes t v ++ post) (len pre + 2) = 4 + len v).
  { rewrite u16_app_r by lia.
    unfold tlvBytes, be16, u16, byte, at_. cbn.
    apply be16_value. lia. }
  rewrite H16, HL.
  destruct (Z.eqb_spec (4 + len v) 0); [lia|].
  destruct (Z.gtb_spec (4 + len v)
              (len pre + (4 + len v + len post) - len pre)); [lia|].
  cbn [orb]. f_equal. f_equal.
  change 1023 with (Z.ones 10). rewrite Z.land_ones by lia.
  apply Z.mod_small. change (2 ^ 10) with 1024. lia.
Qed.

Lemma tlvBytes_value (pre v post : Buffer) (t : Z) :
  slice (pre ++ tlvBytes t v ++ post) (len pre + 4) (len pre + (4 + len v)) = v.
Proof.
  unfold tlvBytes.
  replace (pre ++ (be16 t ++ be16 (4 + len v) ++ v) ++ post)
    with ((pre ++ be16 t ++ be16 (4 + len v)) ++ v ++ post)
    by (rewrite <- !app_assoc; reflexivity).
  replace (len pre + 4) with (len (pre ++ be16 t ++ be16 (4 + len v)))
    by (unfold be16; len_simpl; lia).
  replace (len pre + (4 + len v))
    with (len (pre ++ be16 t ++ be16 (4 + len v)) + len v)
    by (unfold be16; len_simpl; lia).
  apply slice_app_mid.
Qed.

(** Walking a sequence of encoded TLV parameters gives the parameters back. *)
Lemma tlvParams_tlvSeq :
  forall (items : list (Z * Buffer)) (pre : Buffer) (fuel : nat),
    Forall (fun it => 0 <= fst it < 1024 /\ 4 + len (snd it) <= 65535) items ->
    (length items < fuel)%nat ->
    map (valueOf (pre ++ tlvSeq items))
        (tlvParams fuel (pre ++ tlvSeq items) (len pre))
    = items.
Proof.
  induction items as [|[t v] rest IH]; intros pre fuel Hok Hfuel.
  - destruct fuel as [|f]; [reflexivity|]. cbn [tlvParams tlvSeq].
    unfold tlvHeader. rewrite app_nil_r.
    destruct (Z.leb_spec (len pre + 4) (len pre)); [lia|]. reflexivity.
  - destruct fuel as [|f]; [cbn in Hfuel; lia|].
    inversion Hok as [|? ? [Ht Hl] Hrest]; subst. cbn [fst snd] in Ht, Hl.
    cbn [tlvParams tlvSeq].
    rewrite tlvHeader_tlvBytes by assumption.
    cbn [map]. unfold valueOf at 1. cbn [fst snd].
    rewrite tlvBytes_value. f_equal.
    replace (pre ++ tlvBytes t v ++ tlvSeq rest)
      with ((pre ++ tlvBytes t v) ++ tlvSeq rest)
      by (rewrite <- app_assoc; reflexivity).
    replace (len pre + (4 + len v)) with (len (pre ++ tlvBytes t v))
      by (rewrite len_app, len_tlvBytes; lia).
    apply IH; [assumption|cbn in Hfuel; lia].
Qed.

Lemma length_tlvSeq (items : list (Z * Buffer)) :
  (length items <= length (tlvSeq items))%nat.
Proof.
  induction items as [|[t v] rest IH]; [reflexivity|].
  cbn [tlvSeq length]. unfold tlvBytes, be16.
  rewrite !List.length_app. cbn [length]. lia.
Qed.

Lemma paramValues_tlvSeq (items : list (Z * Buffer)) (pre : Buffer) :
  Forall (fun it => 0 <= fst it < 1024 /\ 4 + len (snd it) <= 65535) items ->
  paramValues (pre ++ tlvSeq items) (len pre) = items.
Proof.
  intros Hok. unfold paramValues, paramsFrom.
  apply (tlvParams_tlvSeq items pre _ Hok).
  rewrite List.length_app. pose proof (length_tlvSeq items). lia.
Qed.

Lemma len_be16 (v : Z) : len (be16 v) = 2.
Proof. reflexivity. Qed.

Lemma len_flat_be16 (ants : list Z) : len (flat_map be16 ants) = 2 * len ants.
Proof.
  induction ants as [|a ants IH]; [reflexivity|].
  cbn [flat_map]. rewrite len_app, len_be16, IH, len_cons. lia.
Qed.

Lemma len_confValue (r : Reader) (a : Z) : len (confValue r a) = 12.
Proof. reflexivity. Qed.

Lemma len_confs (r : Reader) (ants : list Z) :
  len (tlvSeq (map (fun a => (222, confValue r a)) ants)) = 16 * len ants.
Proof.
  induction ants as [|a ants IH]; [reflexivity|].
  cbn [map tlvSeq]. rewrite len_app, len_tlvBytes, len_confValue, IH, len_cons.
  lia.
Qed.

Lemma concatMap_be16 (ants : list Z) :
  Forall (fun a => 0 <= a <= 65535) ants ->
  concatMap writeUInt16BE ants = Ok (flat_map be16 ants).
Proof.
  induction 1 as [|a ants Ha _ IH]; [reflexivity|].
  cbn [concatMap flat_map]. rewrite writeUInt16BE_ok by assumption.
  rewrite IH. reflexivity.
Qed.

Lemma antennaConfiguration_ok (r : Reader) (a : Z) :
  0 <= a <= 65535 -> 0 <= powerIndexFor r a <= 65535 ->
  0 <= hopTableId r <= 65535 ->
  antennaConfiguration r a = Ok (tlvBytes 222 (confValue r a)).
Proof.
  intros Ha Hp Hh. unfold antennaConfiguration, rfTransmitter.
  rewrite !writeUInt16BE_ok by lia. cbn [rbind].
  rewrite tlv_ok by (len_simpl; lia). cbn [rbind].
  rewrite tlv_ok by (unfold tlvBytes, be16; len_simpl; lia).
  unfold confValue, txValue. cbn [tlvSeq]. rewrite app_nil_r. reflexivity.
Qed.

Lemma concatMap_confs (r : Reader) (ants : list Z) :
  Forall (fun a => 0 <= a <= 65535 /\ 0 <= powerIndexFor r a <= 65535) ants ->
  0 <= hopTableId r <= 65535 ->
  concatMap (antennaConfiguration r) ants
  = Ok (tlvSeq (map (fun a => (222, confValue r a)) ants)).
Proof.
  intros Hants Hh. induction Hants as [|a ants [Ha Hp] _ IH]; [reflexivity|].
  cbn [concatMap map tlvSeq].
  rewrite antennaConfiguration_ok by assumption. rewrite IH. reflexivity.
Qed.

Lemma buildROSpec_ok (config : Config) (r : Reader) :
  Forall (fun a => 0 <= a <= 65535 /\ 0 <= powerIndexFor r a <= 65535)
         (antennas config) ->
  0 <= hopTableId r <= 65535 ->
  len (antennas config) <= 3637 ->
  buildROSpec config r = Ok (tlvBytes 177 (rospecValue r (antennas config))).
Proof.
  intros Hants Hh HN. pose proof (len_nonneg (antennas config)) as H0.
  assert (Hids : Forall (fun a => 0 <= a <= 65535) (antennas config))
    by (eapply List.Forall_impl; [|exact Hants]; cbn; tauto).
  unfold buildROSpec, inventoryParameterSpecWithAntennas.
  change (writeUInt32BE 1) with (Ok [0; 0; 0; 1] : result Buffer).
  change (writeUInt8 0) with (Ok [0] : result Buffer).
  change (writeUInt8 1) with (Ok [1] : result Buffer).
  change (writeUInt16BE 1) with (Ok [0; 1] : result Buffer).
  change (tlv 179 [0]) with (Ok (tlvBytes 179 [0])).
  change (stopTriggerTLV 182 0 0) with (Ok (tlvBytes 182 [0; 0; 0; 0; 0])).
  change (stopTriggerTLV 184 0 0) with (Ok (tlvBytes 184 [0; 0; 0; 0; 0])).
  change (tlv 238 [0; 0]) with (Ok (tlvBytes 238 [0; 0])).
  cbn [rbind].
  change (tlv 178 (tlvBytes 179 [0] ++ tlvBytes 182 [0; 0; 0; 0; 0]))
    with (Ok (tlvBytes 178 boundaryValue)).
  change (tlv 237 (([1] ++ [0; 1]) ++ tlvBytes 238 [0; 0]))
    with (Ok (tlvBytes 237 reportValue)).
  cbn [rbind].
  rewrite writeUInt16BE_ok by lia. cbn [rbind].
  rewrite concatMap_be16 by assumption. cbn [rbind].
  rewrite concatMap_confs by assumption. cbn [rbind].
  pose proof (len_confs r (antennas config)) as Hc.
  pose proof (len_flat_be16 (antennas config)) as Hf.
  rewrite tlv_ok by (len_simpl; lia). cbn [rbind].
  fold (be16 (len (antennas config))).
  change ([0; 1] ++ [1] ++ tlvSeq (map (fun a => (222, confValue r a))
                                        (antennas config)))
    with (invValue r (antennas config)).
  assert (Hi : len (invValue r (antennas config))
               = 3 + 16 * len (antennas config))
    by (unfold invValue; len_simpl; lia).
  assert (Hai : (be16 (len (antennas config)) ++ flat_map be16 (antennas config))
                ++ tlvBytes 184 [0; 0; 0; 0; 0]
                ++ tlvBytes 186 (invValue r (antennas config))
                = aiValue r (antennas config)).
  { unfold aiValue. cbn [tlvSeq]. rewrite app_nil_r. reflexivity. }
  rewrite Hai.
  assert (Ha : len (aiValue r (antennas config))
               = 18 + 18 * len (antennas config)).
  { rewrite <- Hai. rewrite !len_app, !len_tlvBytes, len_be16, Hf, Hi.
    len_simpl. lia. }
  rewrite tlv_ok by lia. cbn [rbind].
  assert (Hro : ([0; 0; 0; 1] ++ [0] ++ [0]) ++ tlvBytes 178 boundaryValue
                ++ tlvBytes 183 (aiValue r (antennas config))
                ++ tlvBytes 237 reportValue
                = rospecValue r (antennas config)).
  { unfold rospecValue. cbn [tlvSeq]. rewrite app_nil_r. reflexivity. }
  rewrite Hro.
  apply tlv_ok; [lia|].
  rewrite <- Hro. rewrite !len_app, !len_tlvBytes, Ha.
  change (len boundaryValue) with 14. change (len reportValue) with 9.
  len_simpl. lia.
Qed.

Lemma len_invValue (r : Reader) (ants : list Z) :
  len (invValue r ants) = 3 + 16 * len ants.
Proof. unfold invValue. rewrite len_app, len_confs. len_simpl. lia. Qed.

Lemma len_aiValue (r : Reader) (ants : list Z) :
  len (aiValue r ants) = 18 + 18 * len ants.
Proof.
  unfold aiValue. cbn [tlvSeq].
  rewrite !len_app, !len_tlvBytes, len_be16, len_flat_be16, len_invValue.
  len_simpl. lia.
Qed.

Lemma len_rospecValue (r : Reader) (ants : list Z) :
  len (rospecValue r ants) = 59 + 18 * len ants.
Proof.
  unfold rospecValue. cbn [tlvSeq].
  rewrite !len_app, !len_tlvBytes, len_aiValue.
  change (len boundaryValue) with 14. change (len reportValue) with 9.
  len_simpl. lia.
Qed.

Lemma len_boundaryValue : len boundaryValue = 14.
Proof. reflexivity. Qed.

Lemma len_reportValue : len reportValue = 9.
Proof. reflexivity. Qed.

Ltac items_ok :=
  repeat (apply List.Forall_cons; [cbn [fst snd]; split; [lia|] |]);
  try apply List.Forall_nil;
  rewrite ?len_boundaryValue, ?len_reportValue; len_simpl; try lia.

(** C9. For antenna ids, power indices and a hop-table id that fit their
    16-bit fields (and an antenna list whose ROSpec fits a 16-bit length),
    the builder returns a ROSpec (177) that the parameter walk reads back
    as ROBoundarySpec, AISpec and ROReportSpec; the AISpec holds the stop
    trigger and one InventoryParameterSpec with one AntennaConfiguration
    (222) per antenna; every AntennaConfiguration holds exactly one
    parameter, the RFTransmitter (224), hence no C1G2InventoryCommand
    (330); and the ROReportSpec holds one TagReportContentSelector (238)
    whose value is the two bytes 00 00. *)
Theorem rospec_structure (config : Config) (r : Reader) :
  Forall (fun a => 0 <= a <= 65535 /\ 0 <= powerIndexFor r a <= 65535)
         (antennas config) ->
  0 <= hopTableId r <= 65535 ->
  len (antennas config) <= 3637 ->
  let ants := antennas config in
  exists bs,
    buildROSpec config r = Ok bs
    /\ paramValues bs 0 = [(177, rospecValue r ants)]
    /\ paramValues (rospecValue r ants) 6
       = [(178, boundaryValue); (183, aiValue r ants); (237, reportValue)]
    /\ paramValues (aiValue r ants) (2 + 2 * len ants)
       = [(184, [0; 0; 0; 0; 0]); (186, invValue r ants)]
    /\ paramValues (invValue r ants) 3
       = map (fun a => (222, confValue r a)) ants
    /\ (forall c, In c (paramValues (invValue r ants) 3) ->
          fst c = 222
          /\ exists tx, paramValues (snd c) 2 = [(224, tx)]
          /\ forall p, In p (paramValues (snd c) 2) -> fst p <> 330)
    /\ paramValues reportValue 3 = [(238, [0; 0])].
Proof.
  intros Hants Hh HN ants. pose proof (len_nonneg ants) as H0.
  fold ants in HN.
  exists (tlvBytes 177 (rospecValue r ants)).
  split; [apply buildROSpec_ok; assumption|].
  pose proof (len_rospecValue r ants) as Lr.
  pose proof (len_aiValue r ants) as La.
  pose proof (len_invValue r ants) as Li.
  assert (Hinv : paramValues (invValue r ants) 3
                 = map (fun a => (222, confValue r a)) ants).
  { apply (paramValues_tlvSeq _ [0; 1; 1]).
    apply List.Forall_forall. intros it Hit.
    apply in_map_iff in Hit as (a & <- & _). cbn [fst snd].
    rewrite len_confValue. lia. }
  assert (Hconf : forall a, paramValues (confValue r a) 2 = [(224, txValue r a)]).
  { intros a.
    apply (paramValues_tlvSeq [(224, txValue r a)] (be16 a)).
    items_ok. unfold txValue, be16. len_simpl. lia. }
  split; [|split; [|split; [|split; [|split]]]].
  - rewrite <- (app_nil_r (tlvBytes _ _)).
    apply (paramValues_tlvSeq [(177, rospecValue r ants)] []).
    items_ok.
  - apply (paramValues_tlvSeq
             [(178, boundaryValue); (183, aiValue r ants); (237, reportValue)]
             [0; 0; 0; 1; 0; 0]).
    items_ok.
  - replace (2 + 2 * len ants)
      with (len (be16 (len ants) ++ flat_map be16 ants))
      by (rewrite len_app, len_be16, len_flat_be16; lia).
    apply (paramValues_tlvSeq
             [(184, [0; 0; 0; 0; 0]); (186, invValue r ants)]).
    items_ok.
  - exact Hinv.
  - intros c Hc. rewrite Hinv in Hc. apply in_map_iff in Hc as (a & <- & _).
    cbn [fst snd]. split; [reflexivity|].
    exists (txValue r a). rewrite Hconf. split; [reflexivity|].
    intros p [<-|[]]. cbn [fst]. lia.
  - apply (paramValues_tlvSeq [(238, [0; 0])] [1; 0; 1]).
    items_ok.
Qed.

Lemma rospec_structure_witness :
  exists bs,
    buildROSpec Sample.config Sample.live = Ok bs
    /\ paramValues bs 0 = [(177, rospecValue Sample.live [1])]
    /\ paramValues (rospecValue Sample.live [1]) 6
       = [(178, boundaryValue); (183, aiValue Sample.live [1]);
          (237, reportValue)]
    /\ paramValues (aiValue Sample.live [1]) (2 + 2 * len [1])
       = [(184, [0; 0; 0; 0; 0]); (186, invValue Sample.live [1])]
    /\ paramValues (invValue Sample.live [1]) 3
       = map (fun a => (222, confValue Sample.live a)) [1]
    /\ (forall c, In c (paramValues (invValue Sample.live [1]) 3) ->
          fst c = 222
          /\ exists tx, paramValues (snd c) 2 = [(224, tx)]
          /\ forall p, In p (paramValues (snd c) 2) -> fst p <> 330)
    /\ paramValues reportValue 3 = [(238, [0; 0])].
Proof.
  apply (rospec_structure Sample.config Sample.live).
  - repeat constructor; vm_compute; congruence.
  - vm_compute. intuition congruence.
  - vm_compute. congruence.
Defined.

(** ** The session lifecycle and the scenarios of the specification *)

(** The reconnect timer callback starts the next session from scratch:
    this is the only place where the tables are emptied and the started
    flag is taken back. *)
Lemma reconnect_resets_session (r : Reader) :
  let r' := onReconnectTimer r in
  powerTable r' = [] /\ hopTableIds r' = [] /\ antennaPowerIndex r' = ∅
  /\ hopTableId r' = 1 /\ rospecStarted r' = false /\ messageId r' = 1
  /\ buffer r' = [].
Proof.
  unfold onReconnectTimer, connect. cbn.
  destruct (isShuttingDown r); repeat split.
Qed.

(** A closed socket schedules a reconnect after [reconnectInterval] when
    reconnecting is enabled and no shutdown was requested, and only then. *)
Lemma close_schedules_reconnect (config : Config) (r : Reader) :
  snd (onClose config r)
  = if isShuttingDown r then []
    else if shouldReconnect r
         then Emit EvDisconnect
              :: (if reconnectTimer r then [ClearTimeout] else [])
              ++ [SetTimeout TimerReconnect (reconnectInterval config)]
         else [Emit EvDisconnect].
Proof.
  unfold onClose, scheduleReconnect. cbn.
  destruct (isShuttingDown r), (shouldReconnect r); reflexivity.
Qed.

(** After [disconnect] a closed socket schedules nothing. *)
Lemma disconnect_stops_reconnect (config : Config) (r r' : Reader)
    (out : list Effect) :
  disconnect r = Ok (r', out) -> snd (onClose config r') = [].
Proof.
  intros H. rewrite close_schedules_reconnect.
  assert (Hs : isShuttingDown r' = true); [|rewrite Hs; reflexivity].
  unfold disconnect in H.
  set (r2 := if reconnectTimer _ then _ else _) in H.
  assert (H2 : isShuttingDown r2 = true)
    by (unfold r2; cbn; destruct (reconnectTimer r); reflexivity).
  destruct (socket r2).
  - unfold andThen in H. cbn [rbind fst snd] in H.
    destruct (connected r2).
    + destruct (sendCloseConnection r2) as [[r4 o4]| |] eqn:Hc;
        cbn [rbind fst snd] in H; try discriminate.
      injection H as <- _.
      apply sendMessage_keeps in Hc as [[(_ & _ & _ & _ & Hk) _] _].
      congruence.
    + cbn [rbind fst snd] in H. injection H as <- _. assumption.
  - injection H as <- _. assumption.
Qed.

(** S1: the capabilities of the sample reader give the power table
    10 dBm / 30 dBm, hop table 1 and, for the requested 30 dBm, power
    index 200; DELETE_ROSPEC (21) for ROSpec 0 is sent. *)
Example scenario_minimum_connect :
  exists r,
    processMessage Sample.config Sample.capabilities Sample.live
    = Ok (r, [SocketWrite [4; 21; 0; 0; 0; 14; 0; 0; 0; 1; 0; 0; 0; 0]])
    /\ map index (powerTable r) = [1; 200]
    /\ hopTableId r = 1
    /\ antennaPowerIndex r !! 1 = Some 200.
Proof. eexists. repeat split; vm_compute; reflexivity. Qed.

(** S2: without power entries and hop tables the index falls back to
    [clamp(round(30), 1, 100) = 30] and the hop table to 1. *)
Example scenario_fallback_power_index :
  exists r,
    processMessage Sample.config Sample.bareCapabilities Sample.live
    = Ok (r, [SocketWrite [4; 21; 0; 0; 0; 14; 0; 0; 0; 1; 0; 0; 0; 0]])
    /\ powerTable r = []
    /\ hopTableId r = 1
    /\ antennaPowerIndex r !! 1 = Some 30.
Proof. eexists. repeat split; vm_compute; reflexivity. Qed.

(** S6: a KEEPALIVE is answered with a KEEPALIVE_ACK (72) that is a bare
    10-byte header carrying the next message id. *)
Example scenario_keepalive :
  processMessage Sample.config Sample.keepalive (set_messageId 9 Sample.live)
  = Ok (set_messageId 10 Sample.live,
        [SocketWrite [4; 72; 0; 0; 0; 10; 0; 0; 0; 9]]).
Proof. reflexivity. Qed.

(* ===================================================================== *)
(** * Further properties of the engine *)
(* ===================================================================== *)

(** ** The dispatcher does not look at the receive buffer *)

Lemma mapStep_andThen (g : Reader -> Reader) (s : Step)
    (k k' : Reader -> Step) :
  (forall r, k' (g r) = mapStep g (k r)) ->
  andThen (mapStep g s) k' = mapStep g (andThen s k).
Proof.
  intros Hk. destruct s as [[r o]| |]; try reflexivity.
  unfold andThen. cbn [mapStep rbind fst snd]. rewrite Hk.
  destruct (k r) as [[r' o']| |]; reflexivity.
Qed.

Lemma tlvLoop_commute (g : Reader -> Reader)
    (body : Z -> Z -> Z -> Reader -> result Reader) :
  (forall t l o r,
     body t l o (g r) = let! r' := body t l o r in Ok (g r')) ->
  forall (fuel : nat) (data : Buffer) (offset : Z) (r : Reader),
    tlvLoop fuel body data offset (g r)
    = let! r' := tlvLoop fuel body data offset r in Ok (g r').
Proof.
  intros Hbody. induction fuel as [|f IH]; intros data offset r;
    [reflexivity|].
  cbn [tlvLoop]. destruct (tlvHeader data offset) as [[t l]|]; [|reflexivity].
  rewrite Hbody. destruct (body t l offset r) as [r1| |]; cbn [rbind];
    try reflexivity.
  apply IH.
Qed.

Section BufferIndependence.

Variable z : Buffer.

Lemma uhfBody_buffer (data : Buffer) (t l o : Z) (r : Reader) :
  uhfBody data t l o (set_buffer z r)
  = let! r' := uhfBody data t l o r in Ok (set_buffer z r').
Proof using Type.
  unfold uhfBody.
  repeat match goal with |- context [if ?c then _ else _] => destruct c end;
    reflexivity.
Qed.

Lemma parseUHFBandCapabilities_buffer (data : Buffer) (r : Reader) :
  parseUHFBandCapabilities data (set_buffer z r)
  = let! r' := parseUHFBandCapabilities data r in Ok (set_buffer z r').
Proof using Type.
  unfold parseUHFBandCapabilities.
  rewrite (tlvLoop_commute (set_buffer z)) by apply uhfBody_buffer.
  destruct (tlvLoop _ _ _ _ r); reflexivity.
Qed.

Lemma parseRegulatoryCapabilities_buffer (data : Buffer) (r : Reader) :
  parseRegulatoryCapabilities data (set_buffer z r)
  = let! r' := parseRegulatoryCapabilities data r in Ok (set_buffer z r').
Proof using Type.
  unfold parseRegulatoryCapabilities.
  destruct (4 + 4 >? len data); [reflexivity|].
  apply tlvLoop_commute. intros t l o r0. unfold regulatoryBody.
  destruct (t =? 144); [apply parseUHFBandCapabilities_buffer|reflexivity].
Qed.

Lemma parseCapabilities_buffer (data : Buffer) (r : Reader) :
  parseCapabilities data (set_buffer z r)
  = let! p := parseCapabilities data r in Ok (fst p, set_buffer z (snd p)).
Proof using Type.
  unfold parseCapabilities.
  destruct (capabilitiesStatus data) as [[off|]| |]; try reflexivity.
  cbn [rbind].
  rewrite (tlvLoop_commute (set_buffer z)).
  - destruct (tlvLoop _ _ _ _ r) as [r1| |]; cbn [rbind fst snd];
      try reflexivity.
    unfold selectHopTableId. cbn [hopTableIds set_buffer].
    destruct (hopTableIds r1); reflexivity.
  - intros t l o r0. unfold capabilitiesBody.
    destruct (t =? _); [apply parseRegulatoryCapabilities_buffer|reflexivity].
Qed.

Lemma computePowerIndices_buffer (config : Config) (r : Reader) :
  computePowerIndices config (set_buffer z r)
  = set_buffer z (computePowerIndices config r).
Proof using Type.
  unfold computePowerIndices. revert r.
  induction (antennas config) as [|a l IH]; intros r; [reflexivity|].
  cbn [fold_left]. rewrite <- IH. reflexivity.
Qed.

Lemma sendMessage_buffer (type : Z) (payload : Buffer) (r : Reader) :
  sendMessage type payload (set_buffer z r)
  = mapStep (set_buffer z) (sendMessage type payload r).
Proof using Type.
  unfold sendMessage. cbn [socket connected messageId set_buffer].
  destruct (negb (socket r) || negb (connected r)); [reflexivity|].
  destruct (frame _ _ _); reflexivity.
Qed.

Lemma processMessage_buffer (config : Config) (data : Buffer) (r : Reader) :
  processMessage config data (set_buffer z r)
  = mapStep (set_buffer z) (processMessage config data r).
Proof using Type.
  unfold processMessage.
  repeat match goal with
  | |- context [if msgType data =? ?c then _ else _] =>
      destruct (msgType data =? c)
  end.
  - reflexivity.
  - cbn [configStarted set_buffer]. destruct (configStarted r); reflexivity.
  - rewrite parseCapabilities_buffer.
    destruct (parseCapabilities data r) as [[b r1]| |]; cbn [rbind fst snd];
      try reflexivity.
    destruct b; [|reflexivity].
    rewrite computePowerIndices_buffer. unfold sendDeleteROSpec.
    destruct (writeUInt32BE 0); cbn [rbind]; try reflexivity.
    apply sendMessage_buffer.
  - destruct (handleErrorMessage data); reflexivity.
  - destruct (checkResponse data); cbn [rbind]; try reflexivity.
    unfold sendDeleteROSpec.
    destruct (writeUInt32BE 0); cbn [rbind]; try reflexivity.
    apply sendMessage_buffer.
  - destruct (checkResponse data); cbn [rbind]; try reflexivity.
    unfold sendAddROSpec.
    change (buildROSpec config (set_buffer z r)) with (buildROSpec config r).
    destruct (buildROSpec config r); cbn [rbind]; try reflexivity.
    apply sendMessage_buffer.
  - destruct (checkResponse data); cbn [rbind]; try reflexivity.
    unfold sendEnableROSpec.
    destruct (writeUInt32BE 1); cbn [rbind]; try reflexivity.
    apply sendMessage_buffer.
  - destruct (checkResponse data); cbn [rbind]; try reflexivity.
    unfold sendStartROSpec.
    destruct (writeUInt32BE 1); cbn [rbind]; try reflexivity.
    apply sendMessage_buffer.
  - destruct (checkResponse data) as [[|]| |]; reflexivity.
  - unfold parseTagReport. cbn [rospecStarted set_buffer].
    destruct (negb (rospecStarted r)); [reflexivity|].
    destruct (tlvLoop _ _ _ _ _); reflexivity.
  - apply sendMessage_buffer.
  - reflexivity.
Qed.

End BufferIndependence.

Lemma processMessage_keeps_buffer (config : Config) (data : Buffer)
    (r r' : Reader) (out : list Effect) :
  processMessage config data r = Ok (r', out) -> buffer r' = buffer r.
Proof.
  intros H.
  assert (Hr : r = set_buffer (buffer r) r) by (destruct r; reflexivity).
  rewrite Hr, processMessage_buffer in H.
  destruct (processMessage config data r) as [[r1 o1]| |]; try discriminate.
  injection H as <- _. reflexivity.
Qed.

(** ** The receive loop as a stream reassembler *)

Lemma byte_app_l (a b : Buffer) (i : Z) :
  0 <= i < len a -> byte (a ++ b) i = byte a i.
Proof.
  intros Hi. unfold byte, at_, len in *.
  destruct (Z.ltb_spec i 0); [lia|].
  rewrite nth_error_app1 by lia. reflexivity.
Qed.

Lemma u32_app_l (a b : Buffer) (i : Z) :
  0 <= i -> i + 4 <= len a -> u32 (a ++ b) i = u32 a i.
Proof.
  intros H0 H4. unfold u32, u16. rewrite !byte_app_l by lia. reflexivity.
Qed.

Lemma nextFrame_app (buf b m rest : Buffer) :
  nextFrame buf = Some (m, rest) ->
  nextFrame (buf ++ b) = Some (m, rest ++ b).
Proof.
  unfold nextFrame. pose proof (len_nonneg b) as Hb.
  destruct (Z.geb_spec (len buf) 10) as [H10|]; [|discriminate].
  destruct (Z.ltb_spec (len buf) (u32 buf 2)) as [|HL]; [discriminate|].
  intros [= <- <-].
  rewrite len_app, u32_app_l by lia.
  destruct (Z.geb_spec (len buf + len b) 10); [|lia].
  destruct (Z.ltb_spec (len buf + len b) (u32 buf 2)); [lia|].
  unfold slice, sliceFrom, len in *.
  change (Z.to_nat 0) with 0%nat. rewrite !drop_0.
  rewrite take_app_le by lia. rewrite drop_app_le by lia. reflexivity.
Qed.

Lemma receiveLoop_more_fuel (config : Config) :
  forall (fuel extra : nat) (r r' : Reader) (out : list Effect),
    receiveLoop fuel config r = Ok (r', out) ->
    receiveLoop (fuel + extra) config r = Ok (r', out).
Proof.
  induction fuel as [|f IH]; intros extra r r' out H; [discriminate|].
  cbn [receiveLoop Nat.add] in *.
  destruct (nextFrame (buffer r)) as [[m rest]|]; [|assumption].
  unfold andThen in *.
  destruct (processMessage config m (set_buffer rest r)) as [[r1 o1]| |];
    cbn [rbind fst snd] in *; try discriminate.
  destruct (receiveLoop f config r1) as [[r2 o2]| |] eqn:Hf;
    cbn [rbind fst snd] in *; try discriminate.
  rewrite (IH extra _ _ _ Hf). assumption.
Qed.

Lemma receiveLoop_chunks (config : Config) (b : Buffer) :
  forall (fuel fuel' : nat) (r r1 r2 : Reader) (o1 o2 : list Effect),
    receiveLoop fuel config r = Ok (r1, o1) ->
    receiveLoop fuel' config (set_buffer (buffer r1 ++ b) r1) = Ok (r2, o2) ->
    receiveLoop (fuel + fuel') config (set_buffer (buffer r ++ b) r)
    = Ok (r2, o1 ++ o2).
Proof.
  induction fuel as [|f IH]; intros fuel' r r1 r2 o1 o2 H1 H2; [discriminate|].
  cbn [receiveLoop] in H1.
  destruct (nextFrame (buffer r)) as [[m rest]|] eqn:Hn.
  - cbn [receiveLoop Nat.add buffer set_buffer].
    rewrite (nextFrame_app _ b _ _ Hn).
    change (set_buffer (rest ++ b) (set_buffer (buffer r ++ b) r))
      with (set_buffer (rest ++ b) r).
    rewrite processMessage_buffer in H1 |- *.
    unfold andThen in *.
    destruct (processMessage config m r) as [[ra oa]| |];
      cbn [mapStep rbind fst snd] in *; try discriminate.
    destruct (receiveLoop f config (set_buffer rest ra)) as [[rb ob]| |] eqn:Hf;
      cbn [rbind fst snd] in H1; try discriminate.
    injection H1 as <- <-.
    change (set_buffer (rest ++ b) ra)
      with (set_buffer (buffer (set_buffer rest ra) ++ b) (set_buffer rest ra)).
    rewrite (IH fuel' (set_buffer rest ra) rb r2 ob o2 Hf H2).
    cbn [rbind fst snd]. rewrite app_assoc. reflexivity.
  - injection H1 as <- <-.
    rewrite Nat.add_comm. apply receiveLoop_more_fuel. assumption.
Qed.

(** How the bytes arrive does not matter: two chunks handled one after
    the other leave the reader in the state, and cause the effects, of the
    two chunks handled as one. *)
Theorem chunking_is_invisible (config : Config) (a b : Buffer)
    (fuel fuel' : nat) (r r1 r2 : Reader) (o1 o2 : list Effect) :
  handleData fuel config a r = Ok (r1, o1) ->
  handleData fuel' config b r1 = Ok (r2, o2) ->
  handleData (fuel + fuel') config (a ++ b) r = Ok (r2, o1 ++ o2).
Proof.
  unfold handleData. intros H1 H2.
  rewrite app_assoc.
  apply (receiveLoop_chunks config b fuel fuel'
           (set_buffer (buffer r ++ a) r) r1 r2 o1 o2 H1 H2).
Qed.

Lemma chunking_is_invisible_witness :
  handleData (1 + 2) Sample.config ([4; 62; 0; 0] ++ [0; 10; 0; 0; 0; 5; 4])
    Sample.live
  = Ok (set_buffer [4] (set_messageId 2 Sample.live),
        [] ++ [SocketWrite [4; 72; 0; 0; 0; 10; 0; 0; 0; 1]]).
Proof.
  apply (chunking_is_invisible Sample.config [4; 62; 0; 0]
           [0; 10; 0; 0; 0; 5; 4] 1 2 Sample.live
           (set_buffer [4; 62; 0; 0] Sample.live));
    reflexivity.
Defined.

Lemma receiveLoop_S (config : Config) (f : nat) (r : Reader) :
  receiveLoop (S f) config r
  = match nextFrame (buffer r) with
    | None => Ok (r, [])
    | Some (message, rest) =>
      andThen (processMessage config message (set_buffer rest r))
              (receiveLoop f config)
    end.
Proof. reflexivity. Qed.

Lemma nextFrame_complete (m rest : Buffer) :
  completeFrame m -> nextFrame (m ++ rest) = Some (m, rest).
Proof.
  intros [H10 HL]. unfold nextFrame. pose proof (len_nonneg rest).
  rewrite len_app, u32_app_l, HL by lia.
  destruct (Z.geb_spec (len m + len rest) 10); [|lia].
  destruct (Z.ltb_spec (len m + len rest) (len m)); [lia|].
  rewrite slice_app_exact, sliceFrom_app_exact. reflexivity.
Qed.

(** Complete frames that sit in the buffer one after the other are
    dispatched in that order, each exactly once, and what follows them
    stays buffered: the receive loop does what the dispatcher does on the
    list of frames. *)
Theorem frames_are_dispatched_in_order (config : Config)
    (msgs : list Buffer) (rest : Buffer) (r : Reader) :
  Forall completeFrame msgs ->
  nextFrame rest = None ->
  receiveLoop (S (length msgs)) config (set_buffer (concat msgs ++ rest) r)
  = processAll config msgs (set_buffer rest r).
Proof.
  intros Hm Hrest. revert r.
  induction Hm as [|m msgs Hc _ IH]; intros r.
  - cbn. rewrite Hrest. reflexivity.
  - cbn [concat length processAll]. rewrite receiveLoop_S.
    cbn [buffer set_buffer].
    rewrite <- app_assoc. rewrite (nextFrame_complete _ _ Hc).
    change (set_buffer (concat msgs ++ rest)
              (set_buffer (m ++ concat msgs ++ rest) r))
      with (set_buffer (concat msgs ++ rest) r).
    rewrite !processMessage_buffer.
    destruct (processMessage config m r) as [[r1 o1]| |]; try reflexivity.
    unfold andThen. cbn [mapStep rbind fst snd]. rewrite IH. reflexivity.
Qed.

Lemma frames_are_dispatched_in_order_witness :
  receiveLoop 3 Sample.config
    (set_buffer (concat [Sample.keepalive; Sample.startAccepted] ++ [4; 61; 0])
       Sample.live)
  = processAll Sample.config [Sample.keepalive; Sample.startAccepted]
      (set_buffer [4; 61; 0] Sample.live).
Proof.
  apply (frames_are_dispatched_in_order Sample.config
           [Sample.keepalive; Sample.startAccepted] [4; 61; 0] Sample.live).
  - repeat constructor; vm_compute; congruence.
  - reflexivity.
Defined.

(** ** Sending: the message counter and the connection flags *)

(** On a connected socket [sendMessage] writes exactly one frame; the
    frame carries the current message id and its own length, and the
    counter moves on by one. *)
Theorem sendMessage_numbers_the_frame (type : Z) (payload : Buffer) (r : Reader) :
  socket r = true -> connected r = true ->
  0 <= messageId r < 2 ^ 32 ->
  len payload < 2 ^ 32 - 10 ->
  exists f,
    sendMessage type payload r
    = Ok (set_messageId (messageId r + 1) r, [SocketWrite f])
    /\ u32 f 6 = messageId r
    /\ u32 f 2 = len f
    /\ len f = 10 + len payload.
Proof.
  change (2 ^ 32) with 4294967296. intros Hs Hc Hid Hp.
  pose proof (len_nonneg payload) as H0.
  unfold sendMessage. rewrite Hs, Hc. cbn [negb orb].
  rewrite frame_bytes by assumption. cbn [rbind].
  eexists. split; [reflexivity|].
  assert (Hl : forall a b c d e f g h i j : Z,
             len ([a; b] ++ [c; d; e; f] ++ [g; h; i; j] ++ payload)
             = 10 + len payload)
    by (intros; len_simpl; lia).
  rewrite Hl. split; [|split; [|reflexivity]].
  - cbn [app]. unfold u32, u16, byte, at_. cbn. apply be32_value. lia.
  - cbn [app]. unfold u32, u16, byte, at_. cbn. apply be32_value. lia.
Qed.

Lemma sendMessage_numbers_the_frame_witness :
  exists f,
    sendMessage 62 [] Sample.live
    = Ok (set_messageId (messageId Sample.live + 1) Sample.live,
          [SocketWrite f])
    /\ u32 f 6 = messageId Sample.live
    /\ u32 f 2 = len f
    /\ len f = 10 + len [].
Proof.
  apply (sendMessage_numbers_the_frame 62 [] Sample.live);
    vm_compute; intuition congruence.
Defined.

(** The message counter does not wrap: once it has reached [2^32] every
    send on a connected socket raises [RangeError]. *)
Theorem message_id_does_not_wrap (type : Z) (payload : Buffer) (r : Reader) :
  socket r = true -> connected r = true ->
  2 ^ 32 <= messageId r ->
  sendMessage type payload r = RangeError.
Proof.
  change (2 ^ 32) with 4294967296. intros Hs Hc Hid.
  unfold sendMessage, frame. rewrite Hs, Hc. cbn [negb orb].
  rewrite writeUInt8_ok by (pose proof (header_byte0_range type); lia).
  rewrite writeUInt8_ok by apply land_255_range. cbn [rbind].
  unfold writeUInt32BE.
  destruct ((0 <=? 10 + len payload) && (10 + len payload <=? 4294967295));
    cbn [rbind]; [|reflexivity].
  destruct (Z.leb_spec (messageId r) 4294967295); [lia|].
  rewrite andb_false_r. reflexivity.
Qed.

Lemma message_id_does_not_wrap_witness :
  sendMessage 62 [] (set_messageId 4294967296 Sample.live) = RangeError.
Proof.
  apply (message_id_does_not_wrap 62 [] (set_messageId 4294967296 Sample.live));
    vm_compute; congruence.
Defined.

Lemma sendMessage_offline (type : Z) (payload : Buffer) (r : Reader) :
  socket r && connected r = false ->
  sendMessage type payload r = Ok (r, []).
Proof.
  intros H. unfold sendMessage.
  destruct (socket r), (connected r); try discriminate; reflexivity.
Qed.

Lemma keeps_offline (r r' : Reader) :
  keeps r r' -> socket r && connected r = false ->
  socket r' && connected r' = false.
Proof. intros [(Hs & Hc & _) _]. rewrite Hs, Hc. auto. Qed.

(** Without a connected socket the dispatcher writes nothing, whatever
    message it is given: every step of the startup chain and the
    keepalive answer are silently skipped. *)
Theorem nothing_is_written_offline (config : Config) (data : Buffer)
    (r r' : Reader) (out : list Effect) :
  socket r && connected r = false ->
  processMessage config data r = Ok (r', out) ->
  noWrite out.
Proof.
  intros Hoff. unfold processMessage.
  repeat match goal with
  | |- context [if msgType data =? ?c then _ else _] =>
      destruct (msgType data =? c)
  end; try (intros [= <- <-]; reflexivity).
  - destruct (parseCapabilities data r) as [[b r1]| |] eqn:Hp; cbn [rbind];
      try discriminate.
    cbn [fst snd]. destruct b; [|intros [= <- <-]; reflexivity].
    unfold sendDeleteROSpec.
    destruct (writeUInt32BE 0); cbn [rbind]; try discriminate.
    rewrite sendMessage_offline; [intros [= <- <-]; reflexivity|].
    apply parseCapabilities_keeps in Hp.
    eapply keeps_offline; [|eassumption].
    eapply keeps_trans; [eassumption|apply computePowerIndices_keeps].
  - destruct (handleErrorMessage data); cbn [rbind]; try discriminate.
    intros [= <- <-]; reflexivity.
  - destruct (checkResponse data); cbn [rbind]; try discriminate.
    unfold sendDeleteROSpec.
    destruct (writeUInt32BE 0); cbn [rbind]; try discriminate.
    rewrite sendMessage_offline by assumption. intros [= <- <-]; reflexivity.
  - destruct (checkResponse data); cbn [rbind]; try discriminate.
    unfold sendAddROSpec.
    destruct (buildROSpec config r); cbn [rbind]; try discriminate.
    rewrite sendMessage_offline by assumption. intros [= <- <-]; reflexivity.
  - destruct (checkResponse data); cbn [rbind]; try discriminate.
    unfold sendEnableROSpec.
    destruct (writeUInt32BE 1); cbn [rbind]; try discriminate.
    rewrite sendMessage_offline by assumption. intros [= <- <-]; reflexivity.
  - destruct (checkResponse data); cbn [rbind]; try discriminate.
    unfold sendStartROSpec.
    destruct (writeUInt32BE 1); cbn [rbind]; try discriminate.
    rewrite sendMessage_offline by assumption. intros [= <- <-]; reflexivity.
  - destruct (checkResponse data) as [[|]| |]; cbn [rbind]; try discriminate;
      intros [= <- <-]; reflexivity.
  - unfold parseTagReport.
    destruct (negb (rospecStarted r)); [intros [= <- <-]; reflexivity|].
    destruct (tlvLoop _ _ _ _ _) as [o| |] eqn:Hl; cbn [rbind];
      try discriminate.
    intros [= <- <-].
    eapply (tlvLoop_invariant noWrite); [|exact (eq_refl : noWrite [])|exact Hl].
    intros t l o' s s' Hs. unfold tagReportBody.
    destruct (t =? 240); [|intros [= <-]; assumption].
    destruct (parseTagReportData _) as [tag| |]; cbn [rbind]; try discriminate.
    intros [= <-]. unfold noWrite in *. rewrite forallb_app, Hs.
    unfold reportTag. destruct (epcMissing tag); reflexivity.
  - unfold sendKeepaliveAck. rewrite sendMessage_offline by assumption.
    intros [= <- <-]; reflexivity.
Qed.

Lemma nothing_is_written_offline_witness :
  noWrite (flat_map (recordEffects Sample.config) (tagRecords Sample.report)).
Proof.
  apply (nothing_is_written_offline Sample.config Sample.report
           (set_rospecStarted true (newReader Sample.config))
           (set_rospecStarted true (newReader Sample.config)));
    reflexivity.
Defined.

(** ** The capabilities response and the response check, case by case *)

(** A capabilities response that opens with an LLRPStatus (287) of
    non-zero status code is refused: the tables and the rest of the reader
    stay as they were and the startup chain does not go on (no
    DELETE_ROSPEC is sent). When the message ends before the status code,
    reading the code raises [RangeError]. *)
Theorem rejected_capabilities_stop_the_chain (config : Config) (data : Buffer)
    (r : Reader) :
  14 <= len data ->
  Z.land (u16 data 10) 1023 = 287 ->
  (16 <= len data -> u16 data 14 <> 0 ->
   parseCapabilities data r = Ok (false, r)
   /\ (msgType data = MSG.GET_READER_CAPABILITIES_RESPONSE ->
       processMessage config data r = Ok (r, [])))
  /\ (len data < 16 -> parseCapabilities data r = RangeError).
Proof.
  intros H14 Ht.
  assert (Hs : capabilitiesStatus data
               = let! statusCode := readUInt16BE data 14 in
                 if statusCode =? 0 then Ok (Some (10 + u16 data 12))
                 else Ok None).
  { unfold capabilitiesStatus.
    change (10 + 4) with 14. change (10 + 2) with 12.
    destruct (Z.leb_spec 14 (len data)); [|lia].
    rewrite Ht. reflexivity. }
  split.
  - intros H16 Hne.
    assert (Hp : parseCapabilities data r = Ok (false, r)).
    { unfold parseCapabilities. rewrite Hs.
      rewrite (proj1 (proj1 (proj2 (guarded_reads data 14 ltac:(lia)))
                        ltac:(lia))).
      cbn [rbind]. destruct (Z.eqb_spec (u16 data 14) 0); [contradiction|].
      reflexivity. }
    split; [assumption|].
    intros Hm. unfold processMessage. rewrite Hm, Hp. reflexivity.
  - intros Hlt. unfold parseCapabilities. rewrite Hs.
    unfold readUInt16BE, inRange.
    destruct (Z.leb_spec (14 + 2) (len data)); [lia|].
    rewrite andb_false_r. reflexivity.
Qed.

Lemma rejected_capabilities_stop_the_chain_witness :
  let data := [4; 11; 0; 0; 0; 18; 0; 0; 0; 1; 1; 31; 0; 8; 0; 100; 0; 0] in
  (parseCapabilities data Sample.live = Ok (false, Sample.live)
   /\ (msgType data = MSG.GET_READER_CAPABILITIES_RESPONSE ->
       processMessage Sample.config data Sample.live = Ok (Sample.live, [])))
  /\ parseCapabilities [4; 11; 0; 0; 0; 15; 0; 0; 0; 1; 1; 31; 0; 5; 0]
       Sample.live = RangeError.
Proof.
  split.
  - apply (proj1 (rejected_capabilities_stop_the_chain Sample.config
                    [4; 11; 0; 0; 0; 18; 0; 0; 0; 1; 1; 31; 0; 8; 0; 100; 0; 0]
                    Sample.live ltac:(vm_compute; congruence) eq_refl));
      vm_compute; congruence.
  - apply (proj2 (rejected_capabilities_stop_the_chain Sample.config
                    [4; 11; 0; 0; 0; 15; 0; 0; 0; 1; 1; 31; 0; 5; 0]
                    Sample.live ltac:(vm_compute; congruence) eq_refl)).
    reflexivity.
Defined.

Lemma checkResponse_fold_false_inv (data : Buffer) (ps : list (Z * Z * Z)) :
  isBuffer data = true ->
  (forall t l o, In (t, l, o) ps -> 0 <= o /\ l <= len data - o) ->
  forall b,
    foldParams (checkResponseBody data) ps b = Ok false ->
    b = false
    \/ exists l o, In (287, l, o) ps /\ u16 data (o + 4) <> 0.
Proof.
  intros Hb. induction ps as [|[[t l] o] ps IH]; intros Hps b H.
  - injection H as ->. auto.
  - cbn [foldParams] in H.
    destruct (Hps t l o (or_introl eq_refl)) as [Ho Hl].
    assert (Hps' : forall t l o, In (t, l, o) ps -> 0 <= o /\ l <= len data - o)
      by (intros t' l' o' Hin'; apply (Hps t' l' o'); right; assumption).
    unfold checkResponseBody at 1 in H.
    destruct (Z.eqb_spec t 287) as [->|Hne].
    + destruct (checkStatusParam_cases data o l b Hb Ho Hl) as [Hc|Hc];
        rewrite Hc in H; cbn [rbind] in H; [discriminate|].
      destruct (Z.eqb_spec (u16 data (o + 4)) 0) as [Hz|Hz].
      * apply IH in H as [H|(l' & o' & Hin & Hnz)]; auto.
        right. exists l', o'. split; [right; assumption|assumption].
      * right. exists l, o. split; [left; reflexivity|assumption].
    + cbn [rbind] in H. apply IH in H as [H|(l' & o' & Hin & Hnz)]; auto.
      right. exists l', o'. split; [right; assumption|assumption].
Qed.

(** What the response check tells: whenever it returns, it returns
    [false] exactly when some top-level LLRPStatus (287) of the message
    has a non-zero status code. A status that is not reached by the
    top-level walk (nested, or behind a parameter of length 0) does not
    count. *)
Theorem checkResponse_false_iff_nonzero_status (data : Buffer) (b : bool) :
  isBuffer data = true ->
  checkResponse data = Ok b ->
  (b = false <-> carriesNonZeroStatus data).
Proof.
  intros Hb H. rewrite checkResponse_fold in H by assumption.
  assert (Hps : forall t l o, In (t, l, o) (topLevelParams data) ->
                              0 <= o /\ l <= len data - o)
    by (intros t l o; apply topLevelParams_bounds; assumption).
  split.
  - intros ->. apply checkResponse_fold_false_inv in H as [H|H];
      [discriminate|exact H|assumption|assumption].
  - intros (l & o & Hin & Hnz).
    destruct (checkResponse_fold_nonzero data _ true l o Hb Hps Hin Hnz)
      as [H'|H']; rewrite H' in H; [discriminate|].
    injection H as <-. reflexivity.
Qed.

Lemma checkResponse_false_iff_nonzero_status_witness :
  false = false <-> carriesNonZeroStatus Sample.addRejected.
Proof.
  apply (checkResponse_false_iff_nonzero_status Sample.addRejected false);
    reflexivity.
Defined.

(** ** What a tag report can emit *)

(** Every effect of a tag report is a tag event whose EPC is present and
    non-empty; and when exactly one antenna, with a non-zero id, is
    configured, every tag event names an antenna. *)
Theorem tag_events_carry_an_epc (config : Config) (data : Buffer)
    (r r' : Reader) (out : list Effect) :
  parseTagReport config data r = Ok (r', out) ->
  r' = r
  /\ Forall (fun e => exists t,
               e = Emit (EvTag t)
               /\ epcMissing t = false
               /\ (forall a, antennas config = [a] -> a <> 0 ->
                             antennaMissing t = false)) out.
Proof.
  unfold parseTagReport.
  destruct (negb (rospecStarted r)); [intros [= <- <-]; auto|].
  destruct (tlvLoop _ _ _ _ _) as [o| |] eqn:Hl; cbn [rbind]; try discriminate.
  intros [= <- <-]. split; [reflexivity|].
  eapply (tlvLoop_invariant (Forall _)); [|apply List.Forall_nil|exact Hl].
  intros t l o' s s' Hs. unfold tagReportBody.
  destruct (t =? 240); [|intros [= <-]; assumption].
  destruct (parseTagReportData _) as [tag| |]; cbn [rbind]; try discriminate.
  intros [= <-]. apply Forall_app. split; [assumption|].
  unfold reportTag. destruct (epcMissing tag) eqn:He; [constructor|].
  repeat constructor. eexists. split; [reflexivity|]. split.
  - destruct (antennaMissing tag && _); assumption.
  - intros a Ha Hne. rewrite Ha. cbn [len length Z.of_nat].
    change (Z.of_nat 1 =? 1) with true. rewrite andb_true_r.
    destruct (antennaMissing tag) eqn:Hm; [|assumption].
    unfold antennaMissing. cbn. apply Z.eqb_neq. assumption.
Qed.

Lemma tag_events_carry_an_epc_witness :
  set_rospecStarted true Sample.live = set_rospecStarted true Sample.live
  /\ Forall (fun e => exists t,
               e = Emit (EvTag t)
               /\ epcMissing t = false
               /\ (forall a, antennas Sample.config = [a] -> a <> 0 ->
                             antennaMissing t = false))
       (flat_map (recordEffects Sample.config) (tagRecords Sample.report)).
Proof.
  apply (tag_events_carry_an_epc Sample.config Sample.report
           (set_rospecStarted true Sample.live)).
  reflexivity.
Defined.

(** ** The dispatcher always comes back *)

Lemma rbind_returns {A B : Type} (r : result A) (k : A -> result B) :
  r <> Diverge -> (forall a, r = Ok a -> k a <> Diverge) ->
  rbind r k <> Diverge.
Proof.
  intros Hr Hk. destruct r as [a| |]; cbn [rbind]; try discriminate; auto.
Qed.

Lemma writeUInt8_returns (v : Z) : writeUInt8 v <> Diverge.
Proof. unfold writeUInt8. destruct (_ && _); discriminate. Qed.

Lemma writeUInt16BE_returns (v : Z) : writeUInt16BE v <> Diverge.
Proof. unfold writeUInt16BE. destruct (_ && _); discriminate. Qed.

Lemma writeUInt32BE_returns (v : Z) : writeUInt32BE v <> Diverge.
Proof. unfold writeUInt32BE. destruct (_ && _); discriminate. Qed.

Lemma readUInt16BE_returns (d : Buffer) (o : Z) : readUInt16BE d o <> Diverge.
Proof. unfold readUInt16BE. destruct (inRange d o 2); discriminate. Qed.

Ltac returns :=
  repeat first
    [ apply rbind_returns; [|intros ? _]
    | apply writeUInt8_returns
    | apply writeUInt16BE_returns
    | apply writeUInt32BE_returns
    | apply readUInt16BE_returns
    | discriminate ].

Lemma tlv_returns (t : Z) (v : Buffer) : tlv t v <> Diverge.
Proof. unfold tlv. returns. Qed.

Lemma concatMap_returns (f : Z -> result Buffer) (xs : list Z) :
  (forall x, f x <> Diverge) -> concatMap f xs <> Diverge.
Proof.
  intros Hf. induction xs as [|x xs IH]; cbn [concatMap]; [discriminate|].
  returns; auto.
Qed.

Lemma buildROSpec_returns (config : Config) (r : Reader) :
  buildROSpec config r <> Diverge.
Proof.
  unfold buildROSpec, inventoryParameterSpecWithAntennas, stopTriggerTLV.
  returns; try apply tlv_returns; apply concatMap_returns.
  - apply writeUInt16BE_returns.
  - intros ant. unfold antennaConfiguration, rfTransmitter.
    returns; apply tlv_returns.
Qed.

Lemma sendMessage_returns (type : Z) (payload : Buffer) (r : Reader) :
  sendMessage type payload r <> Diverge.
Proof.
  unfold sendMessage. destruct (_ || _); [discriminate|].
  unfold frame. returns.
Qed.

Lemma foldParams_returns {S : Type} (body : Z -> Z -> Z -> S -> result S)
    (ps : list (Z * Z * Z)) :
  (forall t l o s, In (t, l, o) ps -> body t l o s <> Diverge) ->
  forall s, foldParams body ps s <> Diverge.
Proof.
  induction ps as [|[[t l] o] ps IH]; intros Hb s; cbn [foldParams];
    [discriminate|].
  apply rbind_returns; [apply Hb; left; reflexivity|].
  intros s' _. apply IH. intros t' l' o' s0 Hin. apply Hb. right; assumption.
Qed.

Lemma tlvLoop_returns {St : Type} (body : Z -> Z -> Z -> St -> result St)
    (data : Buffer) (offset : Z) (s : St) :
  isBuffer data = true -> 0 <= offset ->
  (forall t l o s, 0 <= o -> l <= len data - o -> body t l o s <> Diverge) ->
  tlvLoop (S (length data)) body data offset s <> Diverge.
Proof.
  intros Hb Ho Hbody.
  rewrite tlvLoop_params by (try assumption; try lia; unfold len; lia).
  apply foldParams_returns. intros t l o s0 Hin.
  apply (tlvParams_In data Hb) in Hin. apply Hbody; lia.
Qed.

Lemma checkResponse_returns (data : Buffer) :
  isBuffer data = true -> checkResponse data <> Diverge.
Proof.
  intros Hb. apply tlvLoop_returns; [assumption|lia|].
  intros t l o s Ho Hl. unfold checkResponseBody.
  destruct (t =? 287); [|discriminate].
  destruct (checkStatusParam_cases data o l s Hb Ho Hl) as [-> | ->];
    discriminate.
Qed.

Lemma handleErrorLoop_returns (data : Buffer) :
  isBuffer data = true ->
  forall (fuel : nat) (offset : Z),
    (0 < fuel)%nat -> len data - offset < Z.of_nat fuel ->
    handleErrorLoop fuel data offset <> Diverge.
Proof.
  intros Hb. induction fuel as [|f IH]; intros offset Hpos Hfuel; [lia|].
  cbn [handleErrorLoop].
  destruct (Z.ltb_spec offset (len data - 4)); [|discriminate].
  pose proof (u16_range data (offset + 2) Hb).
  destruct (Z.eqb_spec (u16 data (offset + 2)) 0); cbn [orb]; [discriminate|].
  destruct (u16 data (offset + 2) >? len data - offset); [discriminate|].
  returns.
  - destruct (_ =? 287); returns.
  - destruct (_ || _); returns.
  - apply IH; lia.
Qed.

Lemma parseUHFBandCapabilities_returns (data : Buffer) (r : Reader) :
  isBuffer data = true -> parseUHFBandCapabilities data r <> Diverge.
Proof.
  intros Hb. unfold parseUHFBandCapabilities.
  apply rbind_returns; [|discriminate].
  apply tlvLoop_returns; [assumption|lia|].
  intros t l o s _ _. unfold uhfBody.
  repeat match goal with |- context [if ?c then _ else _] => destruct c end;
    discriminate.
Qed.

Lemma parseRegulatoryCapabilities_returns (data : Buffer) (r : Reader) :
  isBuffer data = true -> parseRegulatoryCapabilities data r <> Diverge.
Proof.
  intros Hb. unfold parseRegulatoryCapabilities.
  destruct (4 + 4 >? len data); [discriminate|].
  apply tlvLoop_returns; [assumption|lia|].
  intros t l o s _ _. unfold regulatoryBody.
  destruct (t =? 144); [|discriminate].
  apply parseUHFBandCapabilities_returns, isBuffer_slice, Hb.
Qed.

Lemma parseCapabilities_returns (data : Buffer) (r : Reader) :
  isBuffer data = true -> parseCapabilities data r <> Diverge.
Proof.
  intros Hb. unfold parseCapabilities.
  pose proof (u16_range data (10 + 2) Hb) as Hl.
  apply rbind_returns.
  - unfold capabilitiesStatus.
    repeat match goal with |- context [if ?c then _ else _] => destruct c end;
      returns.
    destruct (_ =? 0); discriminate.
  - intros [off|] Hs; [|discriminate].
    apply rbind_returns; [|discriminate].
    assert (Hoff : 0 <= off).
    { unfold capabilitiesStatus in Hs.
      repeat match type of Hs with
      | context [if ?c then _ else _] => destruct c
      end; try (injection Hs as <-; lia).
      destruct (readUInt16BE data (10 + 4)) as [c| |]; cbn [rbind] in Hs;
        try discriminate.
      destruct (c =? 0); [injection Hs as <-; lia|discriminate]. }
    apply tlvLoop_returns; [assumption|assumption|].
    intros t l o s _ _. unfold capabilitiesBody.
    destruct (t =? _); [|discriminate].
    apply parseRegulatoryCapabilities_returns, isBuffer_slice, Hb.
Qed.

(** The dispatcher always comes back, with a new state or with
    [RangeError]: none of the parsers it calls can loop on any message.
    (The receive loop around it can: see the header that declares
    length 0.) *)
Theorem dispatcher_always_returns (config : Config) (data : Buffer) (r : Reader) :
  isBuffer data = true ->
  processMessage config data r <> Diverge.
Proof.
  intros Hb. unfold processMessage.
  repeat match goal with
  | |- context [if msgType data =? ?c then _ else _] =>
      destruct (msgType data =? c)
  end; try discriminate.
  - apply rbind_returns; [apply parseCapabilities_returns, Hb|].
    intros [b r1] _. cbn [fst snd]. destruct b; [|discriminate].
    unfold sendDeleteROSpec. returns. apply sendMessage_returns.
  - apply rbind_returns; [|discriminate].
    apply handleErrorLoop_returns; [assumption|lia|unfold len; lia].
  - apply rbind_returns; [apply checkResponse_returns, Hb|]. intros _ _.
    unfold sendDeleteROSpec. returns. apply sendMessage_returns.
  - apply rbind_returns; [apply checkResponse_returns, Hb|]. intros _ _.
    unfold sendAddROSpec.
    apply rbind_returns; [apply buildROSpec_returns|].
    intros; apply sendMessage_returns.
  - apply rbind_returns; [apply checkResponse_returns, Hb|]. intros _ _.
    unfold sendEnableROSpec. returns. apply sendMessage_returns.
  - apply rbind_returns; [apply checkResponse_returns, Hb|]. intros _ _.
    unfold sendStartROSpec. returns. apply sendMessage_returns.
  - apply rbind_returns; [apply checkResponse_returns, Hb|].
    intros [|] _; discriminate.
  - unfold parseTagReport. destruct (negb _); [discriminate|].
    apply rbind_returns; [|discriminate].
    apply tlvLoop_returns; [assumption|lia|].
    intros t l o s _ _. unfold tagReportBody.
    destruct (t =? 240); [|discriminate].
    destruct (parseTagReportData_returns (slice data (o + 4) (o + l)))
      as [tag ->]; [apply isBuffer_slice, Hb|discriminate].
  - apply sendMessage_returns.
Qed.

Lemma dispatcher_always_returns_witness :
  processMessage Sample.config Sample.capabilities Sample.live <> Diverge.
Proof.
  apply (dispatcher_always_returns Sample.config Sample.capabilities Sample.live).
  reflexivity.
Defined.

(** ** The power table is kept sorted *)

Lemma insertByPower_In (e x : PowerEntry) (l : list PowerEntry) :
  In x (insertByPower e l) -> x = e \/ In x l.
Proof.
  intros H. apply (Permutation_in _ (insertByPower_perm e l)) in H.
  destruct H as [<-|H]; auto.
Qed.

Lemma insertByPower_sorted (e : PowerEntry) (l : list PowerEntry) :
  StronglySorted byPower l -> StronglySorted byPower (insertByPower e l).
Proof.
  induction 1 as [|h t Hs IH Hh]; cbn [insertByPower].
  - repeat constructor.
  - destruct (Qle_bool (powerDbm e) (powerDbm h)) eqn:E.
    + apply Qle_bool_iff in E. constructor; [constructor; assumption|].
      constructor; [exact E|].
      rewrite List.Forall_forall in *. intros x Hx.
      unfold byPower in *. eapply Qle_trans; [exact E|apply Hh, Hx].
    + assert (Hlt : (powerDbm h <= powerDbm e)%Q).
      { apply Qlt_le_weak, Qnot_le_lt. intros Hle.
        apply Qle_bool_iff in Hle. congruence. }
      constructor; [assumption|].
      rewrite List.Forall_forall in *. intros x Hx.
      apply insertByPower_In in Hx as [->|Hx]; [exact Hlt|apply Hh, Hx].
Qed.

Lemma sortByPower_sorted (l : list PowerEntry) :
  StronglySorted byPower (sortByPower l).
Proof.
  induction l as [|h t IH]; cbn [sortByPower]; [constructor|].
  apply insertByPower_sorted, IH.
Qed.

Lemma sorted_last_is_max (l : list PowerEntry) (x : PowerEntry) :
  StronglySorted byPower l -> last l = Some x ->
  forall e, In e l -> byPower e x.
Proof.
  induction 1 as [|h t Hs IH Hh]; intros Hl e He; [destruct He|].
  destruct t as [|h' t'].
  - injection Hl as <-. destruct He as [<-|[]]. apply Qle_refl.
  - change (last (h :: h' :: t')) with (last (h' :: t')) in Hl.
    destruct He as [<-|He]; [|apply IH; assumption].
    rewrite List.Forall_forall in Hh. apply Hh.
    apply list_elem_of_In. eapply list_elem_of_lookup_2.
    rewrite last_lookup in Hl. exact Hl.
Qed.

(** The capabilities parser keeps the power table sorted by [powerDbm],
    ascending: a sorted table is sorted again after any capabilities
    response, so its first entry has the least power and its last entry
    the greatest. *)
Theorem power_table_stays_sorted (data : Buffer) (r r' : Reader) (b : bool) :
  StronglySorted byPower (powerTable r) ->
  parseCapabilities data r = Ok (b, r') ->
  StronglySorted byPower (powerTable r')
  /\ (forall first e, head (powerTable r') = Some first ->
                      In e (powerTable r') -> byPower first e)
  /\ (forall final e, last (powerTable r') = Some final ->
                      In e (powerTable r') -> byPower e final).
Proof.
  intros Hs H.
  assert (Hs' : StronglySorted byPower (powerTable r')).
  { unfold parseCapabilities in H.
    destruct (capabilitiesStatus data) as [[off|]| |]; cbn [rbind] in H;
      try discriminate; [|injection H as _ <-; assumption].
    destruct (tlvLoop _ _ _ _ _) as [r1| |] eqn:Hl; cbn [rbind] in H;
      try discriminate.
    injection H as _ <-.
    assert (H1 : StronglySorted byPower (powerTable r1)).
    { eapply (tlvLoop_invariant
                (fun x => StronglySorted byPower (powerTable x)));
        [|exact Hs|exact Hl].
      intros t l o s s' Hsorted. unfold capabilitiesBody.
      destruct (t =? _); [|intros [= <-]; assumption].
      unfold parseRegulatoryCapabilities.
      destruct (4 + 4 >? len _); [intros [= <-]; assumption|].
      apply (tlvLoop_invariant
               (fun x => StronglySorted byPower (powerTable x)));
        [|assumption].
      intros t2 l2 o2 s2 s2' Hs2. unfold regulatoryBody.
      destruct (t2 =? 144); [|intros [= <-]; assumption].
      unfold parseUHFBandCapabilities.
      destruct (tlvLoop _ (uhfBody _) _ _ _) as [r3| |]; cbn [rbind];
        try discriminate.
      intros [= <-]. apply sortByPower_sorted. }
    unfold selectHopTableId. destruct (hopTableIds r1); exact H1. }
  split; [assumption|]. split.
  - intros first e Hh He. destruct (powerTable r') as [|x t]; [destruct He|].
    injection Hh as <-. inversion Hs' as [|? ? _ Hall]; subst.
    destruct He as [<-|He]; [apply Qle_refl|].
    rewrite List.Forall_forall in Hall. apply Hall, He.
  - intros final e Hl He. eapply sorted_last_is_max; eassumption.
Qed.

Lemma power_table_stays_sorted_witness :
  exists r',
    parseCapabilities Sample.capabilities Sample.live = Ok (true, r')
    /\ StronglySorted byPower (powerTable r').
Proof.
  eexists. split; [reflexivity|].
  refine (proj1 (power_table_stays_sorted Sample.capabilities Sample.live
                   _ true _ eq_refl)).
  constructor.
Defined.

(** ** The power indices computed after the capabilities *)

Lemma computePowerIndices_fold (config : Config) :
  forall (l : list Z) (r : Reader),
    let r' :=
      fold_left
        (fun r' ant =>
           let index := findClosestPowerIndex (powerTable r')
                          (desiredDbmOf config ant) in
           set_antennaPowerIndex (<[ant := index]> (antennaPowerIndex r')) r')
        l r in
    powerTable r' = powerTable r
    /\ hopTableId r' = hopTableId r
    /\ hopTableIds r' = hopTableIds r
    /\ forall ant,
         (In ant l ->
          antennaPowerIndex r' !! ant
          = Some (findClosestPowerIndex (powerTable r)
                    (desiredDbmOf config ant)))
         /\ (~ In ant l ->
             antennaPowerIndex r' !! ant = antennaPowerIndex r !! ant).
Proof.
  induction l as [|a l IH]; intros r.
  - cbn. repeat split; tauto.
  - cbn [fold_left]. cbv zeta.
    destruct (IH (set_antennaPowerIndex
                    (<[a := findClosestPowerIndex (powerTable r)
                              (desiredDbmOf config a)]> (antennaPowerIndex r)) r))
      as (Hp & Hh & Hhs & Hi).
    cbv zeta in Hp, Hh, Hhs, Hi. cbn [powerTable set_antennaPowerIndex] in *.
    repeat split; try assumption.
    + intros Hin. destruct (Hi ant) as [Hy Hn].
      destruct (in_dec Z.eq_dec ant l) as [Hl|Hl]; [apply Hy, Hl|].
      rewrite (Hn Hl). cbn [antennaPowerIndex].
      destruct Hin as [->|Hin]; [|contradiction].
      apply lookup_insert_eq.
    + intros Hnin. destruct (Hi ant) as [_ Hn].
      rewrite Hn by (intros Hl; apply Hnin; right; assumption).
      cbn [antennaPowerIndex]. apply lookup_insert_ne.
      intros ->. apply Hnin. left. reflexivity.
Qed.

(** [computePowerIndices] gives every configured antenna the index that
    is closest to its requested power in the current table, leaves the
    entries of other antennas and the tables alone, and takes 30 dBm for
    an antenna whose power setting is missing or 0. *)
Theorem power_indices_follow_the_table (config : Config) (r : Reader) (ant : Z) :
  let r' := computePowerIndices config r in
  powerTable r' = powerTable r
  /\ (In ant (antennas config) ->
      antennaPowerIndex r' !! ant
      = Some (findClosestPowerIndex (powerTable r) (desiredDbmOf config ant)))
  /\ (~ In ant (antennas config) ->
      antennaPowerIndex r' !! ant = antennaPowerIndex r !! ant)
  /\ (In ant (antennas config) ->
      (antennaPowerDbm config !! ant = None
       \/ exists d, antennaPowerDbm config !! ant = Some d /\ (d == 0)%Q) ->
      antennaPowerIndex r' !! ant
      = Some (findClosestPowerIndex (powerTable r) 30)).
Proof.
  destruct (computePowerIndices_fold config (antennas config) r)
    as (Hp & _ & _ & Hi).
  cbv zeta in *. fold (computePowerIndices config r) in Hp, Hi.
  split; [assumption|].
  assert (Hin : In ant (antennas config) ->
                antennaPowerIndex (computePowerIndices config r) !! ant
                = Some (findClosestPowerIndex (powerTable r)
                          (desiredDbmOf config ant))).
  { apply Hi. }
  split; [assumption|]. split.
  - apply Hi.
  - intros H Hd. rewrite (Hin H). f_equal. f_equal.
    unfold desiredDbmOf. destruct Hd as [->|(d & -> & Hz)]; [reflexivity|].
    apply Qeq_bool_iff in Hz. rewrite Hz. reflexivity.
Qed.

Lemma power_indices_follow_the_table_witness :
  let config := {| antennas := [1; 2]; antennaPowerDbm := <[1 := 0%Q]> ∅;
                   reconnectInterval := 5000; enableReconnect := true |} in
  antennaPowerIndex (computePowerIndices config Sample.live) !! 2
  = Some (findClosestPowerIndex (powerTable Sample.live) 30).
Proof.
  apply (power_indices_follow_the_table
           {| antennas := [1; 2]; antennaPowerDbm := <[1 := 0%Q]> ∅;
              reconnectInterval := 5000; enableReconnect := true |}
           Sample.live 2).
  - right. left. reflexivity.
  - left. reflexivity.
Defined.

(** ** From the capabilities to a ROSpec that can be built *)

Lemma sortByPower_Forall (P : PowerEntry -> Prop) (l : list PowerEntry) :
  Forall P l -> Forall P (sortByPower l).
Proof.
  intros H. eapply Permutation_Forall; [|exact H].
  symmetry. apply sortByPower_perm.
Qed.

Lemma uhfBody_fits (data : Buffer) (t l o : Z) (r r' : Reader) :
  isBuffer data = true -> tablesFit r ->
  uhfBody data t l o r = Ok r' -> tablesFit r'.
Proof.
  intros Hb [Hp Hh]. unfold uhfBody.
  pose proof (u16_range data (o + 4) Hb) as Hu.
  repeat match goal with
  | |- context [if ?c then _ else _] => let E := fresh "E" in destruct c eqn:E
  end; intros [= <-]; split; cbn; try assumption.
  - apply Forall_app. split; [assumption|]. repeat constructor; cbn; lia.
  - apply Forall_app. split; [assumption|]. repeat constructor; lia.
Qed.

Lemma parseUHFBandCapabilities_fits (data : Buffer) (r r' : Reader) :
  isBuffer data = true -> tablesFit r ->
  parseUHFBandCapabilities data r = Ok r' -> tablesFit r'.
Proof.
  intros Hb Hf. unfold parseUHFBandCapabilities.
  destruct (tlvLoop _ _ _ _ _) as [r1| |] eqn:Hl; cbn [rbind]; try discriminate.
  intros [= <-].
  assert (H1 : tablesFit r1).
  { eapply (tlvLoop_invariant tablesFit); [|exact Hf|exact Hl].
    intros t l o s s' Hs. apply uhfBody_fits; assumption. }
  destruct H1 as [Hp Hh]. split; cbn; [|assumption].
  apply sortByPower_Forall. assumption.
Qed.

Lemma parseRegulatoryCapabilities_fits (data : Buffer) (r r' : Reader) :
  isBuffer data = true -> tablesFit r ->
  parseRegulatoryCapabilities data r = Ok r' -> tablesFit r'.
Proof.
  intros Hb Hf. unfold parseRegulatoryCapabilities.
  destruct (4 + 4 >? len data); [intros [= <-]; assumption|].
  apply (tlvLoop_invariant tablesFit); [|assumption].
  intros t l o s s' Hs. unfold regulatoryBody.
  destruct (t =? 144); [|intros [= <-]; assumption].
  apply parseUHFBandCapabilities_fits; [apply isBuffer_slice|]; assumption.
Qed.

Lemma parseCapabilities_fits (data : Buffer) (r r' : Reader) (b : bool) :
  isBuffer data = true -> tablesFit r ->
  parseCapabilities data r = Ok (b, r') ->
  tablesFit r' /\ (b = true -> 1 <= hopTableId r' <= 65535).
Proof.
  intros Hb Hf. unfold parseCapabilities.
  destruct (capabilitiesStatus data) as [[off|]| |]; cbn [rbind];
    try discriminate.
  - destruct (tlvLoop _ _ _ _ _) as [r1| |] eqn:Hl; cbn [rbind];
      try discriminate.
    intros [= <- <-].
    assert (H1 : tablesFit r1).
    { eapply (tlvLoop_invariant tablesFit); [|exact Hf|exact Hl].
      intros t l o s s' Hs. unfold capabilitiesBody.
      destruct (t =? _); [|intros [= <-]; assumption].
      apply parseRegulatoryCapabilities_fits; [apply isBuffer_slice|];
        assumption. }
    destruct H1 as [Hp Hh]. unfold selectHopTableId.
    destruct (hopTableIds r1) as [|h t] eqn:Hids.
    + split; [split; cbn; [assumption|rewrite Hids; constructor]|].
      intros _. cbn. lia.
    + split; [split; cbn; [assumption|rewrite Hids; assumption]|].
      intros _. cbn. inversion Hh; subst. assumption.
  - intros [= <- <-]. split; [assumption|discriminate].
Qed.

Lemma findClosestPowerIndex_fits (table : list PowerEntry) (t : Q) :
  Forall (fun e => 0 <= index e <= 65535) table ->
  0 <= findClosestPowerIndex table t <= 65535.
Proof.
  intros Hf. destruct table as [|first rest];
    [unfold findClosestPowerIndex; lia|].
  rewrite findClosestPowerIndex_first.
  destruct (closer_fold t rest [first] first 0%nat)
    as (i & c & Hfold & Hi & _ & _).
  - reflexivity.
  - intros e' [<-|[]]. apply ltb_irrefl.
  - intros j e' Hj. lia.
  - rewrite Hfold. cbn [fst].
    rewrite List.Forall_forall in Hf. apply Hf.
    apply list_elem_of_In. eapply list_elem_of_lookup_2. exact Hi.
Qed.

(** After a capabilities response that was accepted, the ROSpec for the
    configured antennas can always be built: every hop-table id and power
    index taken from the message fits its 16-bit field, the selected
    hop-table id is at least 1, and the builder raises no [RangeError],
    whatever the reader announced. *)
Theorem capabilities_make_the_rospec_buildable (config : Config)
    (data : Buffer) (r r1 r' : Reader) (out : list Effect) :
  isBuffer data = true ->
  tablesFit r ->
  Forall (fun a => 0 <= a <= 65535) (antennas config) ->
  len (antennas config) <= 3637 ->
  msgType data = MSG.GET_READER_CAPABILITIES_RESPONSE ->
  parseCapabilities data r = Ok (true, r1) ->
  processMessage config data r = Ok (r', out) ->
  tablesFit r'
  /\ 1 <= hopTableId r' <= 65535
  /\ buildROSpec config r'
     = Ok (tlvBytes 177 (rospecValue r' (antennas config))).
Proof.
  intros Hb Hf Hants HN Hm Hp H.
  destruct (parseCapabilities_fits data r r1 true Hb Hf Hp) as [Hf1 Hh1].
  specialize (Hh1 eq_refl).
  destruct (computePowerIndices_fold config (antennas config) r1)
    as (Hpt & Hhop & Hhops & Hidx).
  cbv zeta in Hpt, Hhop, Hhops, Hidx.
  fold (computePowerIndices config r1) in Hpt, Hhop, Hhops, Hidx.
  set (r2 := computePowerIndices config r1) in *.
  assert (Hf2 : tablesFit r2).
  { destruct Hf1 as [A B]. split; [rewrite Hpt|rewrite Hhops]; assumption. }
  assert (Hbuild : forall x,
             powerTable x = powerTable r2 -> hopTableId x = hopTableId r2 ->
             antennaPowerIndex x = antennaPowerIndex r2 ->
             buildROSpec config x
             = Ok (tlvBytes 177 (rospecValue x (antennas config)))).
  { intros x Ex Eh Ea. apply buildROSpec_ok; [|rewrite Eh, Hhop; lia|assumption].
    rewrite List.Forall_forall in *. intros a Ha. split; [apply Hants, Ha|].
    unfold powerIndexFor. rewrite Ea.
    rewrite (proj1 (Hidx a) Ha).
    apply findClosestPowerIndex_fits. apply List.Forall_forall.
    destruct Hf1 as [A _]. rewrite List.Forall_forall in A. exact A. }
  unfold processMessage in H. rewrite Hm, Hp in H. cbn in H.
  fold r2 in H. unfold sendDeleteROSpec in H.
  change (writeUInt32BE 0) with (Ok [0; 0; 0; 0] : result Buffer) in H.
  cbn [rbind] in H. unfold sendMessage in H.
  destruct (negb (socket r2) || negb (connected r2)).
  - injection H as <- _. repeat split; try apply Hf2; try (rewrite Hhop; lia).
    apply Hbuild; reflexivity.
  - destruct (frame _ _ _); cbn [rbind] in H; try discriminate.
    injection H as <- _.
    repeat split; try apply Hf2; try (cbn; rewrite Hhop; lia).
    apply Hbuild; reflexivity.
Qed.

Lemma capabilities_make_the_rospec_buildable_witness :
  exists r',
    processMessage Sample.config Sample.capabilities Sample.live
    = Ok (r', [SocketWrite [4; 21; 0; 0; 0; 14; 0; 0; 0; 1; 0; 0; 0; 0]])
    /\ tablesFit r'
    /\ 1 <= hopTableId r' <= 65535
    /\ buildROSpec Sample.config r'
       = Ok (tlvBytes 177 (rospecValue r' (antennas Sample.config))).
Proof.
  eexists. split; [reflexivity|].
  eapply (capabilities_make_the_rospec_buildable Sample.config
            Sample.capabilities Sample.live).
  - reflexivity.
  - split; constructor.
  - repeat constructor; vm_compute; congruence.
  - vm_compute. congruence.
  - reflexivity.
  - reflexivity.
  - reflexivity.
Defined.

(** ** When the ROSpec counts as started *)

Lemma tlvLoop_started (r0 : Reader)
    (body : Z -> Z -> Z -> Reader -> result Reader) :
  (forall t l o r r', body t l o r = Ok r' ->
                      rospecStarted r' = rospecStarted r) ->
  forall (fuel : nat) (data : Buffer) (offset : Z) (r' : Reader),
    tlvLoop fuel body data offset r0 = Ok r' ->
    rospecStarted r' = rospecStarted r0.
Proof.
  intros Hbody fuel data offset r'.
  apply (tlvLoop_invariant (fun x => rospecStarted x = rospecStarted r0));
    [|reflexivity].
  intros t l o s s' Hs H. rewrite (Hbody _ _ _ _ _ H). assumption.
Qed.

Lemma parseCapabilities_started (data : Buffer) (r r' : Reader) (b : bool) :
  parseCapabilities data r = Ok (b, r') -> rospecStarted r' = rospecStarted r.
Proof.
  unfold parseCapabilities.
  destruct (capabilitiesStatus data) as [[off|]| |]; cbn [rbind];
    try discriminate; [|intros [= <- <-]; reflexivity].
  destruct (tlvLoop _ _ _ _ _) as [r1| |] eqn:Hl; cbn [rbind];
    try discriminate.
  intros [= <- <-].
  transitivity (rospecStarted r1);
    [unfold selectHopTableId; destruct (hopTableIds r1); reflexivity|].
  eapply tlvLoop_started; [|exact Hl].
  intros t l o s s'. unfold capabilitiesBody.
  destruct (t =? _); [|intros [= <-]; reflexivity].
  unfold parseRegulatoryCapabilities.
  destruct (4 + 4 >? len _); [intros [= <-]; reflexivity|].
  apply tlvLoop_started.
  intros t2 l2 o2 s2 s2'. unfold regulatoryBody.
  destruct (t2 =? 144); [|intros [= <-]; reflexivity].
  unfold parseUHFBandCapabilities.
  destruct (tlvLoop _ (uhfBody _) _ _ _) as [r3| |] eqn:Hu; cbn [rbind];
    try discriminate.
  intros [= <-]. cbn.
  eapply tlvLoop_started; [|exact Hu].
  intros t3 l3 o3 s3 s3'. unfold uhfBody.
  repeat match goal with |- context [if ?c then _ else _] => destruct c end;
    intros [= <-]; reflexivity.
Qed.

Lemma computePowerIndices_started (config : Config) (r : Reader) :
  rospecStarted (computePowerIndices config r) = rospecStarted r.
Proof.
  unfold computePowerIndices. revert r.
  induction (antennas config) as [|a l IH]; intros r; [reflexivity|].
  cbn [fold_left]. rewrite IH. reflexivity.
Qed.

Lemma sendMessage_started (type : Z) (payload : Buffer) (r r' : Reader)
    (out : list Effect) :
  sendMessage type payload r = Ok (r', out) ->
  rospecStarted r' = rospecStarted r /\ ~ In (Emit EvReady) out.
Proof.
  unfold sendMessage. destruct (_ || _).
  - intros [= <- <-]. split; [reflexivity|intros []].
  - destruct (frame _ _ _); cbn [rbind]; try discriminate.
    intros [= <- <-]. split; [reflexivity|]. intros [H|[]]. discriminate.
Qed.

(** The ROSpec is marked started, and [ready] is emitted, by one message
    only: a START_ROSPEC_RESPONSE that passes the response check. No other
    message sets the flag or emits [ready], and no message takes the flag
    back. *)
Theorem ready_only_after_accepted_start (config : Config) (data : Buffer)
    (r r' : Reader) (out : list Effect) :
  processMessage config data r = Ok (r', out) ->
  (rospecStarted r = true -> rospecStarted r' = true)
  /\ (In (Emit EvReady) out \/ rospecStarted r' <> rospecStarted r ->
      msgType data = MSG.START_ROSPEC_RESPONSE
      /\ checkResponse data = Ok true
      /\ out = [Emit EvReady]
      /\ rospecStarted r' = true).
Proof.
  intros H. split; [apply processMessage_keeps in H as [[_ Hk] _]; exact Hk|].
  revert H. unfold processMessage.
  assert (Hsend : forall t p x,
            sendMessage t p x = Ok (r', out) ->
            rospecStarted x = rospecStarted r ->
            In (Emit EvReady) out \/ rospecStarted r' <> rospecStarted r ->
            False).
  { intros t p x Hx Ex [Hin|Hne]; apply sendMessage_started in Hx as [E N];
      [contradiction|congruence]. }
  repeat match goal with
  | |- context [if msgType data =? ?c then _ else _] =>
      let E := fresh "E" in destruct (msgType data =? c) eqn:E
  end.
  - intros [= <- <-] [[]|Hne]. congruence.
  - intros [= <- <-] [[]|Hne]. exfalso. apply Hne.
    destruct (configStarted r); reflexivity.
  - destruct (parseCapabilities data r) as [[b r1]| |] eqn:Hp; cbn [rbind];
      try discriminate.
    apply parseCapabilities_started in Hp. cbn [fst snd]. destruct b.
    + unfold sendDeleteROSpec.
      destruct (writeUInt32BE 0); cbn [rbind]; try discriminate.
      intros Hx Hc. exfalso. eapply Hsend; [exact Hx| |exact Hc].
      rewrite computePowerIndices_started. assumption.
    + intros [= <- <-] [[]|Hne]. congruence.
  - destruct (handleErrorMessage data); cbn [rbind]; try discriminate.
    intros [= <- <-] [[]|Hne]. congruence.
  - destruct (checkResponse data); cbn [rbind]; try discriminate.
    unfold sendDeleteROSpec.
    destruct (writeUInt32BE 0); cbn [rbind]; try discriminate.
    intros Hx Hc. exfalso. eapply Hsend; [exact Hx|reflexivity|exact Hc].
  - destruct (checkResponse data); cbn [rbind]; try discriminate.
    unfold sendAddROSpec.
    destruct (buildROSpec config r); cbn [rbind]; try discriminate.
    intros Hx Hc. exfalso. eapply Hsend; [exact Hx|reflexivity|exact Hc].
  - destruct (checkResponse data); cbn [rbind]; try discriminate.
    unfold sendEnableROSpec.
    destruct (writeUInt32BE 1); cbn [rbind]; try discriminate.
    intros Hx Hc. exfalso. eapply Hsend; [exact Hx|reflexivity|exact Hc].
  - destruct (checkResponse data); cbn [rbind]; try discriminate.
    unfold sendStartROSpec.
    destruct (writeUInt32BE 1); cbn [rbind]; try discriminate.
    intros Hx Hc. exfalso. eapply Hsend; [exact Hx|reflexivity|exact Hc].
  - apply Z.eqb_eq in E7.
    destruct (checkResponse data) as [[|]| |]; cbn [rbind]; try discriminate.
    + intros [= <- <-] _. auto.
    + intros [= <- <-] [[]|Hne]. congruence.
  - unfold parseTagReport.
    destruct (negb (rospecStarted r));
      [intros [= <- <-] [[]|Hne]; congruence|].
    destruct (tlvLoop _ _ _ _ _) as [o| |] eqn:Hl; cbn [rbind];
      try discriminate.
    intros [= <- <-] [Hin|Hne]; [|congruence]. exfalso.
    assert (Hno : ~ In (Emit EvReady) o); [|contradiction].
    eapply (tlvLoop_invariant (fun x => ~ In (Emit EvReady) x));
      [|apply in_nil|exact Hl].
    intros t l o' s s' Hs. unfold tagReportBody.
    destruct (t =? 240); [|intros [= <-]; assumption].
    destruct (parseTagReportData _) as [tag| |]; cbn [rbind]; try discriminate.
    intros [= <-] Hi. apply in_app_or in Hi as [Hi|Hi]; [contradiction|].
    unfold reportTag in Hi. destruct (epcMissing tag); [destruct Hi|].
    destruct Hi as [Hi|[]]. discriminate.
  - unfold sendKeepaliveAck.
    intros Hx Hc. exfalso. eapply Hsend; [exact Hx|reflexivity|exact Hc].
  - intros [= <- <-] [[]|Hne]. congruence.
Qed.

Lemma ready_only_after_accepted_start_witness :
  (rospecStarted Sample.live = true ->
   rospecStarted (set_rospecStarted true Sample.live) = true)
  /\ (In (Emit EvReady) [Emit EvReady]
      \/ rospecStarted (set_rospecStarted true Sample.live)
         <> rospecStarted Sample.live ->
      msgType Sample.startAccepted = MSG.START_ROSPEC_RESPONSE
      /\ checkResponse Sample.startAccepted = Ok true
      /\ [Emit EvReady] = [Emit EvReady]
      /\ rospecStarted (set_rospecStarted true Sample.live) = true).
Proof.
  apply (ready_only_after_accepted_start Sample.config Sample.startAccepted
           Sample.live).
  reflexivity.
Defined.

(** ** ERROR_MESSAGE *)

Lemma handleErrorLoop_ok (data : Buffer) :
  isBuffer data = true ->
  forall (fuel : nat) (offset : Z),
    0 <= offset -> (0 < fuel)%nat -> len data - offset < Z.of_nat fuel ->
    (forall t l o, In (t, l, o) (tlvParams fuel data offset) ->
                   t = 287 \/ t = 288 \/ t = 289 -> 8 <= l) ->
    handleErrorLoop fuel data offset = Ok tt.
Proof.
  intros Hb. induction fuel as [|f IH]; intros offset Ho Hpos Hfuel Hps; [lia|].
  cbn [handleErrorLoop].
  destruct (Z.ltb_spec offset (len data - 4)) as [Hlt|]; [|reflexivity].
  pose proof (u16_range data (offset + 2) Hb) as Hu.
  destruct ((u16 data (offset + 2) =? 0)
            || (u16 data (offset + 2) >? len data - offset)) eqn:Hbad;
    [reflexivity|].
  assert (Hh : tlvHeader data offset
               = Some (Z.land (u16 data offset) 1023, u16 data (offset + 2))).
  { unfold tlvHeader. destruct (Z.leb_spec (offset + 4) (len data)); [|lia].
    rewrite Hbad. reflexivity. }
  apply orb_false_iff in Hbad as [Hz Hover].
  apply Z.eqb_neq in Hz.
  destruct (Z.gtb_spec (u16 data (offset + 2)) (len data - offset));
    [discriminate|].
  cbn [tlvParams] in Hps. rewrite Hh in Hps.
  assert (H8 : Z.land (u16 data offset) 1023 = 287
               \/ Z.land (u16 data offset) 1023 = 288
               \/ Z.land (u16 data offset) 1023 = 289 ->
               8 <= u16 data (offset + 2))
    by (apply (Hps _ _ offset); left; reflexivity).
  assert (Hread : Z.land (u16 data offset) 1023 = 287
               \/ Z.land (u16 data offset) 1023 = 288
               \/ Z.land (u16 data offset) 1023 = 289 ->
               readUInt16BE data (offset + 4) = Ok (u16 data (offset + 4))
               /\ readUInt16BE data (offset + 6) = Ok (u16 data (offset + 6))).
  { intros Ht. specialize (H8 Ht).
    destruct (guarded_reads data (offset + 4)) as (_ & G4 & _); [lia|].
    destruct (guarded_reads data (offset + 6)) as (_ & G6 & _); [lia|].
    split; [apply G4|apply G6]; lia. }
  destruct (Z.eqb_spec (Z.land (u16 data offset) 1023) 287) as [E|E].
  - destruct (Hread (or_introl E)) as [-> ->]. cbn [rbind].
    rewrite E. cbn [rbind orb Z.eqb Pos.eqb]. 
    apply IH; try lia. intros t l o Hin. apply (Hps t l o). right. assumption.
  - cbn [rbind].
    destruct ((Z.land (u16 data offset) 1023 =? 288)
              || (Z.land (u16 data offset) 1023 =? 289)) eqn:E2.
    + apply orb_true_iff in E2.
      destruct Hread as [-> ->];
        [destruct E2 as [E2|E2]; apply Z.eqb_eq in E2; auto|].
      cbn [rbind]. apply IH; try lia.
      intros t l o Hin. apply (Hps t l o). right. assumption.
    + cbn [rbind]. apply IH; try lia.
      intros t l o Hin. apply (Hps t l o). right. assumption.
Qed.

(** An ERROR_MESSAGE is only logged: the reader state stays as it is and
    nothing is sent or emitted. The one other outcome is a [RangeError]
    from reading the two fields of an LLRPStatus, FieldError or
    ParameterError that is cut short; when each such top-level parameter
    has at least 8 bytes the message is handled. *)
Theorem error_message_is_only_logged (config : Config) (data : Buffer)
    (r : Reader) :
  isBuffer data = true ->
  msgType data = MSG.ERROR_MESSAGE ->
  (processMessage config data r = Ok (r, [])
   \/ processMessage config data r = RangeError)
  /\ ((forall t l o, In (t, l, o) (topLevelParams data) ->
                     t = 287 \/ t = 288 \/ t = 289 -> 8 <= l) ->
      processMessage config data r = Ok (r, [])).
Proof.
  intros Hb Hm.
  assert (Hp : processMessage config data r
               = let! _ := handleErrorMessage data in Ok (r, []))
    by (unfold processMessage; rewrite Hm; reflexivity).
  rewrite Hp. split.
  - pose proof (handleErrorLoop_returns data Hb (S (length data)) 10) as Hn.
    unfold handleErrorMessage.
    destruct (handleErrorLoop _ _ _) as [[]| |]; cbn [rbind]; auto.
    exfalso. apply Hn; [lia|unfold len; lia|reflexivity].
  - intros Hps. unfold handleErrorMessage.
    rewrite handleErrorLoop_ok; try assumption; try lia; [reflexivity|].
    unfold len. lia.
Qed.

Lemma error_message_is_only_logged_witness :
  let data := [4; 100; 0; 0; 0; 28; 0; 0; 0; 3] ++ Sample.badStatus in
  (processMessage Sample.config data Sample.live = Ok (Sample.live, [])
   \/ processMessage Sample.config data Sample.live = RangeError)
  /\ ((forall t l o, In (t, l, o) (topLevelParams data) ->
                     t = 287 \/ t = 288 \/ t = 289 -> 8 <= l) ->
      processMessage Sample.config data Sample.live = Ok (Sample.live, [])).
Proof.
  apply (error_message_is_only_logged Sample.config
           ([4; 100; 0; 0; 0; 28; 0; 0; 0; 3] ++ Sample.badStatus) Sample.live);
    reflexivity.
Defined.

(** ** Shutting down and connecting again *)

(** [disconnect] is final: afterwards [connect] does nothing, a closed
    socket schedules no reconnect and emits no event, and no reconnect
    timer is pending. CLOSE_CONNECTION is the only frame it can write. *)
Theorem disconnect_is_final (config : Config) (r r' : Reader)
    (out : list Effect) :
  disconnect r = Ok (r', out) ->
  connect r' = r'
  /\ onClose config r' = (set_connected false r', [])
  /\ scheduleReconnect config r' = (r', [])
  /\ reconnectTimer r' = false
  /\ (forall f, In (SocketWrite f) out -> msgType f = MSG.CLOSE_CONNECTION).
Proof.
  intros H.
  assert (Hfin : isShuttingDown r' = true /\ shouldReconnect r' = false
                 /\ reconnectTimer r' = false
                 /\ forall f, In (SocketWrite f) out ->
                              msgType f = MSG.CLOSE_CONNECTION).
  { unfold disconnect in H.
    set (r2 := if reconnectTimer _ then _ else _) in H.
    set (cleared := if reconnectTimer _ then [ClearTimeout] else []) in H.
    assert (H2 : isShuttingDown r2 = true /\ shouldReconnect r2 = false
                 /\ reconnectTimer r2 = false)
      by (unfold r2; cbn; destruct (reconnectTimer r) eqn:E; cbn; auto).
    assert (Hcl : forall f, ~ In (SocketWrite f) cleared)
      by (intros f; unfold cleared; destruct (reconnectTimer _);
          [intros [Hx|[]]; discriminate|intros []]).
    destruct (socket r2) eqn:Hs.
    - unfold andThen in H. cbn [rbind fst snd] in H.
      destruct (connected r2) eqn:Hc.
      + unfold sendCloseConnection, sendMessage in H. rewrite Hs, Hc in H.
        cbn [negb orb] in H.
        destruct (frame MSG.CLOSE_CONNECTION (messageId r2) []) as [f| |] eqn:Hf;
          cbn [rbind fst snd] in H; try discriminate.
        injection H as <- <-. cbn. destruct H2 as (A & B & C).
        repeat split; try assumption.
        intros f' Hin. apply in_app_or in Hin as [Hin|Hin];
          [exfalso; eapply Hcl; eassumption|].
        destruct Hin as [[= <-]|[Hin|[]]]; [|discriminate].
        unfold frame in Hf.
        rewrite !writeUInt8_ok in Hf
          by (try apply land_255_range;
              pose proof (header_byte0_range MSG.CLOSE_CONNECTION); lia).
        cbn [rbind] in Hf.
        destruct (writeUInt32BE (10 + len [])) as [lb| |]; cbn [rbind] in Hf;
          try discriminate.
        destruct (writeUInt32BE (messageId r2)) as [ib| |]; cbn [rbind] in Hf;
          try discriminate.
        injection Hf as <-. reflexivity.
      + cbn [rbind fst snd] in H. injection H as <- <-.
        destruct H2 as (A & B & C). repeat split; try assumption.
        intros f Hin.
        apply in_app_or in Hin as [Hin|[Hin|[]]];
          [exfalso; eapply Hcl; eassumption|discriminate].
    - injection H as <- <-. destruct H2 as (A & B & C).
      repeat split; try assumption.
      intros f Hin. exfalso; eapply Hcl; eassumption. }
  destruct Hfin as (Hsd & Hsr & Hrt & Hw).
  repeat split; try assumption.
  - unfold connect. rewrite Hsd. reflexivity.
  - unfold onClose. cbn. rewrite Hsd. reflexivity.
  - unfold scheduleReconnect. rewrite Hsr. reflexivity.
Qed.

Lemma disconnect_is_final_witness :
  exists r' out,
    disconnect Sample.live = Ok (r', out)
    /\ connect r' = r'
    /\ onClose Sample.config r' = (set_connected false r', [])
    /\ scheduleReconnect Sample.config r' = (r', [])
    /\ reconnectTimer r' = false
    /\ (forall f, In (SocketWrite f) out -> msgType f = MSG.CLOSE_CONNECTION).
Proof.
  do 2 eexists. split; [reflexivity|].
  apply (disconnect_is_final Sample.config Sample.live). reflexivity.
Defined.

(** ** Records made of TV parameters *)

Lemma knownTV_cases (t : Z) :
  knownTV t = true ->
  t = 1 \/ t = 6 \/ t = 7 \/ t = 8 \/ t = 9 \/ t = 10 \/ t = 13 \/ t = 14
  \/ t = 15 \/ t = 16.
Proof.
  unfold knownTV. cbn [existsb]. rewrite !orb_true_iff, !Z.eqb_eq.
  intuition (try discriminate; auto 12).
Qed.

Lemma u16_payload (pre p post : Buffer) :
  len p = 2 -> u16 (pre ++ p ++ post) (len pre + 0) = u16 p 0.
Proof.
  intros Hp. rewrite u16_app_r by lia. unfold u16.
  rewrite !byte_app_l by lia. reflexivity.
Qed.

Lemma s8_payload (pre p post : Buffer) :
  len p = 1 -> s8 (pre ++ p ++ post) (len pre + 0) = s8 p 0.
Proof.
  intros Hp. unfold s8. rewrite byte_app_r by lia.
  rewrite byte_app_l by lia. reflexivity.
Qed.

Lemma slice_whole (p : Buffer) : slice p 0 (len p) = p.
Proof.
  rewrite <- (app_nil_r p) at 1. apply slice_app_exact.
Qed.

Lemma u64_payload (pre p post : Buffer) :
  len p = 8 -> u64 (pre ++ p ++ post) (len pre + 0) = u64 p 0.
Proof.
  intros Hp. unfold u64.
  replace (len pre + 0 + 8) with (len pre + len p) by lia.
  rewrite Z.add_0_r, slice_app_mid.
  change (0 + 8) with 8. rewrite <- Hp, slice_whole. reflexivity.
Qed.

Lemma tagStep_tvParam (pre post p : Buffer) (t : Z) (tag : Tag) :
  wellFormedTV (t, p) ->
  tagStep (pre ++ tvParam t p ++ post) tag (len pre)
  = Next (tvField tag (t, p)) (len (pre ++ tvParam t p)).
Proof.
  intros [Hk Hl]. cbn [fst snd] in Hk, Hl.
  assert (Hb : byte (pre ++ tvParam t p ++ post) (len pre) = Z.lor 128 t).
  { replace (len pre) with (len pre + 0) by lia.
    rewrite byte_app_r by lia. reflexivity. }
  assert (Hlen : len (pre ++ tvParam t p ++ post)
                 = len pre + 1 + len p + len post)
    by (unfold tvParam; rewrite !len_app, len_cons; lia).
  assert (Hnext : len (pre ++ tvParam t p) = len pre + 1 + len p)
    by (unfold tvParam; len_simpl; lia).
  pose proof (len_nonneg post) as Hpost.
  assert (Hsplit : pre ++ tvParam t p ++ post
                   = (pre ++ [Z.lor 128 t]) ++ p ++ post)
    by (unfold tvParam; rewrite <- app_assoc; reflexivity).
  assert (Hpre1 : len pre + 1 = len (pre ++ [Z.lor 128 t]) + 0)
    by (rewrite len_app, len_cons, len_nil; lia).
  unfold tagStep, msbSet, tvStep. rewrite Hb, Hlen, Hnext.
  apply knownTV_cases in Hk.
  destruct Hk as [->|[->|[->|[->|[->|[->|[->|[->|[->| ->]]]]]]]]];
    unfold tvPayloadLen in Hl; cbn in Hl; rewrite Hl;
    cbv beta iota delta [tvField Z.lor Pos.lor Z.land Pos.land Z.eqb Pos.eqb
                         negb Pos.succ N.succ_pos Pos.Nsucc_double
                         Pos.Ndouble Z.of_N];
    try (f_equal; lia).
  all: match goal with
       | |- context [?a <=? ?b] =>
         destruct (Z.leb_spec a b); [|lia]
       end.
  all: f_equal; try lia; f_equal; f_equal.
  all: rewrite Hsplit, Hpre1.
  - apply u16_payload. assumption.
  - apply s8_payload. assumption.
  - apply u64_payload. assumption.
  - apply u16_payload. assumption.
  - f_equal. rewrite Z.add_0_r.
    replace (len pre + 13) with (len (pre ++ [Z.lor 128 13]) + len p)
      by (rewrite len_app, len_cons, len_nil; lia).
    apply slice_app_mid.
Qed.

Lemma tagLoop_tvRecord (fields : list (Z * Buffer)) :
  Forall wellFormedTV fields ->
  forall (fuel : nat) (pre : Buffer) (tag : Tag),
    len (tvRecord fields) < Z.of_nat fuel ->
    tagLoop fuel (pre ++ tvRecord fields) tag (len pre)
    = Ok (fold_left tvField fields tag).
Proof.
  induction 1 as [|[t p] rest Hf Hrest IH]; intros fuel pre tag Hfuel;
    (destruct fuel as [|f];
     [match type of Hfuel with len ?b < _ => pose proof (len_nonneg b) end;
      lia|]).
  - cbn [tagLoop tvRecord flat_map fold_left]. rewrite app_nil_r.
    rewrite Z.ltb_irrefl. reflexivity.
  - cbn [tvRecord flat_map fst snd] in *. fold (tvRecord rest) in *.
    cbn [tagLoop fold_left].
    assert (Hl : len pre < len (pre ++ tvParam t p ++ tvRecord rest)).
    { unfold tvParam. rewrite !len_app, len_cons.
      pose proof (len_nonneg p). pose proof (len_nonneg (tvRecord rest)). lia. }
    apply Z.ltb_lt in Hl. rewrite Hl.
    rewrite tagStep_tvParam by assumption.
    rewrite app_assoc. apply IH.
    unfold tvParam in Hfuel. rewrite len_app, len_cons in Hfuel.
    pose proof (len_nonneg p). lia.
Qed.

(** A record made of TV parameters the decoder knows (types 1, 6 to 10
    and 13 to 16, each with the payload length of its case) is decoded
    parameter by parameter: AntennaID, PeakRSSI, LastSeenTimestampUTC,
    TagSeenCount and EPC-96 set their field from the payload, the others
    are skipped, and of a repeated parameter the last one counts. *)
Theorem tv_record_is_decoded (fields : list (Z * Buffer)) :
  Forall wellFormedTV fields ->
  parseTagReportData (tvRecord fields)
  = Ok (fold_left tvField fields emptyTag).
Proof.
  intros Hf. unfold parseTagReportData.
  apply (tagLoop_tvRecord fields Hf (S (length (tvRecord fields))) [] emptyTag).
  unfold len. lia.
Qed.

Lemma tv_record_is_decoded_witness :
  parseTagReportData
    (tvRecord [(13, [226; 0; 0; 23; 34; 17; 1; 68; 20; 80; 122; 189]);
               (1, [0; 2]); (6, [200]); (10, [0; 5]); (6, [190])])
  = Ok {| epc := Some "E20000172211014414507ABD"%string;
          antenna := Some 2; rssi := Some (-66);
          timestamp := None; seenCount := Some 5 |}.
Proof.
  apply (tv_record_is_decoded
           [(13, [226; 0; 0; 23; 34; 17; 1; 68; 20; 80; 122; 189]);
            (1, [0; 2]); (6, [200]); (10, [0; 5]); (6, [190])]).
  repeat (apply List.Forall_cons; [split; reflexivity|]).
  apply List.Forall_nil.
Defined.

(** ** The capability scan of the minimal test script *)

Lemma parseMaxLoop_fold (data : Buffer) :
  forall (fuel : nat) (off : Z) (maxIdx : option Z),
    0 <= off -> (0 < fuel)%nat -> len data - off < Z.of_nat fuel ->
    parseMaxLoop fuel data off maxIdx
    = Ok (fold_left raiseMax (entryIndicesFrom fuel data off) maxIdx).
Proof.
  induction fuel as [|f IH]; intros off maxIdx Ho Hpos Hfuel; [lia|].
  cbn [parseMaxLoop entryIndicesFrom].
  destruct (Z.leb_spec (off + 4) (len data)) as [Hin|]; [|reflexivity].
  destruct (guarded_reads data off Ho) as (_ & G0 & _).
  destruct (guarded_reads data (off + 2)) as (_ & G2 & _); [lia|].
  destruct G0 as [-> _]; [lia|]. destruct G2 as [-> _]; [lia|].
  cbn [rbind].
  destruct ((u16 data (off + 2) <? 4)
            || (off + u16 data (off + 2) >? len data)) eqn:Hbad;
    [reflexivity|].
  apply orb_false_iff in Hbad as [H4 Hover].
  apply Z.ltb_ge in H4.
  destruct (Z.gtb_spec (off + u16 data (off + 2)) (len data));
    [discriminate|].
  destruct ((Z.land (u16 data off) 1023 =? 145)
            && (u16 data (off + 2) >=? 8)) eqn:Hent.
  - apply andb_true_iff in Hent as [_ H8].
    apply Z.geb_le in H8.
    destruct (guarded_reads data (off + 4)) as (_ & G4 & _); [lia|].
    destruct G4 as [-> _]; [lia|].
    cbn [rbind app fold_left]. apply IH; lia.
  - cbn [rbind app]. apply IH; lia.
Qed.

Lemma raiseMax_fold (idxs : list Z) :
  forall (m : Z),
    exists m', fold_left raiseMax idxs (Some m) = Some m'
               /\ (m' = m \/ In m' idxs)
               /\ m <= m' /\ Forall (fun i => i <= m') idxs.
Proof.
  induction idxs as [|i rest IH]; intros m.
  - exists m. cbn. repeat split; auto. lia.
  - cbn [fold_left raiseMax].
    destruct (Z.gtb_spec i m) as [Hgt|Hle].
    + destruct (IH i) as (m' & -> & Hin & Hge & Hall).
      exists m'. split; [reflexivity|]. split; [|split].
      * right. destruct Hin as [->|Hin]; [left; reflexivity|right; exact Hin].
      * lia.
      * apply List.Forall_cons; [lia|exact Hall].
    + destruct (IH m) as (m' & -> & Hin & Hge & Hall).
      exists m'. split; [reflexivity|]. split; [|split].
      * destruct Hin as [->|Hin]; [left; reflexivity|right; right; exact Hin].
      * exact Hge.
      * apply List.Forall_cons; [lia|exact Hall].
Qed.

(** The minimal script's capability scan always returns, without a read
    out of range. It answers [null] exactly when no top-level parameter of
    the message is a TransmitPowerLevelTableEntry (145) of at least 8
    bytes, and else the largest index such an entry carries. *)
Theorem max_tx_power_index (data : Buffer) :
  exists res,
    parseMaxTxPowerIndex data = Ok res
    /\ match res with
       | None => entryIndices data = []
       | Some m => In m (entryIndices data)
                   /\ Forall (fun i => i <= m) (entryIndices data)
       end.
Proof.
  unfold parseMaxTxPowerIndex, entryIndices.
  rewrite parseMaxLoop_fold by (unfold len; lia).
  eexists. split; [reflexivity|].
  destruct (entryIndicesFrom _ data 10) as [|i rest]; [reflexivity|].
  cbn [fold_left raiseMax].
  destruct (raiseMax_fold rest i) as (m' & -> & Hin & Hge & Hall).
  split.
  - destruct Hin as [->|Hin]; [left; reflexivity|right; exact Hin].
  - apply List.Forall_cons; assumption.
Qed.

(** ** A session after a reconnect *)

Lemma report_before_start (config : Config) (report : Buffer) (r : Reader) :
  msgType report = MSG.RO_ACCESS_REPORT ->
  rospecStarted r = false ->
  processMessage config report r = Ok (r, []).
Proof.
  intros Ht Hs. unfold processMessage. rewrite Ht. cbn.
  unfold parseTagReport. rewrite Hs. reflexivity.
Qed.

(** When the reconnect timer fires on a reader that is not shutting down
    and the new socket connects, the session starts over whatever the old
    one had reached: the first frame is ENABLE_EVENTS_AND_REPORTS with
    message id 1, the capabilities timer and the stuck detector are
    armed, the tables of the old session are gone, and reports are
    dropped again until a ROSpec has been started anew. *)
Theorem reconnect_starts_over (config : Config) (r : Reader) :
  isShuttingDown r = false ->
  exists r1 f,
    onConnect (onReconnectTimer r)
    = Ok (r1, [Emit EvConnected; SocketWrite f;
               SetTimeout TimerCapabilities 100;
               SetTimeout TimerStuckDetector 2000])
    /\ msgType f = MSG.ENABLE_EVENTS_AND_REPORTS
    /\ u32 f 6 = 1
    /\ messageId r1 = 2
    /\ powerTable r1 = [] /\ hopTableIds r1 = []
    /\ (forall report, msgType report = MSG.RO_ACCESS_REPORT ->
                       processMessage config report r1 = Ok (r1, [])).
Proof.
  intros Hsd.
  assert (Hf : frame MSG.ENABLE_EVENTS_AND_REPORTS 1 []
               = Ok [4; 64; 0; 0; 0; 10; 0; 0; 0; 1]) by reflexivity.
  assert (Hr : onReconnectTimer r
               = set_socket true (set_hopTableId 1 (set_hopTableIds []
                   (set_antennaPowerIndex ∅ (set_powerTable [] (set_buffer []
                     (set_messageId 1 (set_rospecStarted false
                       (set_configStarted false r))))))))).
  { unfold onReconnectTimer, connect.
    destruct (isShuttingDown (set_hopTableId _ _)) eqn:E; [|reflexivity].
    cbn in E. congruence. }
  rewrite Hr. unfold onConnect, andThen, sendMessage.
  cbn [rbind fst snd socket connected messageId set_connected set_socket
       set_hopTableId set_hopTableIds set_antennaPowerIndex set_powerTable
       set_buffer set_messageId set_rospecStarted set_configStarted
       negb orb app].
  rewrite Hf. cbn [rbind fst snd app].
  do 2 eexists. split; [reflexivity|].
  split; [reflexivity|]. split; [reflexivity|]. split; [reflexivity|].
  split; [reflexivity|]. split; [reflexivity|].
  intros report Ht. apply report_before_start; [assumption|reflexivity].
Qed.

Lemma reconnect_starts_over_witness :
  exists r1 f,
    onConnect (onReconnectTimer Sample.live)
    = Ok (r1, [Emit EvConnected; SocketWrite f;
               SetTimeout TimerCapabilities 100;
               SetTimeout TimerStuckDetector 2000])
    /\ msgType f = MSG.ENABLE_EVENTS_AND_REPORTS
    /\ u32 f 6 = 1
    /\ messageId r1 = 2
    /\ powerTable r1 = [] /\ hopTableIds r1 = []
    /\ (forall report, msgType report = MSG.RO_ACCESS_REPORT ->
                       processMessage Sample.config report r1 = Ok (r1, [])).
Proof.
  apply (reconnect_starts_over Sample.config Sample.live). reflexivity.
Defined.

(** ** C2: reports before and after the start *)





















(** The observations of the sample report: one, for its first record. *)
Example sample_report_records :
  flat_map (observation Sample.config)
    [ [FieldTV 13 [48; 10; 0; 1; 2; 3; 4; 5; 6; 7; 8; 9];
       FieldTV 1 [0; 3]; FieldTV 6 [216]];
      [FieldTV 1 [0; 3]] ]
  = [Emit (EvTag {| epc := Some "300A00010203040506070809"%string;
                    antenna := Some 3; rssi := Some (-40);
                    timestamp := None; seenCount := None |})].
Proof. reflexivity. Qed.

(** A record with an EPCData parameter of 16 bits and an AntennaID. *)
Example sample_epcdata_record :
  parseTagReportData
    (recordBytes [FieldTLV 241 [0; 16; 171; 205]; FieldTV 1 [0; 2]])
  = Ok {| epc := Some "ABCD"%string; antenna := Some 2; rssi := None;
          timestamp := None; seenCount := None |}
  /\ recordTag [FieldTLV 241 [0; 16; 171; 205]; FieldTV 1 [0; 2]]
     = {| epc := Some "ABCD"%string; antenna := Some 2; rssi := None;
          timestamp := None; seenCount := None |}.
Proof. split; reflexivity. Qed.
